(** * InvenTree [users/api.py]: owners, API tokens and the self endpoint

    A shallow embedding of the views of [src/backend/InvenTree/users/api.py]
    that carry the authorization and credential model: [OwnerList],
    [GetAuthToken], [TokenMixin], [TokenListView], [TokenDetailView] and
    [MeUserDetail].

    A text is the [string] of the bytes of its UTF-8 encoding.  Equality,
    emptiness, containment of one text in another and cutting at the
    space character are the same on the encoding as on the text.
    [str.lower()] and [str.strip()] follow the Unicode tables: they are
    parameters ([Py.Str]), known on ASCII text only.  Dates and primary
    keys are integers.  A database table is the list of its rows in primary-key
    order, which is the order [first()] uses on an unordered queryset. *)

From Stdlib Require Import ZArith Ascii String List Bool Lia.
From Stdlib Require Import Decimal DecimalString DecimalN.
From stdpp Require Import base decidable option list strings gmap.

Open Scope string_scope.
Open Scope Z_scope.

(** ** Python text primitives *)

Module Py.

(** [c.lower()] for one ASCII character. *)
Definition lower_char (c : ascii) : ascii :=
  let n := nat_of_ascii c in
  if ((65 <=? n) && (n <=? 90))%nat then ascii_of_nat (n + 32) else c.

(** [s.lower()] on ASCII text. *)
Fixpoint ascii_lower (s : string) : string :=
  match s with
  | EmptyString => EmptyString
  | String c s' => String (lower_char c) (ascii_lower s')
  end.

(** [c.isspace()] for one ASCII character: tab, line feed, vertical tab,
    form feed, carriage return, the four separators 28..31 and the
    space. *)
Definition is_space (c : ascii) : bool :=
  let n := nat_of_ascii c in
  (((9 <=? n) && (n <=? 13)) || ((28 <=? n) && (n <=? 32)))%nat.

(** [s.lstrip()] on ASCII text. *)
Fixpoint lstrip (s : string) : string :=
  match s with
  | EmptyString => EmptyString
  | String c s' => if is_space c then lstrip s' else s
  end.

(** [s.rstrip()] on ASCII text. *)
Fixpoint rstrip (s : string) : string :=
  match s with
  | EmptyString => EmptyString
  | String c s' =>
      match rstrip s' with
      | EmptyString => if is_space c then EmptyString else String c EmptyString
      | r => String c r
      end
  end.

(** [s.strip()] on ASCII text. *)
Definition ascii_strip (s : string) : string := rstrip (lstrip s).

(** Every character of [s] is an ASCII character. *)
Fixpoint is_ascii (s : string) : bool :=
  match s with
  | EmptyString => true
  | String c s' => (nat_of_ascii c <? 128)%nat && is_ascii s'
  end.

(** [s.lower()] and [s.strip()] of Python: what they do to letters and
    white space outside ASCII is in the Unicode tables of the
    interpreter; on ASCII text they are the two functions above. *)
Class Str : Type := {
  lower : string -> string;
  strip : string -> string;
  lower_on_ascii : ∀ s, is_ascii s = true → lower s = ascii_lower s;
  strip_on_ascii : ∀ s, is_ascii s = true → strip s = ascii_strip s
}.

(** The two functions for a program that meets ASCII text only. *)
Definition ascii_str : Str :=
  {| lower := ascii_lower; strip := ascii_strip;
     lower_on_ascii := fun _ _ => eq_refl;
     strip_on_ascii := fun _ _ => eq_refl |}.

(** Cut [s] at every character satisfying [p]; the pieces between two
    cuts, before the first and after the last are all kept, empty or
    not. *)
Fixpoint split_by (p : ascii -> bool) (s : string) : list string :=
  match s with
  | EmptyString => [EmptyString]
  | String c s' =>
      if p c then EmptyString :: split_by p s'
      else match split_by p s' with
           | [] => [String c EmptyString]
           | w :: ws => String c w :: ws
           end
  end.

(** [s.split(sep)] for a separator of one character. *)
Definition split (sep : ascii) (s : string) : list string :=
  split_by (Ascii.eqb sep) s.

(** [sub in s] *)
Fixpoint contains (sub s : string) : bool :=
  String.prefix sub s
  || match s with
     | EmptyString => false
     | String _ s' => contains sub s'
     end.

(** Python values found in request mappings and response bodies. *)
Inductive value : Type :=
| PyNone
| PyBool (b : bool)
| PyInt (z : Z)
| PyDate (d : Z)
| PyStr (s : string).

(** [bool(v)] *)
Definition truthy (v : value) : bool :=
  match v with
  | PyNone => false
  | PyBool b => b
  | PyInt z => negb (z =? 0)
  | PyDate _ => true
  | PyStr s => negb (String.eqb s EmptyString)
  end.

(** [d.get(k, default)] on a mapping with text values. *)
Definition get (d : gmap string string) (k : string) (dflt : value) : value :=
  match d !! k with
  | Some s => PyStr s
  | None => dflt
  end.

(** [d.get(k, default)] where the default is text too. *)
Definition get_str (d : gmap string string) (k : string) (dflt : string) : string :=
  default dflt (d !! k).

(** A [dict] with text keys, in insertion order. *)
Definition dict : Type := list (string * value).

(** [d.get(k)] on a [dict]. *)
Fixpoint dict_get (d : dict) (k : string) : option value :=
  match d with
  | [] => None
  | (k', v) :: d' => if String.eqb k' k then Some v else dict_get d' k
  end.

(** [d[k] = v]: overwrite in place, or add at the end. *)
Fixpoint dict_set (d : dict) (k : string) (v : value) : dict :=
  match d with
  | [] => [(k, v)]
  | (k', v') :: d' =>
      if String.eqb k' k then (k', v) :: d' else (k', v') :: dict_set d' k v
  end.

End Py.

(** ** Data model *)

Module User.
(** [django.contrib.auth.models.User], the columns the views read. *)
Record t : Type := {
  pk : Z;
  username : string;
  is_staff : bool;
  is_superuser : bool;
  is_active : bool
}.
End User.

(** [request.user]: a [User], or Django's [AnonymousUser]. *)
Inductive actor : Type :=
| AnonymousUser
| Authenticated (u : User.t).

Definition is_authenticated (a : actor) : bool :=
  match a with
  | AnonymousUser => false
  | Authenticated _ => true
  end.

Definition actor_is_superuser (a : actor) : bool :=
  match a with
  | AnonymousUser => false
  | Authenticated u => User.is_superuser u
  end.

Definition actor_is_staff (a : actor) : bool :=
  match a with
  | AnonymousUser => false
  | Authenticated u => User.is_staff u
  end.

Module Owner.
(** [users.models.Owner]: [owner_type] is a content type, of which the
    views read the [name]. *)
Record t : Type := {
  pk : Z;
  owner_type_name : string;
  owner_id : Z
}.
End Owner.

Module ApiToken.
(** [users.models.ApiToken] *)
Record t : Type := {
  id : Z;
  user : Z;
  name : string;
  key : string;
  created : Z;
  expiry : Z;
  revoked : bool;
  metadata : gmap string string
}.

Definition with_revoked (b : bool) (tk : t) : t :=
  {| id := id tk; user := user tk; name := name tk; key := key tk;
     created := created tk; expiry := expiry tk; revoked := b;
     metadata := metadata tk |}.

Definition with_metadata (m : gmap string string) (tk : t) : t :=
  {| id := id tk; user := user tk; name := name tk; key := key tk;
     created := created tk; expiry := expiry tk; revoked := revoked tk;
     metadata := m |}.

Definition with_key (k : string) (tk : t) : t :=
  {| id := id tk; user := user tk; name := name tk; key := k;
     created := created tk; expiry := expiry tk; revoked := revoked tk;
     metadata := metadata tk |}.
End ApiToken.

Module RuleSet.
(** [users.models.RuleSet]: the four flags of one group for one
    category. *)
Record t : Type := {
  group : Z;
  name : string;
  can_view : bool;
  can_add : bool;
  can_change : bool;
  can_delete : bool
}.
End RuleSet.

(** The HTTP request as the views see it. *)
Record Request : Type := {
  user : actor;
  method : string;
  query_params : gmap string string;
  headers : gmap string string;
  META : gmap string string;
  data : gmap string string;
  kwargs_pk : Z
}.

(** The state a request runs against: the tables, the clock, the key
    generator and the session of the client. *)
Record World : Type := {
  users : list User.t;
  owners : list Owner.t;
  tokens : list ApiToken.t;
  rule_sets : list RuleSet.t;
  memberships : list (Z * Z);
  today : Z;
  next_id : Z;
  rng : nat;
  session_user : option Z
}.

Definition set_tokens (f : list ApiToken.t -> list ApiToken.t) (w : World) : World :=
  {| users := users w; owners := owners w; tokens := f (tokens w);
     rule_sets := rule_sets w; memberships := memberships w;
     today := today w; next_id := next_id w; rng := rng w;
     session_user := session_user w |}.

Definition set_today (d : Z) (w : World) : World :=
  {| users := users w; owners := owners w; tokens := tokens w;
     rule_sets := rule_sets w; memberships := memberships w;
     today := d; next_id := next_id w; rng := rng w;
     session_user := session_user w |}.

Definition set_session_user (s : option Z) (w : World) : World :=
  {| users := users w; owners := owners w; tokens := tokens w;
     rule_sets := rule_sets w; memberships := memberships w;
     today := today w; next_id := next_id w; rng := rng w;
     session_user := s |}.

(** A new row takes the next primary key and the next generated key. *)
Definition insert_token (tk : ApiToken.t) (w : World) : World :=
  {| users := users w; owners := owners w; tokens := tokens w ++ [tk];
     rule_sets := rule_sets w; memberships := memberships w;
     today := today w; next_id := next_id w + 1; rng := S (rng w);
     session_user := session_user w |}.

(** ** Exceptions and the request monad *)

Inductive exn : Type :=
| NotAuthenticated
| PermissionDenied
| DoesNotExist
| MultipleObjectsReturned
| KeyError (k : string)
| TypeError
| DatabaseError
| ValidationError.

Inductive result (A : Type) : Type :=
| Ok (a : A)
| Raise (e : exn).
Arguments Ok {A} a.
Arguments Raise {A} e.


(** A computation reads and writes the world and may raise. *)
Definition M (A : Type) : Type := World -> result (A * World).

Definition ret {A} (a : A) : M A := fun w => Ok (a, w).

Definition bind {A B} (m : M A) (k : A -> M B) : M B :=
  fun w => match m w with
           | Ok (a, w') => k a w'
           | Raise e => Raise e
           end.

Definition raise {A} (e : exn) : M A := fun _ => Raise e.

Definition gets {A} (f : World -> A) : M A := fun w => Ok (f w, w).

Definition modify (f : World -> World) : M unit := fun w => Ok (tt, f w).

Notation "'let*' x ':=' m 'in' k" := (bind m (fun x => k))
  (at level 10, x name, m at level 100, k at level 200).

(** ** Collaborators outside [users/api.py] *)

(** What the views call in [users.models], [InvenTree.models] and
    [InvenTree.helpers], none of which is among the sources:
    [ApiToken.sanitize_name], the defaults of a new token (its key, drawn
    from the generator, and its expiry, counted from today),
    [MetadataMixin.set_metadata], [Owner.name] and [str2bool]; with them
    come [str.lower()] and [str.strip()] of the interpreter. *)
Class Models : Type := {
  sanitize_name : string -> string;
  default_token : nat -> string;
  default_token_expiry : Z -> Z;
  set_metadata : string -> string -> ApiToken.t -> M ApiToken.t;
  owner_name : Owner.t -> string;
  str2bool : string -> bool;
  py_str :: Py.Str
}.

(** What the token views use of [users.serializers.ApiTokenSerializer]:
    the representation of a row, and the owner and name a POST body is
    validated to; and of [InvenTree.filters.SEARCH_ORDER_FILTER], the
    filter backends of the token list with its [search_fields],
    [ordering_fields] and [filterset_fields]: the queryset as the
    parameters of the request narrow and order it, or the error a
    parameter raises.  Neither is among the sources. *)
Class Serializers : Type := {
  ApiTokenSerializer : ApiToken.t -> Py.dict;
  validated_data : Request -> result (Z * string);
  filter_backends : Request -> list ApiToken.t -> result (list ApiToken.t)
}.

(** [instance.save()]: update the row with this primary key, insert it
    when there is none. *)
Definition save (tk : ApiToken.t) (rows : list ApiToken.t) : list ApiToken.t :=
  if existsb (fun r => ApiToken.id r =? ApiToken.id tk) rows
  then map (fun r => if ApiToken.id r =? ApiToken.id tk then tk else r) rows
  else rows ++ [tk].

(** [ApiToken.objects.get(id=pk)] *)
Definition objects_get (pk : Z) : M ApiToken.t :=
  fun w =>
    match List.filter (fun r => ApiToken.id r =? pk) (tokens w) with
    | [] => Raise DoesNotExist
    | [tk] => Ok (tk, w)
    | _ => Raise MultipleObjectsReturned
    end.

Section Manager.
Context `{!Models}.

(** Modelled from the spec: [ApiToken.objects.create(user, name)] with the
    defaults of [users/models.py], which is not among the sources.  "If
    not found: create a new record with a freshly generated,
    cryptographically random secret key, default expiry policy (external
    collaborator supplies the horizon), and revoked = false."  The
    conflict the persistence layer may raise for a second unrevoked,
    unexpired token of a user and name is not modelled: what is proved of
    a creation is proved where there is no such token. *)
Definition objects_create (user_pk : Z) (name : string) : M ApiToken.t :=
  fun w =>
    let tk := {| ApiToken.id := next_id w;
                 ApiToken.user := user_pk;
                 ApiToken.name := name;
                 ApiToken.key := default_token (rng w);
                 ApiToken.created := today w;
                 ApiToken.expiry := default_token_expiry (today w);
                 ApiToken.revoked := false;
                 ApiToken.metadata := ∅ |} in
    Ok (tk, insert_token tk w).
End Manager.

(** ** [OwnerList] *)

Module OwnerList.
Section View.
Context `{!Models}.

(** [for entry in ...: if entry not in name: search_match = False; break] *)
Fixpoint entries_loop (name : string) (entries : list string) : bool :=
  match entries with
  | [] => true
  | entry :: rest =>
      if negb (Py.contains entry name) then false
      else entries_loop name rest
  end.

(** [User.objects.filter(is_active=is_active).values_list('pk', flat=True)] *)
Definition matching_user_ids (is_active : bool) (w : World) : list Z :=
  map User.pk (List.filter (fun u => Bool.eqb (User.is_active u) is_active) (users w)).

(** The body of [for result in queryset.all()], with its two [continue]s. *)
Fixpoint results_loop (search_term : string) (is_active : option bool)
    (ids : list Z) (queryset results : list Owner.t) : list Owner.t :=
  match queryset with
  | [] => results
  | result :: rest =>
      let name := Py.strip (Py.lower (owner_name result)) in
      let search_match :=
        if Py.truthy (Py.PyStr search_term)
        then entries_loop name (Py.split " " (Py.strip search_term))
        else true in
      if negb search_match then results_loop search_term is_active ids rest results
      else if bool_decide (is_Some is_active)
              && String.eqb (Owner.owner_type_name result) "user"
              && negb (existsb (Z.eqb (Owner.owner_id result)) ids)
           then results_loop search_term is_active ids rest results
           else results_loop search_term is_active ids rest (results ++ [result])
  end.

(** [OwnerList.filter_queryset]; the view declares no filter fields, so
    [super().filter_queryset] hands the queryset through.  The argument
    is a [QuerySet], given by its rows in order; the result is a Python
    list. *)
Definition filter_queryset (request : Request) (w : World)
    (queryset : list Owner.t) : list Owner.t :=
  let search_term := Py.lower (Py.get_str (query_params request) "search" "") in
  let is_active := query_params request !! "is_active" in
  let is_active := str2bool <$> is_active in
  let ids := match is_active with
             | Some b => matching_user_ids b w
             | None => []
             end in
  results_loop search_term is_active ids queryset [].
End View.
End OwnerList.

(** ** [GetAuthToken] *)

Module GetAuthToken.
Section View.
Context `{!Models}.

(** The lookup [filter(user=user, name=name, revoked=False,
    expiry__gte=today)]. *)
Definition reusable (user_pk : Z) (name : string) (today : Z)
    (tk : ApiToken.t) : bool :=
  (ApiToken.user tk =? user_pk)
  && String.eqb (ApiToken.name tk) name
  && negb (ApiToken.revoked tk)
  && (today <=? ApiToken.expiry tk).

(** [ApiToken.objects.filter(...).first()] *)
Definition lookup (user_pk : Z) (name : string) : M (option ApiToken.t) :=
  fun w => Ok (head (List.filter (reusable user_pk name (today w)) (tokens w)), w).

(** [GetAuthToken.get]; the body of the response is [data]. *)
Definition get (request : Request) : M Py.dict :=
  match user request with
  | Authenticated user =>
      let name := Py.get_str (query_params request) "name" "" in
      let name := sanitize_name name in
      let* token := lookup (User.pk user) name in
      let* token := match token with
                    | Some tk => ret tk
                    | None => objects_create (User.pk user) name
                    end in
      let* token := set_metadata "user_agent"
                      (Py.get_str (headers request) "user-agent" "") token in
      let* token := set_metadata "remote_addr"
                      (Py.get_str (META request) "REMOTE_ADDR" "") token in
      let* token := set_metadata "remote_host"
                      (Py.get_str (META request) "REMOTE_HOST" "") token in
      let* token := set_metadata "remote_user"
                      (Py.get_str (META request) "REMOTE_USER" "") token in
      let* token := set_metadata "server_name"
                      (Py.get_str (META request) "SERVER_NAME" "") token in
      let* token := set_metadata "server_port"
                      (Py.get_str (META request) "SERVER_PORT" "") token in
      let data := [("token", Py.PyStr (ApiToken.key token));
                   ("name", Py.PyStr (ApiToken.name token));
                   ("expiry", Py.PyDate (ApiToken.expiry token))] in
      let* session := gets session_user in
      let* _ := match session with
                | Some _ => ret tt
                | None => modify (set_session_user (Some (User.pk user)))
                end in
      ret data
  | AnonymousUser => raise NotAuthenticated
  end.

(** The first half of [get]: the token found, or else the one created. *)
Definition found_or_created (request : Request) (u : User.t) : M ApiToken.t :=
  let name := sanitize_name (Py.get_str (query_params request) "name" "") in
  let* token := lookup (User.pk u) name in
  match token with
  | Some tk => ret tk
  | None => objects_create (User.pk u) name
  end.

(** The second part of [get]: the six [set_metadata] calls in a row. *)
Definition record_metadata (request : Request) (token : ApiToken.t) : M ApiToken.t :=
  let* token := set_metadata "user_agent"
                  (Py.get_str (headers request) "user-agent" "") token in
  let* token := set_metadata "remote_addr"
                  (Py.get_str (META request) "REMOTE_ADDR" "") token in
  let* token := set_metadata "remote_host"
                  (Py.get_str (META request) "REMOTE_HOST" "") token in
  let* token := set_metadata "remote_user"
                  (Py.get_str (META request) "REMOTE_USER" "") token in
  let* token := set_metadata "server_name"
                  (Py.get_str (META request) "SERVER_NAME" "") token in
  set_metadata "server_port" (Py.get_str (META request) "SERVER_PORT" "") token.
End View.
End GetAuthToken.

(** ** [TokenMixin], [TokenListView], [TokenDetailView] *)

Module TokenMixin.
(** [TokenMixin.get_queryset].  Filtering on [AnonymousUser] is a type
    error in the ORM. *)
Definition get_queryset (request : Request) : M (list ApiToken.t) :=
  if actor_is_superuser (user request)
     && Py.truthy (Py.get (query_params request) "all_users" (Py.PyBool false))
  then gets tokens
  else match user request with
       | Authenticated u =>
           gets (fun w => List.filter (fun tk => ApiToken.user tk =? User.pk u) (tokens w))
       | AnonymousUser => raise TypeError
       end.

(** [get_object]: the row of the queryset with the primary key of the
    URL. *)
Definition get_object (request : Request) : M ApiToken.t :=
  let* queryset := get_queryset request in
  match List.filter (fun tk => ApiToken.id tk =? kwargs_pk request) queryset with
  | [] => raise DoesNotExist
  | [tk] => ret tk
  | _ => raise MultipleObjectsReturned
  end.
End TokenMixin.

Module TokenListView.
Section View.
Context `{!Models} `{!Serializers}.

(** [ListCreateAPI.create]: validate the body, save a new row, answer
    with its representation. *)
Definition super_create (request : Request) : M Py.dict :=
  match validated_data request with
  | Ok (user_pk, name) =>
      let* tk := objects_create user_pk name in
      ret (ApiTokenSerializer tk)
  | Raise e => raise e
  end.

(** [TokenListView.create] *)
Definition create (request : Request) : M Py.dict :=
  let* resp := super_create request in
  match Py.dict_get resp "id" with
  | Some (Py.PyInt id) =>
      let* tk := objects_get id in
      ret (Py.dict_set resp "token" (Py.PyStr (ApiToken.key tk)))
  | _ => raise (KeyError "id")
  end.

(** [TokenListView.get]: [ListAPI.list] serializes
    [filter_queryset(get_queryset())], the queryset after the filter
    backends of the view. *)
Definition list (request : Request) : M (list Py.dict) :=
  let* queryset := TokenMixin.get_queryset request in
  match filter_backends request queryset with
  | Ok queryset => ret (map ApiTokenSerializer queryset)
  | Raise e => raise e
  end.
End View.
End TokenListView.

Module TokenDetailView.
Section View.
Context `{!Serializers}.

(** [TokenDetailView.perform_destroy] *)
Definition perform_destroy (instance : ApiToken.t) : M unit :=
  let instance := ApiToken.with_revoked true instance in
  modify (set_tokens (save instance)).

(** [RetrieveAPI.get] *)
Definition retrieve (request : Request) : M Py.dict :=
  let* instance := TokenMixin.get_object request in
  ret (ApiTokenSerializer instance).

(** [DestroyAPIView.delete]: the answer has no body. *)
Definition destroy (request : Request) : M Py.dict :=
  let* instance := TokenMixin.get_object request in
  let* _ := perform_destroy instance in
  ret [].
End View.
End TokenDetailView.

(** The token operations of [user_urls]: [api-token] (GET),
    [api-token-list] (GET, POST) and [api-token-detail] (GET, DELETE). *)
Inductive operation : Type :=
| IssueToken
| ListTokens
| CreateToken
| RetrieveToken
| RevokeToken.

Section Respond.
Context `{!Models} `{!Serializers}.

(** The records in the body of the response of each operation. *)
Definition respond (op : operation) (request : Request) : M (list Py.dict) :=
  match op with
  | IssueToken => let* d := GetAuthToken.get request in ret [d]
  | ListTokens => TokenListView.list request
  | CreateToken => let* d := TokenListView.create request in ret [d]
  | RetrieveToken => let* d := TokenDetailView.retrieve request in ret [d]
  | RevokeToken => let* _ := TokenDetailView.destroy request in ret []
  end.
End Respond.

(** What the client receives: the body, or the exception. *)
Definition body {A} (r : result (A * World)) : result A :=
  match r with
  | Ok (a, _) => Ok a
  | Raise e => Raise e
  end.


(** The world with every token key replaced by [f] of its row. *)
Definition rekey (f : ApiToken.t -> string) (w : World) : World :=
  set_tokens (map (fun tk => ApiToken.with_key (f tk) tk)) w.

(** ** Permission classes and the user detail views *)

Module Permissions.

Inductive permission_class : Type :=
| IsAuthenticatedOrReadScope
| StaffRolePermissionOrReadOnly
| IsStaffOrReadOnlyScope
| IsSuperuserOrSuperScope.

(** What a view class declares for the permission check. *)
Record view_class : Type := {
  permission_classes : list permission_class;
  rolemap : gmap string string;
  get_permission_model : option string
}.

Definition is_safe (method : string) : bool :=
  String.eqb method "GET" || String.eqb method "HEAD" || String.eqb method "OPTIONS".

(** The action a method stands for, unless the view maps it itself. *)
Definition action_of (view : view_class) (method : string) : string :=
  match rolemap view !! method with
  | Some a => a
  | None =>
      if String.eqb method "POST" then "add"
      else if String.eqb method "PUT" || String.eqb method "PATCH" then "change"
      else if String.eqb method "DELETE" then "delete"
      else "view"
  end.

Definition flag (action : string) (r : RuleSet.t) : bool :=
  if String.eqb action "view" then RuleSet.can_view r
  else if String.eqb action "add" then RuleSet.can_add r
  else if String.eqb action "change" then RuleSet.can_change r
  else if String.eqb action "delete" then RuleSet.can_delete r
  else false.

Definition groups_of (user_pk : Z) (w : World) : list Z :=
  map snd (List.filter (fun m => fst m =? user_pk) (memberships w)).

(** Modelled from the spec: the RuleSet evaluator of [users.models] and
    [InvenTree.permissions], not among the sources.  "Superusers: every
    category maps to all-true.  Non-superusers: for each category, the
    flag is true iff any group the user belongs to has a RuleSet for that
    category with that flag true.  Categories with no matching RuleSet in
    any of the user's groups default to all-false." *)
Definition check_user_role (u : User.t) (category action : string) (w : World) : bool :=
  User.is_superuser u
  || existsb (fun r => existsb (Z.eqb (RuleSet.group r)) (groups_of (User.pk u) w)
                       && String.eqb (RuleSet.name r) category
                       && flag action r)
             (rule_sets w).

(** Modelled from the spec: the permission classes of
    [InvenTree.permissions], not among the sources.  "Unauthenticated
    actor: denied for every action."  "An authenticated, non-superuser,
    non-staff actor may always perform view if the resource's gate policy
    is staff-or-read-only; write actions require staff and the RuleSet
    Evaluator granting the action for that category and the RuleSet
    Evaluator's admin bucket."  "Superuser-only gate: granted only to
    superusers, never derivable from RuleSets."  A view without a
    permission model has no category to check. *)
Definition has_permission (p : permission_class) (request : Request)
    (view : view_class) (w : World) : bool :=
  match user request with
  | AnonymousUser => false
  | Authenticated u =>
      match p with
      | IsAuthenticatedOrReadScope => true
      | IsSuperuserOrSuperScope => User.is_superuser u
      | IsStaffOrReadOnlyScope => is_safe (method request) || User.is_staff u
      | StaffRolePermissionOrReadOnly =>
          is_safe (method request)
          || (User.is_staff u
              && match get_permission_model view with
                 | None => true
                 | Some category =>
                     let action := action_of view (method request) in
                     check_user_role u category action w
                     && check_user_role u "admin" action w
                 end)
      end
  end.

(** [APIView.check_permissions]: the first class that refuses raises,
    [NotAuthenticated] for an anonymous request. *)
Definition check_permissions (view : view_class) (request : Request) : M unit :=
  fun w =>
    if forallb (fun p => has_permission p request view w) (permission_classes view)
    then Ok (tt, w)
    else if is_authenticated (user request) then Raise PermissionDenied
         else Raise NotAuthenticated.

End Permissions.

Module UserDetail.
(** [UserDetail]: the model of its queryset, [User], is in the admin
    category. *)
Definition view : Permissions.view_class :=
  {| Permissions.permission_classes := [Permissions.StaffRolePermissionOrReadOnly];
     Permissions.rolemap := ∅;
     Permissions.get_permission_model := Some "admin" |}.
End UserDetail.

Module MeUserDetail.
(** [MeUserDetail]: [permission_classes], [rolemap] and
    [get_permission_model] as the class sets them. *)
Definition view : Permissions.view_class :=
  {| Permissions.permission_classes := [Permissions.IsAuthenticatedOrReadScope];
     Permissions.rolemap :=
       <["POST" := "view"]> (<["PUT" := "view"]> (<["PATCH" := "view"]> ∅));
     Permissions.get_permission_model := None |}.

(** [MeUserDetail.get_object] *)
Definition get_object (request : Request) : actor := user request.

(** A PUT or PATCH on [api-user-me]: the permission check, then the
    object the update is applied to. *)
Definition update (request : Request) : M actor :=
  let* _ := Permissions.check_permissions view request in
  ret (get_object request).
End MeUserDetail.

(** ** The owner search, in the words of the code and of the specification *)

(** [sub] occurs in [s]. *)
Definition substring (sub s : string) : Prop :=
  ∃ pre post, s = pre +:+ sub +:+ post.

(** The non-empty pieces of [s] between white space, [s.split()] on ASCII
    text. *)
Definition words (s : string) : list string :=
  List.filter (fun t => negb (String.eqb t "")) (Py.split_by Py.is_space s).

(** No character of [s] is ASCII white space. *)
Fixpoint spaceless (s : string) : bool :=
  match s with
  | EmptyString => true
  | String c s' => negb (Py.is_space c) && spaceless s'
  end.

(** The only ASCII white space in [s] is the space character. *)
Fixpoint plainly_spaced (s : string) : bool :=
  match s with
  | EmptyString => true
  | String c s' => (negb (Py.is_space c) || Ascii.eqb c " ") && plainly_spaced s'
  end.

(** The user behind a user-typed owner has the wanted [is_active]. *)
Definition active_matches (is_active : option bool) (w : World) (o : Owner.t) : Prop :=
  ∀ b, is_active = Some b → Owner.owner_type_name o = "user" →
       ∃ u, u ∈ users w ∧ User.pk u = Owner.owner_id o ∧ User.is_active u = b.

Section Search.
Context `{!Models}.

(** The pieces of the lowered and trimmed query between single spaces. *)
Definition entries (query : string) : list string :=
  Py.split " " (Py.strip (Py.lower query)).

(** What [filter_queryset] keeps. *)
Definition keeps (query : string) (is_active : option bool) (w : World)
    (o : Owner.t) : Prop :=
  (∀ entry, entry ∈ entries query →
            substring entry (Py.strip (Py.lower (owner_name o))))
  ∧ active_matches is_active w o.

(** What the specification says it keeps: "tokenize the query on
    whitespace, keep an owner iff every token is a case-insensitive
    substring of its resolved name". *)
Definition spec_keeps (query : string) (is_active : option bool) (w : World)
    (o : Owner.t) : Prop :=
  (∀ token, token ∈ words query →
            substring (Py.lower token) (Py.lower (owner_name o)))
  ∧ active_matches is_active w o.
End Search.

(** ** Invariants of the token table and laws of the collaborators *)

(** Primary keys are unique and below the next one to be given out. *)
Definition pk_unique (w : World) : Prop := NoDup (map ApiToken.id (tokens w)).

Definition pk_bounded (w : World) : Prop :=
  ∀ tk, tk ∈ tokens w → ApiToken.id tk < next_id w.

(** Both invariants of the primary key. *)
Definition well_keyed (w : World) : Prop := pk_unique w ∧ pk_bounded w.

(** No two rows share a key. *)
Definition keys_unique (w : World) : Prop := NoDup (map ApiToken.key (tokens w)).

Section Laws.
Context `{!Models}.

(** The generator gives no key twice. *)
Definition generator_fresh : Prop :=
  ∀ n m : nat, default_token n = default_token m → n = m.

(** The table holds none of the keys the generator is still to give. *)
Definition keys_never_drawn (w : World) : Prop :=
  ∀ tk (n : nat), tk ∈ tokens w → (rng w ≤ n)%nat → ApiToken.key tk ≠ default_token n.

(** The invariants of the token table together. *)
Definition sound (w : World) : Prop :=
  well_keyed w ∧ keys_unique w ∧ keys_never_drawn w.

(** [set_metadata] succeeds, changes the metadata mapping of the
    instance and nothing else, and saves the instance. *)
Definition metadata_only : Prop :=
  ∀ k v tk w, ∃ m,
    set_metadata k v tk w
    = Ok (ApiToken.with_metadata m tk,
          set_tokens (save (ApiToken.with_metadata m tk)) w).

(** Every authenticated issue request is answered, whatever
    [set_metadata] does. *)
Definition swallows_metadata_failure : Prop :=
  ∀ request u w, user request = Authenticated u →
                 ∃ data w', GetAuthToken.get request w = Ok (data, w').
End Laws.

Section SerializerLaws.
Context `{!Models} `{!Serializers}.



End SerializerLaws.

Section Runs.
Context `{!Models} `{!Serializers}.

(** [reaches w w']: token requests that were answered lead from [w] to
    [w'], each arriving on a day of its own. *)
Inductive reaches : World -> World -> Prop :=
| reaches_here (w : World) : reaches w w
| reaches_request (w : World) (op : operation) (request : Request) (day : Z)
    (records : list Py.dict) (w1 w2 : World) :
    respond op request (set_today day w) = Ok (records, w1) →
    reaches w1 w2 →
    reaches w w2.
End Runs.

(** ** Instances for running the views *)

(** Modelled from the spec: [MetadataMixin.set_metadata] of
    [InvenTree/models.py], not among the sources.  "Record/merge the
    supplied metadata into the token's metadata mapping: new values
    overwrite by key, untouched keys persist." *)
Definition merge_metadata (k v : string) (tk : ApiToken.t) : M ApiToken.t :=
  let tk' := ApiToken.with_metadata (<[k := v]> (ApiToken.metadata tk)) tk in
  let* _ := modify (set_tokens (save tk')) in
  ret tk'.

(** Collaborators good enough to run the views: names are trimmed and the
    empty name becomes a default one, the n-th key is a letter followed by
    n marks, tokens last a year, and [str2bool] knows the usual words. *)
Definition run_models (names : Owner.t -> string) : Models :=
  {| sanitize_name := fun s => match Py.ascii_strip s with
                               | EmptyString => "token"
                               | s' => s'
                               end;
     default_token := fun n => String "k" (string_of_list_ascii (repeat "*"%char n));
     default_token_expiry := fun d => d + 365;
     set_metadata := merge_metadata;
     owner_name := names;
     str2bool := fun s => existsb (String.eqb (Py.ascii_lower s))
                                  ["1"; "y"; "yes"; "t"; "true"; "ok"; "on"];
     py_str := Py.ascii_str |}.

(** The same, on a database that refuses to save metadata. *)
Definition failing_models (names : Owner.t -> string) : Models :=
  {| sanitize_name := @sanitize_name (run_models names);
     default_token := @default_token (run_models names);
     default_token_expiry := @default_token_expiry (run_models names);
     set_metadata := fun _ _ _ => raise DatabaseError;
     owner_name := names;
     str2bool := @str2bool (run_models names);
     py_str := Py.ascii_str |}.

(** Filter backends to run the token list with, after the search filter
    of the REST framework and the field filters of django-filter:
    [?search=] keeps the rows that have every word of the term in their
    name or their key, whatever the case; [?revoked=] keeps the rows with
    that flag; [?user=] keeps the rows of that user and refuses what is
    no number.  The order of the rows is left as it is: [?ordering=] is
    not among the requests run here. *)
Definition search_filter (term : string) (queryset : list ApiToken.t)
    : list ApiToken.t :=
  List.filter
    (fun tk =>
       forallb (fun word =>
                  Py.contains word (Py.ascii_lower (ApiToken.name tk))
                  || Py.contains word (Py.ascii_lower (ApiToken.key tk)))
               (words (Py.ascii_lower term)))
    queryset.

Definition revoked_filter (value : string) (queryset : list ApiToken.t)
    : list ApiToken.t :=
  let value := Py.ascii_lower value in
  if String.eqb value "true" || String.eqb value "1"
  then List.filter ApiToken.revoked queryset
  else if String.eqb value "false" || String.eqb value "0"
       then List.filter (fun tk => negb (ApiToken.revoked tk)) queryset
       else queryset.

Definition user_filter (value : string) (queryset : list ApiToken.t)
    : result (list ApiToken.t) :=
  match value, NilEmpty.uint_of_string value with
  | EmptyString, _ => Ok queryset
  | _, Some d =>
      Ok (List.filter (fun tk => ApiToken.user tk =? Z.of_N (N.of_uint d)) queryset)
  | _, None => Raise ValidationError
  end.

Definition token_filters (request : Request) (queryset : list ApiToken.t)
    : result (list ApiToken.t) :=
  let queryset := revoked_filter (Py.get_str (query_params request) "revoked" "") queryset in
  match user_filter (Py.get_str (query_params request) "user" "") queryset with
  | Ok queryset =>
      Ok (search_filter (Py.get_str (query_params request) "search" "") queryset)
  | Raise e => Raise e
  end.

(** Modelled from the spec: [ApiTokenSerializer] of
    [users/serializers.py], not among the sources.  "list_tokens(actor,
    all_users?) -> [{id, name, created, expiry, revoked, user}] (no key
    field)."  A new token belongs to the requesting user. *)
Definition spec_serializers : Serializers :=
  {| ApiTokenSerializer := fun tk =>
       [("id", Py.PyInt (ApiToken.id tk));
        ("name", Py.PyStr (ApiToken.name tk));
        ("created", Py.PyDate (ApiToken.created tk));
        ("expiry", Py.PyDate (ApiToken.expiry tk));
        ("revoked", Py.PyBool (ApiToken.revoked tk));
        ("user", Py.PyInt (ApiToken.user tk))];
     validated_data := fun request =>
       match user request with
       | Authenticated u => Ok (User.pk u, Py.get_str (data request) "name" "")
       | AnonymousUser => Raise NotAuthenticated
       end;
     filter_backends := token_filters |}.

(** Sample data. *)
Definition alice : User.t :=
  {| User.pk := 1; User.username := "alice"; User.is_staff := false;
     User.is_superuser := false; User.is_active := true |}.

Definition root : User.t :=
  {| User.pk := 2; User.username := "root"; User.is_staff := true;
     User.is_superuser := true; User.is_active := true |}.

Definition ci_token : ApiToken.t :=
  {| ApiToken.id := 1; ApiToken.user := 1; ApiToken.name := "ci";
     ApiToken.key := "secret-of-alice"; ApiToken.created := 100;
     ApiToken.expiry := 465; ApiToken.revoked := false;
     ApiToken.metadata := ∅ |}.

Definition old_token : ApiToken.t :=
  {| ApiToken.id := 2; ApiToken.user := 1; ApiToken.name := "old";
     ApiToken.key := "secret-of-old"; ApiToken.created := 1;
     ApiToken.expiry := 50; ApiToken.revoked := false;
     ApiToken.metadata := ∅ |}.

Definition team : Owner.t :=
  {| Owner.pk := 1; Owner.owner_type_name := "group"; Owner.owner_id := 7 |}.

Definition team_names (o : Owner.t) : string := "a b".

Definition world0 : World :=
  {| users := [alice; root]; owners := [team]; tokens := [ci_token; old_token];
     rule_sets := []; memberships := []; today := 200; next_id := 3;
     rng := 0; session_user := None |}.

Definition request_of (a : actor) (m : string) (q : list (string * string)) : Request :=
  {| user := a; method := m; query_params := list_to_map q; headers := ∅;
     META := ∅; data := ∅; kwargs_pk := 1 |}.

(** Alice asks for her token "ci", and for her token "old". *)
Definition ci_request : Request :=
  request_of (Authenticated alice) "GET" [("name", " ci ")].

Definition old_request : Request :=
  request_of (Authenticated alice) "GET" [("name", "old")].

(** Alice edits her own record; root lists with [all_users=false]. *)
Definition patch_request : Request :=
  request_of (Authenticated alice) "PATCH" [].

Definition all_users_request : Request :=
  request_of (Authenticated root) "GET" [("all_users", "false")].

(** Alice posts a new token "deploy" to the token list. *)
Definition post_request : Request :=
  {| user := Authenticated alice; method := "POST"; query_params := ∅;
     headers := ∅; META := ∅; data := {[ "name" := "deploy" ]}; kwargs_pk := 0 |}.

(** A search for "A", two spaces, "b". *)
Definition spaces_request : Request :=
  request_of (Authenticated alice) "GET" [("search", "A  b")].

(** A search for "a", a tab, "b". *)
Definition tab_query : string := "a" +:+ String "009"%char "b".

Definition tab_request : Request :=
  request_of (Authenticated alice) "GET" [("search", tab_query)].

(** ** Further definitions for the token views *)

(** The [data] that [GetAuthToken.get] answers with for a token. *)
Definition issued (tk : ApiToken.t) : Py.dict :=
  [("token", Py.PyStr (ApiToken.key tk));
   ("name", Py.PyStr (ApiToken.name tk));
   ("expiry", Py.PyDate (ApiToken.expiry tk))].

(** Two rows that differ in their metadata at most. *)
Definition same_but_metadata (r r' : ApiToken.t) : Prop :=
  r' = ApiToken.with_metadata (ApiToken.metadata r') r.

(** Two rows that agree on everything a request must not change: primary
    key, user, name, key, creation date and expiry. *)
Definition same_identity (r r' : ApiToken.t) : Prop :=
  ApiToken.id r' = ApiToken.id r
  ∧ ApiToken.user r' = ApiToken.user r
  ∧ ApiToken.name r' = ApiToken.name r
  ∧ ApiToken.key r' = ApiToken.key r
  ∧ ApiToken.created r' = ApiToken.created r
  ∧ ApiToken.expiry r' = ApiToken.expiry r.

(** A requester sees a token through [get_queryset] when it is their own,
    or when they are a superuser asking for [all_users]. *)
Definition visible (request : Request) (tk : ApiToken.t) : Prop :=
  ∃ u, user request = Authenticated u
       ∧ (ApiToken.user tk = User.pk u
          ∨ (User.is_superuser u = true
             ∧ Py.truthy (Py.get (query_params request) "all_users" (Py.PyBool false))
               = true)).

Section SerializerShape.
Context `{!Serializers}.

(** The representation of a row shows its primary key under "id". *)
Definition shows_id : Prop :=
  ∀ tk, Py.dict_get (ApiTokenSerializer tk) "id" = Some (Py.PyInt (ApiToken.id tk)).
End SerializerShape.

(** ** [UserDetailSetPassword] *)

Module UserDetailSetPassword.

(** [serializer.validated_data]: the two fields the view reads, [None]
    where the body had none. *)
Record validated_data : Type := {
  password : option string;
  override_warning : option bool
}.

(** What the view leaves behind: the password hash stored for each user,
    and the calls of [password_changed], oldest first, whoever made
    them. *)
Record Credentials : Type := {
  hashes : gmap Z string;
  notified : list (Z * string)
}.

(** The view ends normally, or in the [ValidationError] of the REST
    framework with its detail. *)
Inductive outcome : Type :=
| Updated (c : Credentials)
| ValidationError (detail : Py.dict).

(** [UserDetailSetPassword.get_object]: [get_queryset().get(pk=...)] on the
    user table. *)
Definition get_object (request : Request) : M User.t :=
  fun w =>
    match List.filter (fun u => User.pk u =? kwargs_pk request) (users w) with
    | [] => Raise DoesNotExist
    | [u] => Ok (u, w)
    | _ => Raise MultipleObjectsReturned
    end.

Section View.
(** Django's [validate_password], as the text of the [ValidationError] it
    raises if it raises one, and the hash [set_password] stores for a
    password. *)
Variable validate_password : string -> User.t -> option string.
Variable make_password : string -> string.

(** [user.set_password(raw)]: the object in the hands of the view takes
    the hash and keeps the raw password in [_password]; nothing is stored
    yet. *)
Definition set_password (raw : string) : string * option string :=
  (make_password raw, Some raw).

(** [password_changed(password, user)] *)
Definition password_changed (password : string) (user : User.t)
    (c : Credentials) : Credentials :=
  {| hashes := hashes c; notified := notified c ++ [(User.pk user, password)] |}.

(** [user.save()] of [AbstractBaseUser]: the hash of the object is
    stored, and [password_changed] is called for the raw password that
    [set_password] left in [_password]. *)
Definition user_save (user : User.t) (hash : string) (_password : option string)
    (c : Credentials) : Credentials :=
  let c := {| hashes := <[User.pk user := hash]> (hashes c);
              notified := notified c |} in
  match _password with
  | Some raw => password_changed raw user c
  | None => c
  end.

(** [UserDetailSetPassword.perform_update] *)
Definition perform_update (data : validated_data) (user : User.t)
    (c : Credentials) : outcome :=
  let password := password data in
  let overwrite := default false (override_warning data) in
  match password with
  | Some pw =>
      if Py.truthy (Py.PyStr pw) then
        match (if negb overwrite then validate_password pw user else None) with
        | Some e => ValidationError [("password", Py.PyStr e)]
        | None =>
            let (hash, _password) := set_password pw in
            let c := password_changed pw user c in
            Updated (user_save user hash _password c)
        end
      else Updated c
  | None => Updated c
  end.
End View.
End UserDetailSetPassword.

(** ** [user_urls] *)

(** The routing table of the module, with [path], [include], [resolve]
    and [reverse] of [django.urls] as far as the table uses them: a route
    is literal text or ['<int:pk>/'], whose converter takes [[0-9]+] and
    reads it with [int]; a [path] has to use the URL up, an [include]
    matches a beginning and hands the rest on; the first pattern that
    matches wins.  URLs are relative to where the table is included. *)

Module Urls.

(** The views the table routes to. *)
Inductive view : Type :=
| RoleDetails
| GetAuthToken
| TokenDetailView
| TokenListView
| MeUserDetail
| UserProfileDetail
| OwnerDetail
| OwnerList
| GroupDetail
| GroupList
| RuleSetDetail
| RuleSetList
| UserDetailSetPassword
| UserDetail
| UserList.

(** A route of the table: literal text, or ['<int:pk>/']. *)
Inductive route : Type :=
| Literal (s : string)
| IntPk.

(** [path(route, view, name=...)] and [path(route, include([...]))]. *)
#[warnings="-register-all"]
Inductive urlpattern : Type :=
| path (r : route) (v : view) (name : string)
| path_include (r : route) (patterns : list urlpattern).

(** [user_urls] *)
Definition user_urls : list urlpattern :=
  [ path (Literal "roles/") RoleDetails "api-user-roles";
    path (Literal "token/") GetAuthToken "api-token";
    path_include (Literal "tokens/")
      [ path IntPk TokenDetailView "api-token-detail";
        path (Literal "") TokenListView "api-token-list" ];
    path (Literal "me/") MeUserDetail "api-user-me";
    path (Literal "profile/") UserProfileDetail "api-user-profile";
    path_include (Literal "owner/")
      [ path IntPk OwnerDetail "api-owner-detail";
        path (Literal "") OwnerList "api-owner-list" ];
    path_include (Literal "group/")
      [ path IntPk GroupDetail "api-group-detail";
        path (Literal "") GroupList "api-group-list" ];
    path_include (Literal "ruleset/")
      [ path IntPk RuleSetDetail "api-ruleset-detail";
        path (Literal "") RuleSetList "api-ruleset-list" ];
    path_include IntPk
      [ path (Literal "set-password/") UserDetailSetPassword "api-user-set-password";
        path (Literal "") UserDetail "api-user-detail" ];
    path (Literal "") UserList "api-user-list" ].

(** What a URL resolves to: the view, the name of the route and the [pk]
    among the keyword arguments, if the route has one. *)
Record ResolverMatch : Type := {
  func : view;
  url_name : string;
  kwargs_pk : option N
}.

(** [c] is one of the digits 0 to 9. *)
Definition is_digit (c : ascii) : bool :=
  let n := nat_of_ascii c in ((48 <=? n) && (n <=? 57))%nat.

Fixpoint all_digits (s : string) : bool :=
  match s with
  | EmptyString => true
  | String c s' => is_digit c && all_digits s'
  end.

(** The longest run of digits [s] starts with, and what follows it: what
    the pattern [[0-9]+] of the [int] converter takes when a ["/"] has to
    come next. *)
Fixpoint span_digits (s : string) : string * string :=
  match s with
  | EmptyString => (EmptyString, EmptyString)
  | String c s' =>
      if is_digit c
      then let (ds, rest) := span_digits s' in (String c ds, rest)
      else (EmptyString, s)
  end.

(** [int(text)] of the converter, and [str(n)]. *)
Definition int (text : string) : option N :=
  N.of_uint <$> NilEmpty.uint_of_string text.

Definition str (n : N) : string := NilEmpty.string_of_uint (N.to_uint n).

(** [s] without the text [p] it starts with. *)
Fixpoint drop_prefix (p s : string) : option string :=
  match p with
  | EmptyString => Some s
  | String a p' =>
      match s with
      | EmptyString => None
      | String b s' => if Ascii.eqb a b then drop_prefix p' s' else None
      end
  end.

(** A route against the start of a URL: what is left of the URL, and the
    [pk] the route converted. *)
Definition match_route (r : route) (url : string) : option (string * option N) :=
  match r with
  | Literal s =>
      match drop_prefix s url with
      | Some rest => Some (rest, None)
      | None => None
      end
  | IntPk =>
      let (ds, rest) := span_digits url in
      if String.eqb ds "" then None
      else match drop_prefix "/" rest, int ds with
           | Some rest', Some n => Some (rest', Some n)
           | _, _ => None
           end
  end.

(** The keyword arguments of an included pattern add to those of the
    including one. *)
Definition merge (outer inner : option N) : option N :=
  match inner with
  | Some n => Some n
  | None => outer
  end.

(** A pattern against a URL: a [path] has to use the URL up, an [include]
    hands what is left to its patterns, the first that matches winning. *)
Fixpoint resolve_pattern (p : urlpattern) (url : string) (pk : option N)
    : option ResolverMatch :=
  match p with
  | path r v name =>
      match match_route r url with
      | Some (rest, pk') =>
          if String.eqb rest ""
          then Some {| func := v; url_name := name; kwargs_pk := merge pk pk' |}
          else None
      | None => None
      end
  | path_include r patterns =>
      match match_route r url with
      | Some (rest, pk') =>
          (fix first (l : list urlpattern) : option ResolverMatch :=
             match l with
             | [] => None
             | q :: l' =>
                 match resolve_pattern q rest (merge pk pk') with
                 | Some m => Some m
                 | None => first l'
                 end
             end) patterns
      | None => None
      end
  end.

Fixpoint resolve_first (l : list urlpattern) (url : string) (pk : option N)
    : option ResolverMatch :=
  match l with
  | [] => None
  | q :: l' =>
      match resolve_pattern q url pk with
      | Some m => Some m
      | None => resolve_first l' url pk
      end
  end.

(** [resolve(url)] against [user_urls]. *)
Definition resolve (url : string) : option ResolverMatch :=
  resolve_first user_urls url None.

(** The text of a route, with [arg] for the converter; whether [arg] was
    used. *)
Definition fill (r : route) (arg : option string) : option (string * bool) :=
  match r with
  | Literal s => Some (s, false)
  | IntPk =>
      match arg with
      | Some text => Some (text +:+ "/", true)
      | None => None
      end
  end.

(** The URL of the route called [name] under a pattern, with the text
    [arg] for its [pk]. *)
Fixpoint reverse_pattern (p : urlpattern) (name : string) (arg : option string)
    : option (string * bool) :=
  match p with
  | path r v n => if String.eqb n name then fill r arg else None
  | path_include r patterns =>
      match fill r arg with
      | Some (prefix, used) =>
          match (fix first (l : list urlpattern) : option (string * bool) :=
                   match l with
                   | [] => None
                   | q :: l' =>
                       match reverse_pattern q name arg with
                       | Some x => Some x
                       | None => first l'
                       end
                   end) patterns with
          | Some (s, used') => Some (prefix +:+ s, used || used')
          | None => None
          end
      | None => None
      end
  end.

Fixpoint reverse_first (l : list urlpattern) (name : string) (arg : option string)
    : option (string * bool) :=
  match l with
  | [] => None
  | q :: l' =>
      match reverse_pattern q name arg with
      | Some x => Some x
      | None => reverse_first l' name arg
      end
  end.

(** The URL of the route called [name] with the text [arg] for its [pk]:
    there is one when the route takes a [pk] and one is given, or takes
    none and none is given. *)
Definition reverse_text (name : string) (arg : option string) : option string :=
  match reverse_first user_urls name arg with
  | Some (url, used) => if Bool.eqb used (bool_decide (is_Some arg)) then Some url else None
  | None => None
  end.

(** [reverse(name, kwargs={'pk': pk})] and [reverse(name)]. *)
Definition reverse (name : string) (pk : option N) : option string :=
  reverse_text name (str <$> pk).

End Urls.

(** ** More sample data *)

(** Root asks for the token under primary key 1, without [all_users]. *)
Definition root_request : Request :=
  request_of (Authenticated root) "GET" [].

(** Alice lists her tokens with "Alice" in the name or the key, and her
    tokens that are not revoked. *)
Definition search_request : Request :=
  request_of (Authenticated alice) "GET" [("search", "Alice")].

Definition unrevoked_request : Request :=
  request_of (Authenticated alice) "GET" [("revoked", "false")].

(** Nobody is logged in. *)
Definition anonymous_request : Request :=
  request_of AnonymousUser "GET" [("name", "ci")].

(** Searches for white space only, and for "a", two spaces, "B" with
    white space around. *)
Definition blank_request : Request :=
  request_of (Authenticated alice) "GET" [("search", "   ")].

Definition padded_request : Request :=
  request_of (Authenticated alice) "GET" [("search", " a  B ")].

(** A validator that wants eight characters, and a hash that can be told
    from its password. *)
Definition min_length_validator (password : string) (user : User.t) : option string :=
  if (String.length password <? 8)%nat
  then Some "This password is too short."
  else None.

Definition tagged_hash (password : string) : string := "hash$" +:+ password.

(** A short password, sent plainly and with [override_warning]. *)
Definition short_password : UserDetailSetPassword.validated_data :=
  {| UserDetailSetPassword.password := Some "abc";
     UserDetailSetPassword.override_warning := None |}.

Definition forced_password : UserDetailSetPassword.validated_data :=
  {| UserDetailSetPassword.password := Some "abc";
     UserDetailSetPassword.override_warning := Some true |}.

Definition no_credentials : UserDetailSetPassword.Credentials :=
  {| UserDetailSetPassword.hashes := ∅; UserDetailSetPassword.notified := [] |}.

(** * Proofs *)

Example split_two : Py.split " " "a b" = ["a"; "b"].
Proof. reflexivity. Qed.
Example split_dbl : Py.split " " "a  b " = ["a"; ""; "b"; ""].
Proof. reflexivity. Qed.
Example strip_ex : Py.ascii_strip "  a b  " = "a b".
Proof. reflexivity. Qed.
Example contains_ex : Py.contains "hn" "john" = true /\ Py.contains "" "" = true /\ Py.contains "x" "john" = false.
Proof. repeat split; reflexivity. Qed.
Example lower_ex : Py.ascii_lower "John Hopkins" = "john hopkins".
Proof. reflexivity. Qed.


(** ** Lists and text *)

Lemma elem_of_filterb {A} (f : A -> bool) (l : list A) (x : A) :
  x ∈ List.filter f l ↔ x ∈ l ∧ f x = true.
Proof. rewrite !list_elem_of_In. apply filter_In. Qed.

Lemma elem_of_map {A B} (f : A -> B) (l : list A) (y : B) :
  y ∈ map f l ↔ ∃ x, f x = y ∧ x ∈ l.
Proof.
  rewrite list_elem_of_In, in_map_iff.
  split; intros (x & ? & ?); exists x; split; auto; by apply list_elem_of_In.
Qed.

Lemma lookup_map {A B} (f : A -> B) (l : list A) (i : nat) :
  map f l !! i = f <$> (l !! i).
Proof.
  revert i. induction l as [|x l IH]; intros [|i]; simpl; done.
Qed.

Lemma existsb_Zeqb (x : Z) (l : list Z) :
  existsb (Z.eqb x) l = true ↔ x ∈ l.
Proof.
  rewrite existsb_exists, list_elem_of_In. split.
  - intros (y & ? & ->%Z.eqb_eq). done.
  - intros ?. exists x. split; [done | apply Z.eqb_refl].
Qed.

Lemma append_nil (s : string) : "" +:+ s = s.
Proof. reflexivity. Qed.

Lemma append_cons (c : ascii) (s t : string) :
  String c s +:+ t = String c (s +:+ t).
Proof. reflexivity. Qed.

Lemma prefix_app (p s : string) :
  String.prefix p s = true ↔ ∃ post, s = p +:+ post.
Proof.
  revert s. induction p as [|a p IH]; intros s.
  - split; [intros _; by exists s | intros _; by destruct s].
  - destruct s as [|b s]; simpl.
    + split; [done | intros [post ?]; discriminate].
    + destruct (ascii_dec a b) as [->|Hne].
      * rewrite IH. split; intros [post Hp]; exists post;
          rewrite append_cons in *; congruence.
      * split; [done | intros [post Hp]; rewrite append_cons in Hp; congruence].
Qed.

Lemma contains_nil (sub : string) :
  Py.contains sub "" = String.prefix sub "".
Proof. simpl. apply orb_false_r. Qed.

Lemma contains_cons (sub : string) (c : ascii) (s : string) :
  Py.contains sub (String c s)
  = String.prefix sub (String c s) || Py.contains sub s.
Proof. reflexivity. Qed.

Lemma contains_substring (sub s : string) :
  Py.contains sub s = true ↔ substring sub s.
Proof.
  split.
  - induction s as [|c s IH].
    + rewrite contains_nil. intros [post ->]%prefix_app. by exists "", post.
    + rewrite contains_cons, orb_true_iff.
      intros [[post ->]%prefix_app | (pre & post & ->)%IH].
      * by exists "", post.
      * by exists (String c pre), post.
  - intros (pre & post & ->). induction pre as [|c pre IH].
    + rewrite append_nil.
      assert (String.prefix sub (sub +:+ post) = true) as Hp
        by (apply prefix_app; by exists post).
      destruct (sub +:+ post).
      * by rewrite contains_nil.
      * by rewrite contains_cons, Hp.
    + rewrite append_cons, contains_cons, IH. apply orb_true_r.
Qed.

(** ** White space *)

Lemma is_space_lower (c : ascii) : Py.is_space (Py.lower_char c) = Py.is_space c.
Proof. by destruct c as [[] [] [] [] [] [] [] []]. Qed.

Lemma split_by_cons (p : ascii -> bool) (s : string) :
  ∃ w ws, Py.split_by p s = w :: ws.
Proof.
  destruct s as [|c s]; simpl; [by eexists _, _ |].
  destruct (p c); [by eexists _, _ |].
  destruct (Py.split_by p s); by eexists _, _.
Qed.

Lemma split_by_lower (s : string) :
  Py.split_by Py.is_space (Py.ascii_lower s) = map Py.ascii_lower (Py.split_by Py.is_space s).
Proof.
  induction s as [|c s IH]; simpl; [done |].
  rewrite is_space_lower, IH.
  destruct (Py.is_space c); [done |].
  by destruct (Py.split_by Py.is_space s).
Qed.

Lemma lower_empty (s : string) : String.eqb (Py.ascii_lower s) "" = String.eqb s "".
Proof. by destruct s. Qed.

Lemma words_lower (s : string) : words (Py.ascii_lower s) = map Py.ascii_lower (words s).
Proof.
  unfold words. rewrite split_by_lower.
  induction (Py.split_by Py.is_space s) as [|t l IH]; simpl; [done |].
  rewrite lower_empty. destruct (String.eqb t ""); simpl; by rewrite IH.
Qed.

Lemma split_plainly_spaced (s : string) :
  plainly_spaced s = true → Py.split " " s = Py.split_by Py.is_space s.
Proof.
  unfold Py.split. induction s as [|c s IH]; [done |].
  cbn [Py.split_by plainly_spaced].
  intros [Hc Hs]%andb_prop. rewrite (IH Hs).
  assert (Ascii.eqb " " c = Py.is_space c) as ->; [| done].
  destruct (Ascii.eqb_spec c " ") as [->|Hne].
  - reflexivity.
  - rewrite orb_false_r in Hc. apply negb_true_iff in Hc as ->.
    apply Ascii.eqb_neq. congruence.
Qed.

Lemma plainly_spaced_lower (s : string) :
  plainly_spaced s = true → plainly_spaced (Py.ascii_lower s) = true.
Proof.
  induction s as [|c s IH]; simpl; [done |].
  intros [Hc Hs]%andb_prop. rewrite (IH Hs), andb_true_r, is_space_lower.
  destruct (Ascii.eqb_spec c " ") as [->|Hne]; [done |].
  rewrite orb_false_r in Hc. by rewrite Hc.
Qed.

Lemma plainly_spaced_lstrip (s : string) :
  plainly_spaced s = true → plainly_spaced (Py.lstrip s) = true.
Proof.
  induction s as [|c s IH]; simpl; [done |].
  intros [Hc Hs]%andb_prop.
  destruct (Py.is_space c) eqn:E; [by apply IH |].
  simpl. by rewrite E, Hs.
Qed.

Lemma plainly_spaced_rstrip (s : string) :
  plainly_spaced s = true → plainly_spaced (Py.rstrip s) = true.
Proof.
  induction s as [|c s IH]; simpl; [done |].
  intros [Hc Hs]%andb_prop. specialize (IH Hs).
  destruct (Py.rstrip s) as [|b r].
  - destruct (Py.is_space c) eqn:E; [done |]. simpl. by rewrite E.
  - change (plainly_spaced (String c (String b r)) = true).
    cbn [plainly_spaced] in *. by rewrite Hc, IH.
Qed.

Lemma words_lstrip (s : string) : words (Py.lstrip s) = words s.
Proof.
  unfold words. induction s as [|c s IH]; [done |]. cbn [Py.lstrip].
  destruct (Py.is_space c) eqn:E; [| done].
  cbn [Py.split_by]. rewrite E. simpl. exact IH.
Qed.

Lemma split_by_rstrip (s : string) :
  ∃ k, Py.split_by Py.is_space s
       = (Py.split_by Py.is_space (Py.rstrip s) ++ repeat "" k)%list.
Proof.
  induction s as [|c s [k IH]]; [by exists 0%nat |].
  cbn [Py.rstrip Py.split_by].
  destruct (Py.rstrip s) as [|b r] eqn:Er.
  - destruct (Py.is_space c) eqn:E.
    + exists (S k). rewrite IH. reflexivity.
    + exists k. rewrite IH. cbn [Py.split_by app]. rewrite E. reflexivity.
  - exists k. remember (String b r) as q eqn:Eq. cbn [Py.split_by]. rewrite IH.
    destruct (Py.is_space c); [done |].
    destruct (split_by_cons Py.is_space q) as (w0 & ws & ->). done.
Qed.

Lemma words_rstrip (s : string) : words (Py.rstrip s) = words s.
Proof.
  unfold words. destruct (split_by_rstrip s) as [k ->].
  rewrite List.filter_app.
  assert (List.filter (fun t => negb (String.eqb t "")) (repeat "" k) = []) as ->
    by (induction k; done).
  by rewrite app_nil_r.
Qed.

Lemma words_strip (s : string) : words (Py.ascii_strip s) = words s.
Proof. unfold Py.ascii_strip. by rewrite words_rstrip, words_lstrip. Qed.

Lemma split_by_spaceless (s t : string) :
  t ∈ Py.split_by Py.is_space s → spaceless t = true.
Proof.
  revert t. induction s as [|c s IH]; intros t; simpl.
  - by intros ->%list_elem_of_singleton.
  - destruct (Py.is_space c) eqn:E.
    + intros [->|?]%elem_of_cons; [done | by apply IH].
    + destruct (Py.split_by Py.is_space s) as [|w0 ws].
      * intros ->%list_elem_of_singleton. simpl. by rewrite E.
      * intros [->|?]%elem_of_cons.
        -- simpl. rewrite E. apply IH, list_elem_of_here.
        -- apply IH. by right.
Qed.

Lemma lstrip_suffix (s : string) : ∃ ws, s = ws +:+ Py.lstrip s.
Proof.
  induction s as [|c s [ws IH]]; [by exists "" |]. simpl.
  destruct (Py.is_space c); [| by exists ""].
  exists (String c ws). by rewrite append_cons, <- IH.
Qed.

Lemma rstrip_prefix (s : string) : ∃ ws, s = Py.rstrip s +:+ ws.
Proof.
  induction s as [|c s [ws IH]]; [by exists "" |]. cbn [Py.rstrip].
  destruct (Py.rstrip s) as [|b r].
  - destruct (Py.is_space c).
    + by exists (String c s).
    + exists ws. by rewrite append_cons, <- IH.
  - exists ws. by rewrite append_cons, <- IH.
Qed.

Lemma append_assoc (a b c : string) : (a +:+ b) +:+ c = a +:+ b +:+ c.
Proof. induction a as [|x a IH]; [done |]. by rewrite !append_cons, IH. Qed.

Lemma substring_strip_1 (t s : string) :
  substring t (Py.ascii_strip s) → substring t s.
Proof.
  intros (pre & post & E). unfold Py.ascii_strip in E.
  destruct (lstrip_suffix s) as [ws1 E1].
  destruct (rstrip_prefix (Py.lstrip s)) as [ws2 E2].
  exists (ws1 +:+ pre), (post +:+ ws2).
  rewrite E1 at 1. rewrite E2, E. by rewrite !append_assoc.
Qed.

Lemma substring_lstrip (c : ascii) (t s : string) :
  Py.is_space c = false →
  substring (String c t) s → substring (String c t) (Py.lstrip s).
Proof.
  intros Hc (pre & post & ->). induction pre as [|a pre IH].
  - rewrite append_nil, append_cons. simpl. rewrite Hc. by exists "", post.
  - rewrite append_cons. simpl. destruct (Py.is_space a); [exact IH |].
    by exists (String a pre), post.
Qed.

Lemma rstrip_keeps_prefix (t post : string) :
  t ≠ "" → spaceless t = true →
  ∃ post', Py.rstrip (t +:+ post) = t +:+ post'.
Proof.
  induction t as [|a t IH]; [done |]. intros _ [Ha%negb_true_iff Ht]%andb_prop.
  rewrite append_cons. cbn [Py.rstrip].
  destruct t as [|b t].
  - rewrite append_nil. destruct (Py.rstrip post) as [|b r].
    + rewrite Ha. by exists "".
    + by exists (String b r).
  - destruct (IH ltac:(done) Ht) as [post' ->].
    rewrite append_cons. by exists post'.
Qed.

Lemma substring_rstrip (t s : string) :
  t ≠ "" → spaceless t = true →
  substring t s → substring t (Py.rstrip s).
Proof.
  intros Hne Ht (pre & post & ->). induction pre as [|a pre IH].
  - rewrite append_nil.
    destruct (rstrip_keeps_prefix t post Hne Ht) as [post' ->]. by exists "", post'.
  - rewrite append_cons. cbn [Py.rstrip].
    destruct IH as (pre' & post' & E). rewrite E.
    destruct (pre' +:+ t +:+ post') as [|b r] eqn:E'.
    + exfalso. destruct pre'; [| done]. rewrite append_nil in E'.
      destruct t; [done | by rewrite append_cons in E'].
    + exists (String a pre'), post'. by rewrite append_cons, E'.
Qed.

Lemma substring_strip (t s : string) :
  t ≠ "" → spaceless t = true →
  substring t (Py.ascii_strip s) ↔ substring t s.
Proof.
  intros Hne Ht. split; [apply substring_strip_1 |].
  intros Hs. unfold Py.ascii_strip. apply substring_rstrip; try done.
  destruct t as [|c t]; [done |].
  apply andb_prop in Ht as [Hc%negb_true_iff _]. by apply substring_lstrip.
Qed.

(** On a query whose only white space is the space character, the pieces
    the search looks for are the words of the query. *)
Lemma entries_words (q name : string) :
  plainly_spaced q = true →
  (∀ e, e ∈ Py.split " " (Py.ascii_strip (Py.ascii_lower q)) →
        substring e (Py.ascii_strip name))
  ↔ (∀ t, t ∈ words q → substring (Py.ascii_lower t) name).
Proof.
  intros Hq.
  rewrite split_plainly_spaced
    by (unfold Py.ascii_strip; by apply plainly_spaced_rstrip, plainly_spaced_lstrip,
                               plainly_spaced_lower).
  split.
  - intros H t Ht. apply substring_strip_1, H.
    assert (Py.ascii_lower t ∈ words (Py.ascii_strip (Py.ascii_lower q))) as [? _]%elem_of_filterb; [| done].
    rewrite words_strip, words_lower. apply elem_of_map. by exists t.
  - intros H e He.
    destruct (String.eqb_spec e "") as [->|Hne]; [by exists "", (Py.ascii_strip name) |].
    assert (e ∈ words (Py.ascii_strip (Py.ascii_lower q))) as Hw.
    { apply elem_of_filterb. split; [done |].
      apply negb_true_iff. by destruct (String.eqb_spec e ""). }
    rewrite words_strip, words_lower in Hw.
    apply elem_of_map in Hw as (t & <- & Ht).
    apply substring_strip; [done | by apply (split_by_spaceless _ _ He) | by apply H].
Qed.

(** Every piece of a cut text occurs in the text. *)
Lemma split_by_substring (p : ascii -> bool) (s t : string) :
  t ∈ Py.split_by p s → substring t s.
Proof.
  revert t.
  assert (∃ w ws, Py.split_by p s = w :: ws
                  ∧ (∃ post, s = w +:+ post)
                  ∧ ∀ t, t ∈ ws → substring t s) as (w & ws & -> & [post Hw] & Hws).
  { induction s as [|c s (w & ws & E & [post Hw] & Hws)]; cbn [Py.split_by].
    - exists "", []. split; [done |]. split; [by exists "" |].
      by intros t []%not_elem_of_nil.
    - destruct (p c).
      + exists "", (Py.split_by p s). split; [done |]. split; [by eexists |].
        rewrite E. intros t [->|Ht]%elem_of_cons.
        * exists (String c ""), post. by rewrite Hw at 1.
        * destruct (Hws t Ht) as (pre & post' & Hs).
          exists (String c pre), post'. by rewrite append_cons, <- Hs.
      + rewrite E. exists (String c w), ws. split; [done |].
        split; [exists post; by rewrite append_cons, <- Hw |].
        intros t Ht. destruct (Hws t Ht) as (pre & post' & Hs).
        exists (String c pre), post'. by rewrite append_cons, <- Hs. }
  intros t [->|Ht]%elem_of_cons; [by exists "", post | by apply Hws].
Qed.

(** ** ASCII text *)

Lemma is_ascii_lower_char (c : ascii) :
  (nat_of_ascii (Py.lower_char c) <? 128)%nat = (nat_of_ascii c <? 128)%nat.
Proof. by destruct c as [[] [] [] [] [] [] [] []]. Qed.

Lemma is_ascii_lower (s : string) :
  Py.is_ascii s = true → Py.is_ascii (Py.ascii_lower s) = true.
Proof.
  induction s as [|c s IH]; [done |]. cbn [Py.is_ascii Py.ascii_lower].
  intros [Hc Hs]%andb_prop. by rewrite is_ascii_lower_char, Hc, IH.
Qed.

Lemma is_ascii_split_by (p : ascii -> bool) (s t : string) :
  Py.is_ascii s = true → t ∈ Py.split_by p s → Py.is_ascii t = true.
Proof.
  revert t. induction s as [|c s IH]; intros t; cbn [Py.is_ascii Py.split_by].
  - by intros _ ->%list_elem_of_singleton.
  - intros [Hc Hs]%andb_prop. destruct (p c).
    + intros [->|?]%elem_of_cons; [done | by apply IH].
    + destruct (Py.split_by p s) as [|w0 ws].
      * intros ->%list_elem_of_singleton. cbn [Py.is_ascii]. by rewrite Hc.
      * intros [->|?]%elem_of_cons.
        -- cbn [Py.is_ascii]. rewrite Hc. apply IH; [done | apply list_elem_of_here].
        -- apply IH; [done | by right].
Qed.

Lemma is_ascii_words (s t : string) :
  Py.is_ascii s = true → t ∈ words s → Py.is_ascii t = true.
Proof.
  intros Hs [Ht _]%elem_of_filterb. by apply (is_ascii_split_by Py.is_space s).
Qed.

(** ** C5: the owner search *)

Section OwnerSearch.
Context {models : Models}.

Lemma strip_empty : Py.strip "" = "".
Proof. by rewrite Py.strip_on_ascii. Qed.

Lemma entries_loop_forall (name : string) (es : list string) :
  OwnerList.entries_loop name es = true ↔ ∀ e, e ∈ es → substring e name.
Proof.
  induction es as [|e es IH]; simpl.
  - split; [intros _ e' He'; by apply not_elem_of_nil in He' | done].
  - destruct (Py.contains e name) eqn:E; simpl.
    + rewrite IH. split.
      * intros H e' [->|?]%elem_of_cons; [by apply contains_substring | auto].
      * intros H e' ?. apply H. by right.
    + split; [done |]. intros H.
      assert (Py.contains e name = true) as E'
        by (apply contains_substring, H; by left).
      congruence.
Qed.

Lemma search_match_entries (search_term name : string) :
  (if Py.truthy (Py.PyStr search_term)
   then OwnerList.entries_loop name (Py.split " " (Py.strip search_term))
   else true) = true
  ↔ ∀ e, e ∈ Py.split " " (Py.strip search_term) → substring e name.
Proof.
  simpl. destruct (String.eqb_spec search_term "") as [->|Hne]; simpl.
  - split; [| done]. intros _ e He. rewrite strip_empty in He.
    apply list_elem_of_singleton in He as ->. by exists "", name.
  - apply entries_loop_forall.
Qed.

Lemma matching_user_ids_elem (b : bool) (w : World) (x : Z) :
  x ∈ OwnerList.matching_user_ids b w
  ↔ ∃ u, u ∈ users w ∧ User.pk u = x ∧ User.is_active u = b.
Proof.
  unfold OwnerList.matching_user_ids. rewrite elem_of_map. split.
  - intros (u & <- & [? ?%eqb_prop]%elem_of_filterb). by exists u.
  - intros (u & ? & <- & <-). exists u. split; [done |].
    apply elem_of_filterb. split; [done | apply eqb_reflx].
Qed.

Lemma results_loop_elem (search_term : string) (is_active : option bool)
    (ids : list Z) (queryset results : list Owner.t) (o : Owner.t) :
  o ∈ OwnerList.results_loop search_term is_active ids queryset results
  ↔ o ∈ results
    ∨ (o ∈ queryset
       ∧ (∀ e, e ∈ Py.split " " (Py.strip search_term) →
               substring e (Py.strip (Py.lower (owner_name o))))
       ∧ (is_Some is_active → Owner.owner_type_name o = "user" →
          Owner.owner_id o ∈ ids)).
Proof.
  revert results. induction queryset as [|r rest IH]; intros results.
  - simpl. split; [by left | intros [?|[[]%not_elem_of_nil _]]; done].
  - cbn [OwnerList.results_loop].
    pose proof (search_match_entries search_term
                  (Py.strip (Py.lower (owner_name r)))) as Hm.
    destruct (if Py.truthy (Py.PyStr search_term) then _ else true) eqn:Em;
      cbn [negb].
    + destruct (bool_decide (is_Some is_active)
                && String.eqb (Owner.owner_type_name r) "user"
                && negb (existsb (Z.eqb (Owner.owner_id r)) ids)) eqn:Ea.
      * rewrite IH. apply andb_prop in Ea as [[Hs Ht]%andb_prop Hi].
        apply bool_decide_eq_true in Hs. apply String.eqb_eq in Ht.
        apply negb_true_iff in Hi.
        split; (intros [?|(Ho & He & Hact)]; [by left | right]).
        -- split; [by right | done].
        -- apply elem_of_cons in Ho as [->|?]; [| done].
           apply Hact in Hs; [| done]. apply existsb_Zeqb in Hs. congruence.
      * rewrite IH, elem_of_app, list_elem_of_singleton.
        assert (is_Some is_active → Owner.owner_type_name r = "user" →
                Owner.owner_id r ∈ ids) as Hr.
        { intros Hs Ht. apply existsb_Zeqb.
          apply String.eqb_eq in Ht.
          rewrite (bool_decide_eq_true_2 _ Hs), Ht in Ea. simpl in Ea.
          by apply negb_false_iff in Ea. }
        split.
        -- intros [[?| ->]|(Ho & ?)]; [by left | right | right].
           ++ split; [by left |]. split; [by apply Hm | done].
           ++ split; [by right | done].
        -- intros [?|(Ho & ?)]; [by left; left |].
           apply elem_of_cons in Ho as [->|?]; [by left; right | by right].
    + rewrite IH.
      split; (intros [?|(Ho & He & Hact)]; [by left | right]).
      * split; [by right | done].
      * apply elem_of_cons in Ho as [->|?]; [| done].
        apply Hm in He. congruence.
Qed.

(** What [filter_queryset] keeps, by membership. *)
Lemma filter_queryset_elem (request : Request) (w : World)
    (queryset : list Owner.t) (o : Owner.t) :
  o ∈ OwnerList.filter_queryset request w queryset
  ↔ o ∈ queryset
    ∧ keeps (Py.get_str (query_params request) "search" "")
            (str2bool <$> query_params request !! "is_active") w o.
Proof.
  unfold OwnerList.filter_queryset, keeps, active_matches, entries.
  rewrite results_loop_elem.
  split.
  - intros [[]%not_elem_of_nil | (Ho & He & Ha)].
    split; [done |]. split; [done |].
    intros b Hb Ht. apply matching_user_ids_elem.
    rewrite Hb in Ha. apply Ha; [by eexists | done].
  - intros (Ho & He & Ha). right. split; [done |]. split; [done |].
    intros [b Hb] Ht. rewrite Hb. apply matching_user_ids_elem. by apply Ha.
Qed.

(** The search folds case and trims as [str.lower()] and [str.strip()]
    do, outside ASCII too: without [is_active], an owner whose name is the
    query up to case and the white space around is kept. *)
Lemma owner_search_same_name (request : Request) (w : World)
    (queryset : list Owner.t) (o : Owner.t) :
  o ∈ queryset →
  query_params request !! "is_active" = None →
  Py.strip (Py.lower (Py.get_str (query_params request) "search" ""))
  = Py.strip (Py.lower (owner_name o)) →
  o ∈ OwnerList.filter_queryset request w queryset.
Proof.
  intros Ho Ha Hq. apply filter_queryset_elem. split; [done |]. split.
  - unfold entries. rewrite Hq. intros entry. apply split_by_substring.
  - rewrite Ha. by intros b.
Qed.

(** X12: the owners kept are owners of the queryset, in the order of the
    queryset, each as often as it is there at most. *)
Lemma filter_queryset_sublist (request : Request) (w : World)
    (queryset : list Owner.t) :
  sublist (OwnerList.filter_queryset request w queryset) queryset.
Proof.
  unfold OwnerList.filter_queryset.
  generalize (Py.lower (Py.get_str (query_params request) "search" "")) as search_term.
  generalize (str2bool <$> query_params request !! "is_active") as is_active.
  intros is_active search_term.
  generalize (match is_active with
              | Some b => OwnerList.matching_user_ids b w
              | None => []
              end) as ids.
  intros ids.
  assert (∀ results,
            ∃ kept, OwnerList.results_loop search_term is_active ids queryset results
                    = (results ++ kept)%list ∧ sublist kept queryset) as Hloop.
  { induction queryset as [|r rest IH]; intros results.
    - exists []. split; [by rewrite app_nil_r | done].
    - cbn [OwnerList.results_loop].
      destruct (negb _).
      + destruct (IH results) as (kept & -> & Hs). exists kept.
        split; [done | by apply sublist_cons].
      + destruct (_ && _ && _).
        * destruct (IH results) as (kept & -> & Hs). exists kept.
          split; [done | by apply sublist_cons].
        * destruct (IH (results ++ [r])%list) as (kept & -> & Hs). exists (r :: kept).
          split; [by rewrite <- app_assoc | by apply sublist_skip]. }
  destruct (Hloop []) as (kept & -> & Hs). done.
Qed.

(** C5, amended: [filter_queryset] keeps an owner of the queryset iff
    every piece of the lowered, trimmed query between single spaces occurs
    in the lowered, trimmed name and, when [is_active] is given, a
    user-typed owner has a user with that [is_active]; owners of any
    other type pass that filter.  This holds for every text, with
    [str.lower()] and [str.strip()] whatever they are outside ASCII.  On
    an ASCII query whose only white space is the space character, and an
    ASCII name, this is the search of the specification: every word of
    the query occurs in the name, whatever the case. *)
Theorem owner_search_keeps (request : Request) (w : World)
    (queryset : list Owner.t) (o : Owner.t) :
  let query := Py.get_str (query_params request) "search" "" in
  let is_active := str2bool <$> query_params request !! "is_active" in
  (o ∈ OwnerList.filter_queryset request w queryset
   ↔ o ∈ queryset ∧ keeps query is_active w o)
  ∧ (Owner.owner_type_name o ≠ "user" →
     o ∈ OwnerList.filter_queryset request w queryset
     ↔ o ∈ queryset
       ∧ ∀ entry, entry ∈ entries query →
                  substring entry (Py.strip (Py.lower (owner_name o))))
  ∧ (Py.is_ascii query = true → Py.is_ascii (owner_name o) = true →
     plainly_spaced query = true →
     o ∈ OwnerList.filter_queryset request w queryset
     ↔ o ∈ queryset ∧ spec_keeps query is_active w o).
Proof.
  intros query is_active. split; [apply filter_queryset_elem |]. split.
  - intros Ht. rewrite filter_queryset_elem. fold query is_active.
    unfold keeps, active_matches.
    split; [intros (? & ? & _); done |].
    intros (? & ?). split; [done |]. split; [done |]. intros b _ ?. done.
  - intros Haq Han Hq. rewrite filter_queryset_elem. fold query is_active.
    unfold keeps, spec_keeps, entries.
    rewrite (Py.lower_on_ascii query Haq), (Py.lower_on_ascii _ Han).
    rewrite !Py.strip_on_ascii by by apply is_ascii_lower.
    rewrite (entries_words query _ Hq).
    assert ((∀ t, t ∈ words query →
                  substring (Py.ascii_lower t) (Py.ascii_lower (owner_name o)))
            ↔ (∀ token, token ∈ words query →
                        substring (Py.lower token) (Py.ascii_lower (owner_name o))))
      as ->; [| done].
    split; intros H t Ht; specialize (H t Ht);
      by rewrite (Py.lower_on_ascii t (is_ascii_words query t Haq Ht)) in *.
Qed.
End OwnerSearch.

(** C5, as stated, fails: the owner named "a b" has both white-space
    separated tokens of the query "a<TAB>b" in its name, yet the search,
    which cuts the query at single spaces only, drops it. *)
Lemma owner_search_tab_dropped :
  team ∈ [team]
  ∧ @spec_keeps (run_models team_names)
      (Py.get_str (query_params tab_request) "search" "")
      (@str2bool (run_models team_names) <$> query_params tab_request !! "is_active")
      world0 team
  ∧ team ∉ @OwnerList.filter_queryset (run_models team_names) tab_request world0 [team].
Proof.
  assert (Py.get_str (query_params tab_request) "search" "" = tab_query) as ->
    by (vm_compute; reflexivity).
  assert (query_params tab_request !! "is_active" = None) as ->
    by (vm_compute; reflexivity).
  split; [apply list_elem_of_here |]. split; [split |].
  - assert (words tab_query = ["a"; "b"]) as -> by (vm_compute; reflexivity).
    intros token [->|[->|[]%not_elem_of_nil]%elem_of_cons]%elem_of_cons.
    + by exists "", " b".
    + by exists "a ", "".
  - intros b Hb. discriminate.
  - assert (@OwnerList.filter_queryset (run_models team_names) tab_request
              world0 [team] = []) as -> by (vm_compute; reflexivity).
    apply not_elem_of_nil.
Qed.

(** ** The token table *)

Lemma save_present (tk : ApiToken.t) (rows : list ApiToken.t) :
  ApiToken.id tk ∈ map ApiToken.id rows →
  save tk rows = map (fun r => if ApiToken.id r =? ApiToken.id tk then tk else r) rows.
Proof.
  intros (r & Hr & Hin)%elem_of_map. unfold save.
  assert (existsb (fun r => ApiToken.id r =? ApiToken.id tk) rows = true) as ->; [| done].
  apply existsb_exists. exists r. split; [by apply list_elem_of_In | by apply Z.eqb_eq].
Qed.

Lemma save_absent (tk : ApiToken.t) (rows : list ApiToken.t) :
  ApiToken.id tk ∉ map ApiToken.id rows →
  save tk rows = (rows ++ [tk])%list.
Proof.
  intros Hn. unfold save.
  destruct (existsb _ rows) eqn:E; [| done].
  apply existsb_exists in E as (r & Hin & Hid%Z.eqb_eq).
  exfalso. apply Hn, elem_of_map. exists r. split; [done | by apply list_elem_of_In].
Qed.

Lemma save_ids_present (tk : ApiToken.t) (rows : list ApiToken.t) :
  ApiToken.id tk ∈ map ApiToken.id rows →
  map ApiToken.id (save tk rows) = map ApiToken.id rows.
Proof.
  intros Hin. rewrite save_present by done. rewrite map_map.
  apply map_ext. intros r. by destruct (Z.eqb_spec (ApiToken.id r) (ApiToken.id tk)).
Qed.

(** Saving an instance twice leaves what the second save wrote. *)
Lemma save_save (t1 t2 : ApiToken.t) (rows : list ApiToken.t) :
  ApiToken.id t1 = ApiToken.id t2 →
  save t2 (save t1 rows) = save t2 rows.
Proof.
  intros Hid.
  destruct (decide (ApiToken.id t1 ∈ map ApiToken.id rows)) as [Hin|Hn].
  - rewrite (save_present t2 (save t1 rows)), (save_present t1 rows), (save_present t2 rows);
      rewrite ?save_ids_present; rewrite <- ?Hid; try done.
    rewrite map_map. apply map_ext. intros r. rewrite Hid.
    destruct (Z.eqb_spec (ApiToken.id r) (ApiToken.id t2)) as [E|E].
    + by rewrite <- Hid, Z.eqb_refl.
    + by apply Z.eqb_neq in E as ->.
  - rewrite (save_absent t1 rows), (save_absent t2 rows) by (rewrite <- ?Hid; done).
    rewrite save_present.
    + rewrite map_app. simpl. rewrite Hid, Z.eqb_refl. f_equal.
      rewrite <- (map_id rows) at 2. apply map_ext_in. intros r Hr.
      destruct (Z.eqb_spec (ApiToken.id r) (ApiToken.id t2)) as [E|]; [| done].
      exfalso. apply Hn, elem_of_map. exists r.
      split; [congruence | by apply list_elem_of_In].
    + rewrite map_app, elem_of_app. right. simpl. rewrite Hid. apply list_elem_of_here.
Qed.

Lemma save_elem (tk : ApiToken.t) (rows : list ApiToken.t) : tk ∈ save tk rows.
Proof.
  destruct (decide (ApiToken.id tk ∈ map ApiToken.id rows)) as [Hin|Hn].
  - rewrite save_present by done.
    apply elem_of_map in Hin as (r & Hid & Hr).
    apply elem_of_map. exists r. split; [| done].
    by apply Z.eqb_eq in Hid as ->.
  - rewrite save_absent by done. apply elem_of_app. right. apply list_elem_of_here.
Qed.

(** A column without repetition names the rows. *)
Lemma column_names_row {B} (f : ApiToken.t -> B) (rows : list ApiToken.t)
    (r tk : ApiToken.t) :
  NoDup (map f rows) →
  r ∈ rows → tk ∈ rows → f r = f tk → r = tk.
Proof.
  intros Hnd Hr Hin E.
  induction rows as [|x rows IH]; [by apply not_elem_of_nil in Hr |].
  simpl in Hnd. apply NoDup_cons in Hnd as [Hx Hnd].
  apply elem_of_cons in Hr as [->|Hr], Hin as [->|Hin]; try done.
  - exfalso. apply Hx, elem_of_map. exists tk. by split.
  - exfalso. apply Hx, elem_of_map. exists r. by split.
  - by apply IH.
Qed.

(** A primary key names one row. *)
Lemma pk_names_row (rows : list ApiToken.t) (r tk : ApiToken.t) :
  NoDup (map ApiToken.id rows) →
  r ∈ rows → tk ∈ rows → ApiToken.id r = ApiToken.id tk → r = tk.
Proof. apply column_names_row. Qed.

(** Two lists with the same column: every entry of one has its like in
    the other. *)
Lemma same_column {B} (f : ApiToken.t -> B) (l l' : list ApiToken.t) (r : ApiToken.t) :
  map f l' = map f l → r ∈ l' → ∃ r0, r0 ∈ l ∧ f r0 = f r.
Proof.
  intros E Hr.
  assert (f r ∈ map f l) as (r0 & ? & ?)%elem_of_map
    by (rewrite <- E; apply elem_of_map; by exists r).
  by exists r0.
Qed.

(** Saving a copy of a row with the same primary key and key keeps both
    columns of the table. *)
Lemma save_copy_columns (tk tk' : ApiToken.t) (rows : list ApiToken.t) :
  NoDup (map ApiToken.id rows) → tk ∈ rows →
  ApiToken.id tk' = ApiToken.id tk → ApiToken.key tk' = ApiToken.key tk →
  map ApiToken.id (save tk' rows) = map ApiToken.id rows
  ∧ map ApiToken.key (save tk' rows) = map ApiToken.key rows.
Proof.
  intros Hnd Hin Hid Hkey.
  assert (ApiToken.id tk' ∈ map ApiToken.id rows) as Hid'
    by (apply elem_of_map; by exists tk).
  split; [by apply save_ids_present |].
  rewrite save_present by done. rewrite map_map. apply map_ext_in.
  intros r Hr%list_elem_of_In. rewrite Hid.
  destruct (Z.eqb_spec (ApiToken.id r) (ApiToken.id tk)) as [E|E]; [| done].
  by rewrite Hkey, (pk_names_row rows r tk Hnd Hr Hin E).
Qed.

(** ** [GetAuthToken.get] *)

Section Issue.
Context {models : Models}.

Lemma head_filter_Some {A} (f : A -> bool) (l : list A) (x : A) :
  head (List.filter f l) = Some x → x ∈ l ∧ f x = true.
Proof.
  intros Hh. apply elem_of_filterb.
  destruct (List.filter f l) as [|y ys]; [done |].
  injection Hh as ->. apply list_elem_of_here.
Qed.

Lemma head_filter_None {A} (f : A -> bool) (l : list A) :
  head (List.filter f l) = None ↔ ∀ x, x ∈ l → f x = false.
Proof.
  split.
  - intros Hh x Hx. destruct (f x) eqn:E; [| done].
    assert (x ∈ List.filter f l) as Hin by (by apply elem_of_filterb).
    destruct (List.filter f l); [by apply not_elem_of_nil in Hin | done].
  - intros Hall. destruct (List.filter f l) as [|y ys] eqn:E; [done |].
    assert (y ∈ List.filter f l) as [Hy Hf]%elem_of_filterb
      by (rewrite E; apply list_elem_of_here).
    rewrite (Hall y Hy) in Hf. done.
Qed.

(** A further [set_metadata] on an instance that was just saved. *)
Lemma set_metadata_again (k v : string) (m : gmap string string)
    (tk : ApiToken.t) (w : World) :
  metadata_only →
  ∃ m', set_metadata k v (ApiToken.with_metadata m tk)
          (set_tokens (save (ApiToken.with_metadata m tk)) w)
        = Ok (ApiToken.with_metadata m' tk,
              set_tokens (save (ApiToken.with_metadata m' tk)) w).
Proof.
  intros Hlaw.
  destruct (Hlaw k v (ApiToken.with_metadata m tk)
              (set_tokens (save (ApiToken.with_metadata m tk)) w)) as [m' ->].
  exists m'. unfold set_tokens. simpl. by rewrite save_save.
Qed.

(** [get] answers with the key, name and expiry of that token; in the
    table only the metadata of its row have changed. *)
Lemma get_run (request : Request) (u : User.t) (w w1 : World) (tk : ApiToken.t) :
  metadata_only →
  user request = Authenticated u →
  GetAuthToken.found_or_created request u w = Ok (tk, w1) →
  ∃ m w',
    GetAuthToken.get request w
    = Ok ([("token", Py.PyStr (ApiToken.key tk));
           ("name", Py.PyStr (ApiToken.name tk));
           ("expiry", Py.PyDate (ApiToken.expiry tk))], w')
    ∧ tokens w' = save (ApiToken.with_metadata m tk) (tokens w1)
    ∧ next_id w' = next_id w1 ∧ rng w' = rng w1 ∧ today w' = today w1.
Proof.
  intros Hlaw Hu Hf. unfold GetAuthToken.get. rewrite Hu.
  unfold GetAuthToken.found_or_created in Hf. unfold bind in *.
  destruct (GetAuthToken.lookup _ _ w) as [[o w0]|e]; [| done].
  rewrite Hf.
  destruct (Hlaw "user_agent" (Py.get_str (headers request) "user-agent" "") tk w1)
    as [m1 ->].
  destruct (set_metadata_again "remote_addr"
              (Py.get_str (META request) "REMOTE_ADDR" "") m1 tk w1 Hlaw) as [m2 ->].
  destruct (set_metadata_again "remote_host"
              (Py.get_str (META request) "REMOTE_HOST" "") m2 tk w1 Hlaw) as [m3 ->].
  destruct (set_metadata_again "remote_user"
              (Py.get_str (META request) "REMOTE_USER" "") m3 tk w1 Hlaw) as [m4 ->].
  destruct (set_metadata_again "server_name"
              (Py.get_str (META request) "SERVER_NAME" "") m4 tk w1 Hlaw) as [m5 ->].
  destruct (set_metadata_again "server_port"
              (Py.get_str (META request) "SERVER_PORT" "") m5 tk w1 Hlaw) as [m6 ->].
  exists m6. unfold gets, modify, ret. simpl.
  destruct (session_user w1); eexists; (split; [reflexivity | done]).
Qed.
End Issue.

Section IssueClaims.
Context {models : Models}.

(** Saving a copy of a row that differs in its metadata keeps every
    primary key and every key of the table. *)
Lemma save_metadata_keys (m : gmap string string) (tk : ApiToken.t)
    (rows : list ApiToken.t) :
  NoDup (map ApiToken.id rows) → tk ∈ rows →
  map ApiToken.id (save (ApiToken.with_metadata m tk) rows) = map ApiToken.id rows
  ∧ map ApiToken.key (save (ApiToken.with_metadata m tk) rows) = map ApiToken.key rows.
Proof. intros Hnd Hin. by apply (save_copy_columns tk). Qed.

(** C1: when the table holds a token of the user under the sanitized
    name that is not revoked and not expired today, [get] answers with
    the key, name and expiry of such a token of the table (of that very
    token when it is the only one), creates no row, draws no key and
    leaves every key of the table as it was. *)
Theorem issue_reuses_existing (request : Request) (u : User.t) (w : World)
    (tk : ApiToken.t) :
  metadata_only →
  pk_unique w →
  user request = Authenticated u →
  tk ∈ tokens w →
  ApiToken.user tk = User.pk u →
  ApiToken.name tk = sanitize_name (Py.get_str (query_params request) "name" "") →
  ApiToken.revoked tk = false →
  today w ≤ ApiToken.expiry tk →
  ∃ tk0 w',
    GetAuthToken.get request w
    = Ok ([("token", Py.PyStr (ApiToken.key tk0));
           ("name", Py.PyStr (ApiToken.name tk0));
           ("expiry", Py.PyDate (ApiToken.expiry tk0))], w')
    ∧ tk0 ∈ tokens w
    ∧ ApiToken.user tk0 = User.pk u
    ∧ ApiToken.name tk0 = ApiToken.name tk
    ∧ ApiToken.revoked tk0 = false
    ∧ today w ≤ ApiToken.expiry tk0
    ∧ ((∀ t, t ∈ tokens w →
             GetAuthToken.reusable (User.pk u) (ApiToken.name tk) (today w) t = true →
             t = tk) → tk0 = tk)
    ∧ map ApiToken.id (tokens w') = map ApiToken.id (tokens w)
    ∧ map ApiToken.key (tokens w') = map ApiToken.key (tokens w)
    ∧ next_id w' = next_id w
    ∧ rng w' = rng w.
Proof.
  intros Hlaw Hnd Hu Hin Huser Hname Hrev Hexp.
  set (name := sanitize_name (Py.get_str (query_params request) "name" "")) in *.
  assert (GetAuthToken.reusable (User.pk u) name (today w) tk = true) as Hre.
  { unfold GetAuthToken.reusable. rewrite Huser, Hname, Hrev, Z.eqb_refl, String.eqb_refl.
    simpl. by apply Z.leb_le. }
  destruct (head (List.filter (GetAuthToken.reusable (User.pk u) name (today w))
                    (tokens w))) as [tk0|] eqn:Eh.
  2:{ rewrite head_filter_None in Eh. rewrite (Eh tk Hin) in Hre. done. }
  pose proof (head_filter_Some _ _ _ Eh) as [Hin0 Hre0].
  assert (GetAuthToken.found_or_created request u w = Ok (tk0, w)) as Hf.
  { unfold GetAuthToken.found_or_created, GetAuthToken.lookup, bind. fold name.
    by rewrite Eh. }
  destruct (get_run request u w w tk0 Hlaw Hu Hf) as (m & w' & Hget & Htok & Hid & Hrng & _).
  destruct (save_metadata_keys m tk0 (tokens w) Hnd Hin0) as [Hids Hkeys].
  exists tk0, w'. rewrite Htok. pose proof Hre0 as Hre1.
  unfold GetAuthToken.reusable in Hre0.
  apply andb_prop in Hre0 as [[[Hu0%Z.eqb_eq Hn0%String.eqb_eq]%andb_prop
                                 Hr0%negb_true_iff]%andb_prop He0%Z.leb_le].
  repeat split; try done.
  - congruence.
  - intros Honly. apply Honly; [done |]. rewrite Hname. exact Hre1.

Qed.
End IssueClaims.

Section Creation.
Context {models : Models}.

(** When no row can be reused, [get] appends one row: the next primary
    key, the next key of the generator, not revoked; and answers with
    that key. *)
Lemma get_creates (request : Request) (u : User.t) (w : World) :
  metadata_only →
  pk_bounded w →
  user request = Authenticated u →
  (∀ r, r ∈ tokens w →
        GetAuthToken.reusable (User.pk u)
          (sanitize_name (Py.get_str (query_params request) "name" ""))
          (today w) r = false) →
  ∃ m w',
    let new := {| ApiToken.id := next_id w;
                  ApiToken.user := User.pk u;
                  ApiToken.name := sanitize_name (Py.get_str (query_params request) "name" "");
                  ApiToken.key := default_token (rng w);
                  ApiToken.created := today w;
                  ApiToken.expiry := default_token_expiry (today w);
                  ApiToken.revoked := false;
                  ApiToken.metadata := m |} in
    GetAuthToken.get request w
    = Ok ([("token", Py.PyStr (ApiToken.key new));
           ("name", Py.PyStr (ApiToken.name new));
           ("expiry", Py.PyDate (ApiToken.expiry new))], w')
    ∧ tokens w' = (tokens w ++ [new])%list
    ∧ next_id w' = next_id w + 1
    ∧ rng w' = S (rng w).
Proof.
  intros Hlaw Hb Hu Hnone.
  set (name := sanitize_name (Py.get_str (query_params request) "name" "")) in *.
  apply head_filter_None in Hnone.
  set (tk := {| ApiToken.id := next_id w; ApiToken.user := User.pk u;
                ApiToken.name := name; ApiToken.key := default_token (rng w);
                ApiToken.created := today w;
                ApiToken.expiry := default_token_expiry (today w);
                ApiToken.revoked := false; ApiToken.metadata := ∅ |}).
  assert (GetAuthToken.found_or_created request u w = Ok (tk, insert_token tk w)) as Hf.
  { unfold GetAuthToken.found_or_created, GetAuthToken.lookup, bind. fold name.
    by rewrite Hnone. }
  destruct (get_run request u w _ tk Hlaw Hu Hf) as (m & w' & Hget & Htok & Hid & Hrng & _).
  exists m, w'. cbn zeta. split; [exact Hget |]. split; [| done].
  rewrite Htok. cbn [tokens insert_token].
  rewrite save_present.
  2:{ rewrite map_app, elem_of_app. right. apply list_elem_of_here. }
  rewrite map_app. cbn [map ApiToken.id ApiToken.with_metadata tk].
  rewrite Z.eqb_refl. f_equal.
  rewrite <- (map_id (tokens w)) at 2. apply map_ext_in.
  intros r Hr%list_elem_of_In. apply Hb in Hr.
  destruct (Z.eqb_spec (ApiToken.id r) (next_id w)); [lia | done].
Qed.
End Creation.

(** ** Two issue requests in a row *)

Section Twice.
Context {models : Models}.

Lemma head_filter_split {A} (f : A -> bool) (l : list A) (x : A) :
  head (List.filter f l) = Some x
  ↔ ∃ l1 l2, l = (l1 ++ x :: l2)%list ∧ f x = true ∧ ∀ y, y ∈ l1 → f y = false.
Proof.
  induction l as [|a l IH]; simpl.
  - split; [done |]. intros (l1 & l2 & E & _). by destruct l1.
  - destruct (f a) eqn:Ea; simpl.
    + split.
      * intros [= ->]. exists [], l. split; [done |]. split; [done |].
        intros y []%not_elem_of_nil.
      * intros ([|b l1] & l2 & E & Hx & Hl1).
        -- by injection E as -> _.
        -- injection E as -> _. rewrite Hl1 in Ea; [done | apply list_elem_of_here].
    + rewrite IH. split.
      * intros (l1 & l2 & -> & Hx & Hl1). exists (a :: l1), l2.
        split; [done |]. split; [done |].
        intros y [->|?]%elem_of_cons; [done | by apply Hl1].
      * intros ([|b l1] & l2 & E & Hx & Hl1).
        -- injection E as -> _. congruence.
        -- injection E as -> ->. exists l1, l2. split; [done |]. split; [done |].
           intros y Hy. apply Hl1. by right.
Qed.

Lemma reusable_earlier (user_pk : Z) (name : string) (d1 d2 : Z) (r : ApiToken.t) :
  d1 ≤ d2 →
  GetAuthToken.reusable user_pk name d1 r = false →
  GetAuthToken.reusable user_pk name d2 r = false.
Proof.
  unfold GetAuthToken.reusable. intros Hd.
  destruct (ApiToken.user r =? user_pk), (String.eqb (ApiToken.name r) name),
    (ApiToken.revoked r); simpl; try done.
  rewrite !Z.leb_gt. lia.
Qed.

Lemma reusable_metadata (user_pk : Z) (name : string) (d : Z)
    (m : gmap string string) (r : ApiToken.t) :
  GetAuthToken.reusable user_pk name d (ApiToken.with_metadata m r)
  = GetAuthToken.reusable user_pk name d r.
Proof. reflexivity. Qed.

(** The answer of [get] names the token the first half found or made. *)
Lemma get_answer (request : Request) (u : User.t) (w w1 : World) (tk : ApiToken.t)
    (data : Py.dict) (w' : World) :
  metadata_only →
  user request = Authenticated u →
  GetAuthToken.found_or_created request u w = Ok (tk, w1) →
  GetAuthToken.get request w = Ok (data, w') →
  data = [("token", Py.PyStr (ApiToken.key tk));
          ("name", Py.PyStr (ApiToken.name tk));
          ("expiry", Py.PyDate (ApiToken.expiry tk))].
Proof.
  intros Hlaw Hu Hf Hget.
  destruct (get_run request u w w1 tk Hlaw Hu Hf) as (m & w2 & Hget' & _).
  rewrite Hget' in Hget. by injection Hget as <- _.
Qed.

(** X1: when [get] has answered, the same request on a later day
    that is still within the expiry of the answer gets the same answer,
    key included, and no row is added. *)
Theorem issue_twice_same_key (request : Request) (u : User.t) (w w1 : World)
    (data : Py.dict) (day : Z) :
  metadata_only →
  pk_unique w →
  pk_bounded w →
  user request = Authenticated u →
  GetAuthToken.get request w = Ok (data, w1) →
  today w ≤ day →
  (∀ d, Py.dict_get data "expiry" = Some (Py.PyDate d) → day ≤ d) →
  ∃ w2, GetAuthToken.get request (set_today day w1) = Ok (data, w2)
        ∧ map ApiToken.id (tokens w2) = map ApiToken.id (tokens w1)
        ∧ map ApiToken.key (tokens w2) = map ApiToken.key (tokens w1).
Proof.
  intros Hlaw Hnd Hb Hu Hget Hday Hexp.
  set (name := sanitize_name (Py.get_str (query_params request) "name" "")).
  (* the token of the first answer, and the table after it *)
  assert (∃ tk l1 l2,
            data = [("token", Py.PyStr (ApiToken.key tk));
                    ("name", Py.PyStr (ApiToken.name tk));
                    ("expiry", Py.PyDate (ApiToken.expiry tk))]
            ∧ tokens w1 = (l1 ++ tk :: l2)%list
            ∧ NoDup (map ApiToken.id (tokens w1))
            ∧ ApiToken.user tk = User.pk u ∧ ApiToken.name tk = name
            ∧ ApiToken.revoked tk = false
            ∧ ∀ y, y ∈ l1 → GetAuthToken.reusable (User.pk u) name (today w) y = false)
    as (tk & l1 & l2 & -> & Htok & Hnd1 & Huser & Hname & Hrev & Hl1).
  { destruct (head (List.filter (GetAuthToken.reusable (User.pk u) name (today w))
                      (tokens w))) as [tk0|] eqn:Eh.
    - assert (GetAuthToken.found_or_created request u w = Ok (tk0, w)) as Hf.
      { unfold GetAuthToken.found_or_created, GetAuthToken.lookup, bind. fold name.
        by rewrite Eh. }
      destruct (get_run request u w w tk0 Hlaw Hu Hf) as (m & w' & Hget' & Htok & _).
      rewrite Hget' in Hget. injection Hget as <- <-.
      pose proof (head_filter_Some _ _ _ Eh) as [Hin0 Hre0].
      apply head_filter_split in Eh as (l1 & l2 & El & _ & Hl1).
      exists (ApiToken.with_metadata m tk0), l1,
        (map (fun r => if ApiToken.id r =? ApiToken.id tk0
                       then ApiToken.with_metadata m tk0 else r) l2).
      unfold GetAuthToken.reusable in Hre0.
      apply andb_prop in Hre0 as [[[Hu0%Z.eqb_eq Hn0%String.eqb_eq]%andb_prop
                                     Hr0%negb_true_iff]%andb_prop _].
      split; [done |]. split; [| split; [| done]].
      + rewrite Htok, save_present by (apply elem_of_map; by exists tk0).
        rewrite El, map_app. cbn [map ApiToken.id ApiToken.with_metadata].
        rewrite Z.eqb_refl. f_equal.
        rewrite <- (map_id l1) at 2. apply map_ext_in. intros r Hr%list_elem_of_In.
        destruct (Z.eqb_spec (ApiToken.id r) (ApiToken.id tk0)) as [E|]; [| done].
        exfalso. unfold pk_unique in Hnd. rewrite El, map_app in Hnd.
        apply NoDup_app in Hnd as (_ & Hdis & _).
        apply (Hdis (ApiToken.id r)); [apply elem_of_map; by exists r |].
        rewrite E. apply list_elem_of_here.
      + rewrite Htok.
        by destruct (save_metadata_keys m tk0 (tokens w) Hnd Hin0) as [-> _].
    - pose proof (proj1 (head_filter_None _ _) Eh) as Hnone.
      destruct (get_creates request u w Hlaw Hb Hu Hnone) as (m & w' & Hget' & Htok & _).
      cbn zeta in Hget', Htok. rewrite Hget' in Hget. injection Hget as <- <-.
      match type of Htok with
      | tokens _ = (_ ++ [?new])%list => exists new, (tokens w), []
      end.
      split; [reflexivity |]. split; [exact Htok |]. split; [| done].
      rewrite Htok, map_app. apply NoDup_app. split; [exact Hnd |]. split.
      + intros x (r & <- & Hr)%elem_of_map [E|[]%not_elem_of_nil]%elem_of_cons.
        apply Hb in Hr. cbn in E. lia.
      + apply NoDup_singleton. }
  (* the second request finds that token first *)
  assert (GetAuthToken.found_or_created request u (set_today day w1)
          = Ok (tk, set_today day w1)) as Hf2.
  { unfold GetAuthToken.found_or_created, GetAuthToken.lookup, bind. fold name.
    cbn [today tokens set_today].
    assert (head (List.filter (GetAuthToken.reusable (User.pk u) name day) (tokens w1))
            = Some tk) as ->; [| done].
    apply head_filter_split. exists l1, l2. split; [done |]. split.
    - unfold GetAuthToken.reusable.
      rewrite Huser, Hname, Hrev, Z.eqb_refl, String.eqb_refl. simpl.
      apply Z.leb_le, Hexp. reflexivity.
    - intros y Hy. apply (reusable_earlier _ _ (today w)); [done | by apply Hl1]. }
  destruct (get_run request u _ _ tk Hlaw Hu Hf2) as (m & w2 & Hget2 & Htok2 & _).
  exists w2. split; [exact Hget2 |].
  rewrite Htok2. cbn [tokens set_today].
  apply save_metadata_keys; [done |].
  rewrite Htok. apply elem_of_app. right. apply list_elem_of_here.
Qed.
End Twice.

(** ** C7: revocation *)

(** C7: [perform_destroy] on a row of the table succeeds and removes
    nothing: every row keeps its place, its primary key, user, name, key,
    creation date, expiry and metadata; the row of the instance ends with
    [revoked] set and every other row keeps its [revoked]; the rest of the
    state is untouched. *)
Theorem revoke_sets_flag_only (instance : ApiToken.t) (w : World) :
  pk_unique w →
  instance ∈ tokens w →
  ∃ w',
    TokenDetailView.perform_destroy instance w = Ok (tt, w')
    ∧ length (tokens w') = length (tokens w)
    ∧ (∀ (i : nat) (r : ApiToken.t),
         tokens w !! i = Some r →
         tokens w' !! i
         = Some (ApiToken.with_revoked
                   (if ApiToken.id r =? ApiToken.id instance then true
                    else ApiToken.revoked r) r))
    ∧ users w' = users w ∧ owners w' = owners w
    ∧ next_id w' = next_id w ∧ rng w' = rng w ∧ today w' = today w.
Proof.
  intros Hnd Hin. eexists. split; [reflexivity |].
  cbn [tokens set_tokens].
  assert (ApiToken.id (ApiToken.with_revoked true instance)
          ∈ map ApiToken.id (tokens w)) as Hid
    by (apply elem_of_map; by exists instance).
  rewrite save_present by done. split; [apply length_map |].
  split; [| done].
  intros i r Hi. rewrite lookup_map, Hi. cbn [fmap option_fmap option_map]. f_equal.
  cbn [ApiToken.id ApiToken.with_revoked].
  destruct (Z.eqb_spec (ApiToken.id r) (ApiToken.id instance)) as [E|E].
  - assert (r ∈ tokens w) as Hr by (by apply list_elem_of_lookup_2 in Hi).
    by rewrite (pk_names_row _ r instance Hnd Hr Hin E).
  - by destruct r.
Qed.

(** ** C2 and C6: what the reuse lookup passes over *)

Section Terminal.
Context {models : Models}.

Lemma revoked_not_reusable (user_pk : Z) (name : string) (day : Z) (r : ApiToken.t) :
  ApiToken.revoked r = true → GetAuthToken.reusable user_pk name day r = false.
Proof.
  intros Hr. unfold GetAuthToken.reusable. rewrite Hr. simpl.
  by rewrite andb_false_r.
Qed.

Lemma expired_not_reusable (user_pk : Z) (name : string) (day : Z) (r : ApiToken.t) :
  ApiToken.expiry r < day → GetAuthToken.reusable user_pk name day r = false.
Proof.
  intros He. unfold GetAuthToken.reusable.
  assert ((day <=? ApiToken.expiry r) = false) as -> by (apply Z.leb_gt; lia).
  apply andb_false_r.
Qed.

(** The rows after [perform_destroy]. *)
Lemma perform_destroy_rows (tk : ApiToken.t) (w : World) (r : ApiToken.t) :
  tk ∈ tokens w →
  r ∈ tokens (set_tokens (save (ApiToken.with_revoked true tk)) w) →
  (r = ApiToken.with_revoked true tk)
  ∨ (r ∈ tokens w ∧ ApiToken.id r ≠ ApiToken.id tk).
Proof.
  intros Hin. cbn [tokens set_tokens]. rewrite save_present.
  2:{ apply elem_of_map. by exists tk. }
  intros (r0 & <- & Hr0)%elem_of_map. cbn [ApiToken.id ApiToken.with_revoked].
  destruct (Z.eqb_spec (ApiToken.id r0) (ApiToken.id tk)); [by left | by right].
Qed.

End Terminal.

(** ** Runs of token requests *)

Lemma save_keeps_others (tk r : ApiToken.t) (rows : list ApiToken.t) :
  r ∈ rows → ApiToken.id r ≠ ApiToken.id tk → r ∈ save tk rows.
Proof.
  intros Hr Hne. unfold save. destruct (existsb _ rows).
  - apply elem_of_map. exists r. split; [| done].
    by apply Z.eqb_neq in Hne as ->.
  - apply elem_of_app. by left.
Qed.

Lemma get_queryset_ok (request : Request) (w w' : World) (queryset : list ApiToken.t) :
  TokenMixin.get_queryset request w = Ok (queryset, w') →
  w' = w ∧ ∀ tk, tk ∈ queryset → tk ∈ tokens w.
Proof.
  unfold TokenMixin.get_queryset.
  destruct (actor_is_superuser (user request) && _).
  - intros [= <- <-]. done.
  - destruct (user request) as [|u]; [done |].
    intros [= <- <-]. split; [done |]. by intros tk [? _]%elem_of_filterb.
Qed.

Lemma get_object_ok (request : Request) (w w' : World) (tk : ApiToken.t) :
  TokenMixin.get_object request w = Ok (tk, w') →
  w' = w ∧ tk ∈ tokens w.
Proof.
  unfold TokenMixin.get_object, bind.
  destruct (TokenMixin.get_queryset request w) as [[queryset w0]|e] eqn:Eq; [| done].
  apply get_queryset_ok in Eq as [-> Hq].
  destruct (List.filter _ queryset) as [|r [|r2 l]] eqn:Ef; try done.
  intros [= <- <-]. split; [done |]. apply Hq.
  assert (r ∈ List.filter (fun tk => ApiToken.id tk =? kwargs_pk request) queryset)
    as [? _]%elem_of_filterb by (rewrite Ef; apply list_elem_of_here).
  done.
Qed.

(** A new row under the next primary key keeps the table well keyed. *)
Lemma well_keyed_append (w w' : World) (new : ApiToken.t) :
  well_keyed w →
  tokens w' = (tokens w ++ [new])%list →
  ApiToken.id new = next_id w →
  next_id w' = next_id w + 1 →
  well_keyed w'.
Proof.
  intros [Hnd Hb] Htok Hid Hnext. split.
  - unfold pk_unique. rewrite Htok, map_app. apply NoDup_app.
    split; [exact Hnd |]. split; [| apply NoDup_singleton].
    intros x (r & <- & Hr)%elem_of_map [E|[]%not_elem_of_nil]%elem_of_cons.
    apply Hb in Hr. lia.
  - intros r. rewrite Htok, Hnext.
    intros [Hr | ->%list_elem_of_singleton]%elem_of_app; [apply Hb in Hr |]; lia.
Qed.

(** Saving a changed copy of a row under its own primary key keeps the
    table well keyed. *)
Lemma well_keyed_save (w w' : World) (tk : ApiToken.t) :
  well_keyed w →
  ApiToken.id tk ∈ map ApiToken.id (tokens w) →
  tokens w' = save tk (tokens w) →
  next_id w' = next_id w →
  well_keyed w'.
Proof.
  intros [Hnd Hb] Hin Htok Hnext. split.
  - unfold pk_unique. rewrite Htok, save_ids_present; done.
  - intros r. rewrite Htok, Hnext, save_present by done.
    intros (r0 & <- & Hr0)%elem_of_map.
    destruct (Z.eqb_spec (ApiToken.id r0) (ApiToken.id tk)) as [<-|]; by apply Hb.
Qed.

Section RunsProofs.
Context {models : Models} {serializers : Serializers}.

(** One answered request keeps the primary keys in order; it leaves the
    keys of the table as they were or appends the next key of the
    generator; and every revoked row stays, revoked and under its key. *)
Lemma respond_keeps (op : operation) (request : Request) (w w' : World)
    (records : list Py.dict) :
  metadata_only →
  well_keyed w →
  respond op request w = Ok (records, w') →
  well_keyed w'
  ∧ ((map ApiToken.key (tokens w') = map ApiToken.key (tokens w) ∧ rng w' = rng w)
     ∨ (map ApiToken.key (tokens w')
        = (map ApiToken.key (tokens w) ++ [default_token (rng w)])%list
        ∧ rng w' = S (rng w)))
  ∧ ∀ r, r ∈ tokens w → ApiToken.revoked r = true →
         ∃ r', r' ∈ tokens w' ∧ ApiToken.id r' = ApiToken.id r
               ∧ ApiToken.key r' = ApiToken.key r ∧ ApiToken.revoked r' = true.
Proof.
  intros Hlaw Hwk. pose proof Hwk as [Hnd Hb].
  destruct op; cbn [respond].
  - (* issue *)
    unfold bind at 1.
    destruct (GetAuthToken.get request w) as [[data w1]|e] eqn:Hget; [| done].
    intros [= _ <-].
    destruct (user request) as [|u] eqn:Hu.
    { unfold GetAuthToken.get in Hget. by rewrite Hu in Hget. }
    set (name := sanitize_name (Py.get_str (query_params request) "name" "")).
    destruct (head (List.filter (GetAuthToken.reusable (User.pk u) name (today w))
                      (tokens w))) as [tk0|] eqn:Eh.
    + assert (GetAuthToken.found_or_created request u w = Ok (tk0, w)) as Hf.
      { unfold GetAuthToken.found_or_created, GetAuthToken.lookup, bind. fold name.
        by rewrite Eh. }
      destruct (get_run request u w w tk0 Hlaw Hu Hf)
        as (m & w2 & Hget' & Htok & Hid & Hrng & _).
      rewrite Hget' in Hget. injection Hget as _ <-.
      pose proof (head_filter_Some _ _ _ Eh) as [Hin0 Hre0].
      split; [| split].
      * apply (well_keyed_save w w2 (ApiToken.with_metadata m tk0)); try done.
        apply elem_of_map. by exists tk0.
      * left. split; [| done]. rewrite Htok.
        by destruct (save_metadata_keys m tk0 (tokens w) Hnd Hin0) as [_ ->].
      * intros r Hr Hrev. exists r. split; [| done].
        rewrite Htok. apply save_keeps_others; [done |].
        intros E. cbn in E.
        rewrite (pk_names_row _ r tk0 Hnd Hr Hin0 E) in Hrev.
        by rewrite revoked_not_reusable in Hre0.
    + pose proof (proj1 (head_filter_None _ _) Eh) as Hnone.
      destruct (get_creates request u w Hlaw Hb Hu Hnone)
        as (m & w2 & Hget' & Htok & Hid & Hrng).
      cbn zeta in Hget', Htok. rewrite Hget' in Hget. injection Hget as _ <-.
      split; [| split].
      * by eapply well_keyed_append.
      * right. split; [| done]. by rewrite Htok, map_app.
      * intros r Hr Hrev. exists r. split; [| done].
        rewrite Htok. apply elem_of_app. by left.
  - (* list *)
    unfold TokenListView.list, bind.
    destruct (TokenMixin.get_queryset request w) as [[queryset w0]|e] eqn:Eq; [| done].
    apply get_queryset_ok in Eq as [-> _].
    destruct (filter_backends request queryset) as [rows|e]; [| done].
    intros [= _ <-].
    split; [done |]. split; [by left |]. intros r Hr Hrev. by exists r.
  - (* create *)
    unfold bind at 1. unfold TokenListView.create, TokenListView.super_create, bind.
    destruct (validated_data request) as [[user_pk name]|e]; [| done].
    unfold objects_create, ret.
    destruct (Py.dict_get (ApiTokenSerializer _) "id") as [[| | id | |]|]; try done.
    unfold objects_get. destruct (List.filter _ _) as [|tk [|tk2 l]]; try done.
    intros [= _ <-]. split; [| split].
    + by eapply well_keyed_append.
    + right. split; [| done]. cbn [tokens insert_token]. by rewrite map_app.
    + intros r Hr Hrev. exists r. split; [| done].
      cbn. apply elem_of_app. by left.
  - (* retrieve *)
    unfold bind at 1. unfold TokenDetailView.retrieve, bind.
    destruct (TokenMixin.get_object request w) as [[tk w0]|e] eqn:Eo; [| done].
    apply get_object_ok in Eo as [-> _]. intros [= _ <-].
    split; [done |]. split; [by left |]. intros r Hr Hrev. by exists r.
  - (* revoke *)
    unfold bind at 1. unfold TokenDetailView.destroy, bind.
    destruct (TokenMixin.get_object request w) as [[tk w0]|e] eqn:Eo; [| done].
    apply get_object_ok in Eo as [-> Hin]. intros [= _ <-].
    split; [| split].
    + eapply (well_keyed_save w _ (ApiToken.with_revoked true tk)); try done.
      apply elem_of_map. by exists tk.
    + left. split; [| done]. cbn [tokens set_tokens].
      by destruct (save_copy_columns tk (ApiToken.with_revoked true tk) (tokens w)
                     Hnd Hin eq_refl eq_refl) as [_ ->].
    + intros r Hr Hrev.
      destruct (decide (ApiToken.id r = ApiToken.id tk)) as [E|E].
      * exists (ApiToken.with_revoked true tk). split; [apply save_elem |].
        by rewrite (pk_names_row _ r tk Hnd Hr Hin E).
      * exists r. split; [| done]. by apply save_keeps_others.
Qed.

(** With a generator that gives no key twice, one answered request keeps
    the table sound. *)
Lemma respond_sound (op : operation) (request : Request) (w w' : World)
    (records : list Py.dict) :
  metadata_only →
  generator_fresh →
  sound w →
  respond op request w = Ok (records, w') →
  sound w'.
Proof.
  intros Hlaw Hgen (Hwk & Hku & Hkd) Hstep.
  destruct (respond_keeps op request w w' records Hlaw Hwk Hstep)
    as (Hwk' & [[Hkeys Hrng] | [Hkeys Hrng]] & _).
  - split; [done |]. split; [unfold keys_unique; by rewrite Hkeys |].
    intros r n Hr Hn.
    destruct (same_column ApiToken.key (tokens w) (tokens w') r Hkeys Hr) as (r0 & Hr0 & <-).
    apply Hkd; [done | lia].
  - split; [done |]. split.
    + unfold keys_unique. rewrite Hkeys. apply NoDup_app.
      split; [exact Hku |]. split; [| apply NoDup_singleton].
      intros k (r & <- & Hr)%elem_of_map [E|[]%not_elem_of_nil]%elem_of_cons.
      by apply (Hkd r (rng w) Hr).
    + intros r n Hr Hn.
      assert (ApiToken.key r ∈ map ApiToken.key (tokens w')) as Hk
        by (apply elem_of_map; by exists r).
      rewrite Hkeys in Hk.
      apply elem_of_app in Hk as [(r0 & <- & Hr0)%elem_of_map | ->%list_elem_of_singleton].
      * apply Hkd; [done | lia].
      * intros E%Hgen. lia.
Qed.

Lemma reaches_keeps (w w' : World) :
  metadata_only →
  generator_fresh →
  reaches w w' →
  sound w →
  sound w'
  ∧ ∀ r, r ∈ tokens w → ApiToken.revoked r = true →
         ∃ r', r' ∈ tokens w' ∧ ApiToken.id r' = ApiToken.id r
               ∧ ApiToken.key r' = ApiToken.key r ∧ ApiToken.revoked r' = true.
Proof.
  intros Hlaw Hgen Hreach.
  induction Hreach as [w|w op request day records w1 w2 Hstep _ IH].
  - intros Hs. split; [done |]. intros r Hr Hrev. by exists r.
  - intros Hs.
    assert (sound (set_today day w)) as Hs0 by exact Hs.
    pose proof (respond_sound op request _ w1 records Hlaw Hgen Hs0 Hstep) as Hs1.
    destruct Hs0 as [Hwk0 _].
    destruct (respond_keeps op request _ w1 records Hlaw Hwk0 Hstep) as (_ & _ & Hrows1).
    destruct (IH Hs1) as [Hs2 Hrows2]. split; [done |].
    intros r Hr Hrev.
    destruct (Hrows1 r Hr Hrev) as (r1 & Hr1 & Hid1 & Hkey1 & Hrev1).
    destruct (Hrows2 r1 Hr1 Hrev1) as (r2 & Hr2 & Hid2 & Hkey2 & Hrev2).
    exists r2. repeat split; congruence.
Qed.
End RunsProofs.

Section Revocation.
Context {models : Models} {serializers : Serializers}.

(** C2: [perform_destroy] leaves the row of the token revoked, and
    whatever token requests are answered afterwards, the row under that
    primary key stays revoked, keeps its key, and is matched by no reuse
    lookup, for whatever user, name and day; every issue request answered
    afterwards is answered with another row and another key.  When the
    revoked token was the only one the lookup could have matched for its
    user and name, the next [get] for that user and name appends a new
    row, under a primary key the table did not have, and answers with its
    key, fresh from the generator.  The table is taken to be sound and the
    generator to give no key twice. *)
Theorem revoke_is_terminal (request : Request) (u : User.t) (w : World)
    (tk : ApiToken.t) (day : Z) :
  metadata_only →
  generator_fresh →
  sound w →
  tk ∈ tokens w →
  ∃ w1,
    TokenDetailView.perform_destroy tk w = Ok (tt, w1)
    ∧ (∀ w2 r, reaches w1 w2 → r ∈ tokens w2 → ApiToken.id r = ApiToken.id tk →
               ApiToken.revoked r = true
               ∧ ApiToken.key r = ApiToken.key tk
               ∧ ∀ user_pk name d, GetAuthToken.reusable user_pk name d r = false)
    ∧ (∀ w2 request' d data w3,
         reaches w1 w2 →
         GetAuthToken.get request' (set_today d w2) = Ok (data, w3) →
         ∃ r, r ∈ tokens w3
              ∧ data = [("token", Py.PyStr (ApiToken.key r));
                        ("name", Py.PyStr (ApiToken.name r));
                        ("expiry", Py.PyDate (ApiToken.expiry r))]
              ∧ ApiToken.id r ≠ ApiToken.id tk
              ∧ ApiToken.key r ≠ ApiToken.key tk
              ∧ ApiToken.revoked r = false)
    ∧ (user request = Authenticated u →
       User.pk u = ApiToken.user tk →
       sanitize_name (Py.get_str (query_params request) "name" "") = ApiToken.name tk →
       (∀ r, r ∈ tokens w →
             GetAuthToken.reusable (User.pk u) (ApiToken.name tk) day r = true →
             r = tk) →
       ∃ new w2,
         GetAuthToken.get request (set_today day w1)
         = Ok ([("token", Py.PyStr (ApiToken.key new));
                ("name", Py.PyStr (ApiToken.name new));
                ("expiry", Py.PyDate (ApiToken.expiry new))], w2)
         ∧ tokens w2 = (tokens w1 ++ [new])%list
         ∧ (ApiToken.id new ∉ map ApiToken.id (tokens w1))
         ∧ ApiToken.key new = default_token (rng w)
         ∧ ApiToken.key new ≠ ApiToken.key tk
         ∧ ApiToken.revoked new = false
         ∧ ApiToken.user new = ApiToken.user tk
         ∧ ApiToken.name new = ApiToken.name tk).
Proof.
  intros Hlaw Hgen Hs Hin. pose proof Hs as ([Hnd Hb] & Hku & Hkd).
  set (w1 := set_tokens (save (ApiToken.with_revoked true tk)) w).
  destruct (save_copy_columns tk (ApiToken.with_revoked true tk) (tokens w)
              Hnd Hin eq_refl eq_refl) as [Hids1 Hkeys1].
  assert (sound w1) as Hs1.
  { split; [| split].
    - apply (well_keyed_save w w1 (ApiToken.with_revoked true tk)); try done.
      apply elem_of_map. by exists tk.
    - unfold keys_unique. cbn [tokens w1 set_tokens]. by rewrite Hkeys1.
    - intros r n Hr Hn.
      destruct (same_column ApiToken.key (tokens w) (tokens w1) r Hkeys1 Hr)
        as (r0 & Hr0 & <-).
      by apply Hkd. }
  assert (∀ w2, reaches w1 w2 →
                sound w2
                ∧ ∃ r', r' ∈ tokens w2 ∧ ApiToken.id r' = ApiToken.id tk
                        ∧ ApiToken.key r' = ApiToken.key tk
                        ∧ ApiToken.revoked r' = true) as Hlater.
  { intros w2 Hreach.
    destruct (reaches_keeps w1 w2 Hlaw Hgen Hreach Hs1) as [Hs2 Hrows].
    split; [done |].
    apply (Hrows (ApiToken.with_revoked true tk)); [apply save_elem | reflexivity]. }
  exists w1. split; [reflexivity |]. split; [| split].
  - intros w2 r Hreach Hr Hid.
    destruct (Hlater w2 Hreach) as (([Hnd2 _] & _) & r' & Hr' & Hid' & Hkey' & Hrev').
    assert (r = r') as -> by (apply (pk_names_row (tokens w2)); [done .. | congruence]).
    split; [done |]. split; [done |]. intros. by apply revoked_not_reusable.
  - intros w2 request' d data w3 Hreach Hget.
    destruct (Hlater w2 Hreach)
      as (([Hnd2 Hb2] & Hku2 & Hkd2) & r' & Hr' & Hid' & Hkey' & Hrev').
    destruct (user request') as [|u'] eqn:Hu'.
    { unfold GetAuthToken.get in Hget. by rewrite Hu' in Hget. }
    set (name := sanitize_name (Py.get_str (query_params request') "name" "")).
    destruct (head (List.filter (GetAuthToken.reusable (User.pk u') name d) (tokens w2)))
      as [tk0|] eqn:Eh.
    + assert (GetAuthToken.found_or_created request' u' (set_today d w2)
              = Ok (tk0, set_today d w2)) as Hf.
      { unfold GetAuthToken.found_or_created, GetAuthToken.lookup, bind. fold name.
        cbn [today tokens set_today]. by rewrite Eh. }
      destruct (get_run request' u' _ _ tk0 Hlaw Hu' Hf) as (m & w4 & Hget' & Htok & _).
      rewrite Hget' in Hget. injection Hget as <- <-.
      pose proof (head_filter_Some _ _ _ Eh) as [Hin0 Hre0].
      assert (ApiToken.revoked tk0 = false) as Hrev0.
      { destruct (ApiToken.revoked tk0) eqn:E; [| done].
        by rewrite revoked_not_reusable in Hre0. }
      exists (ApiToken.with_metadata m tk0).
      split; [rewrite Htok; apply save_elem |]. split; [done |].
      cbn [ApiToken.id ApiToken.key ApiToken.revoked ApiToken.with_metadata].
      split; [| split; [| done]].
      * intros E. rewrite <- Hid' in E.
        rewrite (pk_names_row _ tk0 r' Hnd2 Hin0 Hr' E) in Hrev0. congruence.
      * intros E. rewrite <- Hkey' in E.
        rewrite (column_names_row ApiToken.key _ tk0 r' Hku2 Hin0 Hr' E) in Hrev0.
        congruence.
    + pose proof (proj1 (head_filter_None _ _) Eh) as Hnone.
      destruct (get_creates request' u' (set_today d w2) Hlaw Hb2 Hu' Hnone)
        as (m & w4 & Hget' & Htok & _).
      cbn zeta in Hget', Htok. rewrite Hget' in Hget. injection Hget as <- <-.
      eexists. split; [rewrite Htok; apply elem_of_app; right; apply list_elem_of_here |].
      split; [reflexivity |]. cbn. split; [| split; [| done]].
      * intros E. apply Hb2 in Hr'. lia.
      * intros E. apply (Hkd2 r' (rng w2) Hr'); [done | congruence].
  - intros Hu Hpk Hname Honly.
    destruct Hs1 as ([_ Hb1] & _ & _).
    destruct (get_creates request u (set_today day w1) Hlaw) as (m & w2 & Hget & Htok & _).
    + exact Hb1.
    + exact Hu.
    + intros r Hr. cbn [today set_today]. rewrite Hname.
      apply (perform_destroy_rows tk w r Hin) in Hr as [-> | [Hr Hne]];
        [by apply revoked_not_reusable |].
      destruct (GetAuthToken.reusable _ _ day r) eqn:E; [| done].
      apply Honly in E; [| done]. by subst.
    + cbn zeta in Hget, Htok. eexists _, w2. split; [exact Hget |].
      split; [exact Htok |]. cbn.
      repeat split; try done.
      * intros (r & Hid & Hr)%elem_of_map. apply Hb1 in Hr. cbn in Hr. lia.
      * intros E. by apply (Hkd tk (rng w) Hin).
Qed.
End Revocation.

Section Expiry.
Context {models : Models}.

(** C6: a token of the table whose expiry is before today is matched by
    no reuse lookup; when nothing else can be reused for the requested
    name either, [get] appends a new row; and [get_queryset] still hands
    the expired token to its owner and, with [all_users], to a
    superuser. *)
Theorem expired_is_passed_over_yet_listed (w : World) (tk : ApiToken.t) :
  metadata_only →
  pk_bounded w →
  tk ∈ tokens w →
  ApiToken.expiry tk < today w →
  (∀ user_pk name,
     GetAuthToken.reusable user_pk name (today w) tk = false
     ∧ ∃ o, GetAuthToken.lookup user_pk name w = Ok (o, w) ∧ o ≠ Some tk)
  ∧ (∀ request u,
       user request = Authenticated u →
       (∀ r, r ∈ tokens w →
             GetAuthToken.reusable (User.pk u)
               (sanitize_name (Py.get_str (query_params request) "name" ""))
               (today w) r = true →
             r = tk) →
       ∃ new w',
         GetAuthToken.get request w
         = Ok ([("token", Py.PyStr (ApiToken.key new));
                ("name", Py.PyStr (ApiToken.name new));
                ("expiry", Py.PyDate (ApiToken.expiry new))], w')
         ∧ tokens w' = (tokens w ++ [new])%list
         ∧ ApiToken.id new = next_id w
         ∧ ApiToken.key new = default_token (rng w))
  ∧ (∀ request u,
       user request = Authenticated u →
       User.pk u = ApiToken.user tk
       ∨ (User.is_superuser u = true
          ∧ Py.truthy (Py.get (query_params request) "all_users" (Py.PyBool false)) = true) →
       ∃ queryset, TokenMixin.get_queryset request w = Ok (queryset, w)
                   ∧ tk ∈ queryset).
Proof.
  intros Hlaw Hb Hin Hexp. split; [| split].
  - intros user_pk name.
    pose proof (expired_not_reusable user_pk name (today w) tk Hexp) as Hno.
    split; [done |]. eexists. split; [reflexivity |].
    intros [_ Hre]%head_filter_Some. congruence.
  - intros request u Hu Honly.
    destruct (get_creates request u w Hlaw Hb Hu) as (m & w' & Hget & Htok & _).
    + intros r Hr.
      destruct (GetAuthToken.reusable _ _ (today w) r) eqn:E; [| done].
      pose proof (Honly r Hr E) as ->.
      by rewrite expired_not_reusable in E.
    + cbn zeta in Hget, Htok. by eexists _, w'.
  - intros request u Hu Hscope. unfold TokenMixin.get_queryset. rewrite Hu.
    cbn [actor_is_superuser].
    destruct (User.is_superuser u
              && Py.truthy (Py.get (query_params request) "all_users" (Py.PyBool false)))
      eqn:E.
    + by exists (tokens w).
    + eexists. split; [reflexivity |]. apply elem_of_filterb. split; [done |].
      destruct Hscope as [-> | [Hs Ht]]; [apply Z.eqb_refl |].
      rewrite Hs, Ht in E. done.
Qed.
End Expiry.

(** ** C4 and C10: the scope of the token list *)

(** C4: for an authenticated requester [get_queryset] hands out the whole
    table when the requester is a superuser and asks for [all_users], and
    otherwise exactly the rows of the requester, in table order; whoever is
    not a superuser gets rows of their own only. *)
Theorem list_scope (request : Request) (u : User.t) (w : World) :
  user request = Authenticated u →
  ∃ queryset,
    TokenMixin.get_queryset request w = Ok (queryset, w)
    ∧ (User.is_superuser u = true →
       Py.truthy (Py.get (query_params request) "all_users" (Py.PyBool false)) = true →
       queryset = tokens w)
    ∧ (User.is_superuser u = false
       ∨ Py.truthy (Py.get (query_params request) "all_users" (Py.PyBool false)) = false →
       queryset = List.filter (fun tk => ApiToken.user tk =? User.pk u) (tokens w)
       ∧ ∀ tk, tk ∈ queryset ↔ tk ∈ tokens w ∧ ApiToken.user tk = User.pk u)
    ∧ (User.is_superuser u = false →
       ∀ tk, tk ∈ queryset → ApiToken.user tk = User.pk u).
Proof.
  intros Hu. unfold TokenMixin.get_queryset. rewrite Hu. cbn [actor_is_superuser].
  destruct (User.is_superuser u) eqn:Es;
    destruct (Py.truthy (Py.get (query_params request) "all_users" (Py.PyBool false)))
      eqn:Et; cbn [andb]; eexists; (split; [reflexivity |]).
  - split; [done |]. split; [intros [?|?]; done | done].
  - split; [done |]. split; [| done]. intros _. split; [done |].
    intros tk. rewrite elem_of_filterb. by rewrite Z.eqb_eq.
  - split; [done |]. split.
    + intros _. split; [done |].
      intros tk. rewrite elem_of_filterb. by rewrite Z.eqb_eq.
    + intros _ tk [_ E%Z.eqb_eq]%elem_of_filterb. done.
  - split; [done |]. split.
    + intros _. split; [done |].
      intros tk. rewrite elem_of_filterb. by rewrite Z.eqb_eq.
    + intros _ tk [_ E%Z.eqb_eq]%elem_of_filterb. done.
Qed.

(** C10: [all_users] counts by the truth value of its text.  For a
    superuser every non-empty value, "false" and "0" among them, gives the
    whole table, and no value gives the superuser's own rows; for anyone
    else the parameter changes nothing and raises nothing: the answer is
    the requester's own rows. *)
Theorem all_users_is_truthiness (request : Request) (u : User.t) (w : World) :
  user request = Authenticated u →
  let own := List.filter (fun tk => ApiToken.user tk =? User.pk u) (tokens w) in
  (User.is_superuser u = true →
   (∀ s, query_params request !! "all_users" = Some s → s ≠ "" →
         TokenMixin.get_queryset request w = Ok (tokens w, w))
   ∧ (query_params request !! "all_users" = Some "false" →
      TokenMixin.get_queryset request w = Ok (tokens w, w))
   ∧ (query_params request !! "all_users" = Some "0" →
      TokenMixin.get_queryset request w = Ok (tokens w, w))
   ∧ (query_params request !! "all_users" = None →
      TokenMixin.get_queryset request w = Ok (own, w)))
  ∧ (User.is_superuser u = false →
     TokenMixin.get_queryset request w = Ok (own, w)).
Proof.
  intros Hu own.
  assert (∀ s, query_params request !! "all_users" = Some s → s ≠ "" →
               User.is_superuser u = true →
               TokenMixin.get_queryset request w = Ok (tokens w, w)) as Hall.
  { intros s Hs Hne Hsu. unfold TokenMixin.get_queryset, Py.get.
    rewrite Hu, Hs. cbn [actor_is_superuser Py.truthy]. rewrite Hsu.
    destruct (String.eqb_spec s ""); done. }
  split.
  - intros Hsu. repeat split.
    + intros s Hs Hne. by apply (Hall s).
    + intros Hs. by apply (Hall "false").
    + intros Hs. by apply (Hall "0").
    + intros Hn. unfold TokenMixin.get_queryset, Py.get.
      rewrite Hu, Hn. cbn [actor_is_superuser Py.truthy]. by rewrite Hsu.
  - intros Hsu. unfold TokenMixin.get_queryset.
    rewrite Hu. cbn [actor_is_superuser]. by rewrite Hsu.
Qed.

(** ** C8: the self endpoint *)

(** C8: for every authenticated actor, whatever the method, the staff flag,
    the group memberships and the rule sets, the permission check of
    [MeUserDetail] passes, and the object the update is applied to is the
    actor's own record. *)
Theorem self_edit_always_permitted (request : Request) (u : User.t) (w : World) :
  user request = Authenticated u →
  Permissions.check_permissions MeUserDetail.view request w = Ok (tt, w)
  ∧ MeUserDetail.update request w = Ok (Authenticated u, w).
Proof.
  intros Hu.
  assert (Permissions.check_permissions MeUserDetail.view request w = Ok (tt, w)) as Hc.
  { unfold Permissions.check_permissions, Permissions.has_permission.
    cbn [MeUserDetail.view Permissions.permission_classes forallb].
    by rewrite Hu. }
  split; [done |].
  unfold MeUserDetail.update, bind. rewrite Hc.
  unfold ret, MeUserDetail.get_object. by rewrite Hu.
Qed.

(** The same change on the general endpoint is refused to whoever is not
    staff. *)
Lemma user_detail_refuses_non_staff (request : Request) (u : User.t) (w : World) :
  user request = Authenticated u →
  User.is_staff u = false →
  method request = "PATCH" →
  Permissions.check_permissions UserDetail.view request w = Raise PermissionDenied.
Proof.
  intros Hu Hs Hm.
  unfold Permissions.check_permissions, Permissions.has_permission.
  cbn [UserDetail.view Permissions.permission_classes forallb].
  rewrite Hu, Hs, Hm. reflexivity.
Qed.

(** ** C9: a failure while the metadata are recorded *)

Section MetadataFailure.
Context {models : Models}.

Lemma found_or_created_total (request : Request) (u : User.t) (w : World) :
  ∃ tk w1, GetAuthToken.found_or_created request u w = Ok (tk, w1).
Proof.
  unfold GetAuthToken.found_or_created, GetAuthToken.lookup, bind.
  destruct (head _); by eexists _, _.
Qed.

(** [get] is its two parts, then the answer and the login. *)
Lemma get_parts (request : Request) (u : User.t) (w : World) :
  user request = Authenticated u →
  GetAuthToken.get request w
  = (let* token := GetAuthToken.found_or_created request u in
     let* token := GetAuthToken.record_metadata request token in
     let* session := gets session_user in
     let* _ := match session with
               | Some _ => ret tt
               | None => modify (set_session_user (Some (User.pk u)))
               end in
     ret [("token", Py.PyStr (ApiToken.key token));
          ("name", Py.PyStr (ApiToken.name token));
          ("expiry", Py.PyDate (ApiToken.expiry token))]) w.
Proof.
  intros Hu. unfold GetAuthToken.get. rewrite Hu.
  unfold GetAuthToken.found_or_created, GetAuthToken.record_metadata, bind.
  destruct (GetAuthToken.lookup _ _ w) as [[o w0]|e]; [| done].
  destruct (match o with Some tk => ret tk | None => _ end w0) as [[tk w1]|e]; [| done].
  repeat (destruct (set_metadata _ _ _ _) as [[? ?]|?]; [| done]).
  done.
Qed.

(** C9, amended: nothing catches a failure of [set_metadata].  When
    recording the metadata of the token found or created raises, [get]
    raises that exception and answers nothing; [get] answers only when
    all six calls went through, and then with the key of the instance
    they handed back. *)
Theorem metadata_failure_fails_issue (request : Request) (u : User.t)
    (w w1 : World) (tk : ApiToken.t) :
  user request = Authenticated u →
  GetAuthToken.found_or_created request u w = Ok (tk, w1) →
  (∀ e, GetAuthToken.record_metadata request tk w1 = Raise e →
        GetAuthToken.get request w = Raise e)
  ∧ (∀ e, set_metadata "user_agent"
            (Py.get_str (headers request) "user-agent" "") tk w1 = Raise e →
          GetAuthToken.get request w = Raise e)
  ∧ (∀ data w', GetAuthToken.get request w = Ok (data, w') →
                ∃ tk' w2,
                  GetAuthToken.record_metadata request tk w1 = Ok (tk', w2)
                  ∧ Py.dict_get data "token" = Some (Py.PyStr (ApiToken.key tk'))).
Proof.
  intros Hu Hf.
  assert (∀ e, GetAuthToken.record_metadata request tk w1 = Raise e →
               GetAuthToken.get request w = Raise e) as Hraise.
  { intros e He. rewrite (get_parts request u w Hu). unfold bind at 1. rewrite Hf.
    unfold bind at 1. by rewrite He. }
  split; [exact Hraise |]. split.
  - intros e He. apply Hraise. unfold GetAuthToken.record_metadata, bind.
    by rewrite He.
  - intros data w'. rewrite (get_parts request u w Hu). unfold bind at 1. rewrite Hf.
    unfold bind at 1.
    destruct (GetAuthToken.record_metadata request tk w1) as [[tk' w2]|e]; [| done].
    intros Hok. exists tk', w2. split; [done |].
    unfold bind, gets, ret, modify in Hok.
    destruct (session_user w2); injection Hok as <- _; reflexivity.
Qed.
End MetadataFailure.

(** C9, as stated, fails: on a database that refuses to save the metadata
    the issue request of an authenticated user ends in the database error,
    not in an answer with the key. *)
Lemma metadata_failure_not_swallowed :
  @GetAuthToken.get (failing_models team_names) ci_request world0 = Raise DatabaseError
  ∧ ¬ @swallows_metadata_failure (failing_models team_names).
Proof.
  assert (@GetAuthToken.get (failing_models team_names) ci_request world0
          = Raise DatabaseError) as Hget by (vm_compute; reflexivity).
  split; [exact Hget |].
  intros Hs. destruct (Hs ci_request alice world0 eq_refl) as (data & w' & Hok).
  rewrite Hget in Hok. discriminate.
Qed.

(** ** C3: which answers carry the key *)




Section KeyExposure.
Context {models : Models} {serializers : Serializers}.



End KeyExposure.

Lemma merge_metadata_only (names : Owner.t -> string) :
  @metadata_only (run_models names).
Proof. intros k v tk w. by eexists. Qed.





(** ** The theorems at work on the sample data *)

Lemma world0_pk_unique : pk_unique world0.
Proof. apply (bool_decide_unpack _). vm_compute. exact I. Defined.

Lemma world0_pk_bounded : pk_bounded world0.
Proof.
  intros tk Hin. cbn in Hin.
  repeat (apply elem_of_cons in Hin as [->|Hin]; [cbn; lia |]).
  by apply not_elem_of_nil in Hin.
Defined.

Lemma world0_sound : @sound (run_models team_names) world0.
Proof.
  split; [split; [apply world0_pk_unique | apply world0_pk_bounded] |]. split.
  - apply (bool_decide_unpack _). vm_compute. exact I.
  - intros tk n Hin _. cbn in Hin.
    repeat (apply elem_of_cons in Hin as [->|Hin]; [cbn; discriminate |]).
    by apply not_elem_of_nil in Hin.
Defined.

Lemma run_models_generator_fresh (names : Owner.t -> string) :
  @generator_fresh (run_models names).
Proof.
  intros n. induction n as [|n IH]; intros [|m]; cbn; try done.
  intros [= E]. f_equal. apply IH. cbn. by rewrite E.
Defined.

Lemma issue_reuses_existing_witness :
  ∃ w', @GetAuthToken.get (run_models team_names) ci_request world0
        = Ok ([("token", Py.PyStr "secret-of-alice"); ("name", Py.PyStr "ci");
               ("expiry", Py.PyDate 465)], w')
        ∧ map ApiToken.key (tokens w') = ["secret-of-alice"; "secret-of-old"]
        ∧ rng w' = 0%nat.
Proof.
  destruct (@issue_reuses_existing (run_models team_names) ci_request alice world0 ci_token)
    as (tk0 & w' & Hget & _ & _ & _ & _ & _ & Honly & _ & Hkeys & _ & Hrng).
  - apply merge_metadata_only.
  - apply world0_pk_unique.
  - reflexivity.
  - apply list_elem_of_here.
  - reflexivity.
  - vm_compute. reflexivity.
  - reflexivity.
  - cbn. lia.
  - exists w'. rewrite Hkeys, Hrng. split; [| done].
    rewrite Hget, Honly; [done |].
    intros t Hin. cbn in Hin.
    apply elem_of_cons in Hin as [->|Hin]; [done |].
    apply elem_of_cons in Hin as [->|Hin]; [intros Hre; vm_compute in Hre; discriminate |].
    by apply not_elem_of_nil in Hin.
Defined.

Lemma revoke_is_terminal_witness :
  ∃ w1 new w2,
    TokenDetailView.perform_destroy ci_token world0 = Ok (tt, w1)
    ∧ @GetAuthToken.get (run_models team_names) ci_request (set_today 200 w1)
      = Ok ([("token", Py.PyStr (ApiToken.key new));
             ("name", Py.PyStr (ApiToken.name new));
             ("expiry", Py.PyDate (ApiToken.expiry new))], w2)
    ∧ ApiToken.key new = "k"
    ∧ ApiToken.key new ≠ ApiToken.key ci_token.
Proof.
  destruct (@revoke_is_terminal (run_models team_names) spec_serializers
              ci_request alice world0 ci_token 200)
    as (w1 & Hd & _ & _ & Hnext).
  - apply merge_metadata_only.
  - apply run_models_generator_fresh.
  - apply world0_sound.
  - apply list_elem_of_here.
  - destruct Hnext as (new & w2 & Hget & _ & _ & Hkey & Hne & _).
    + reflexivity.
    + reflexivity.
    + vm_compute. reflexivity.
    + intros r Hin. cbn in Hin.
      apply elem_of_cons in Hin as [->|Hin]; [done |].
      apply elem_of_cons in Hin as [->|Hin]; [intros Hre; vm_compute in Hre; discriminate |].
      by apply not_elem_of_nil in Hin.
    + by exists w1, new, w2.
Defined.


(** With [?search=] the list is narrowed by the key: the token whose key
    holds the term is listed, and is not once the keys are others. *)
Example list_search_reads_key :
  body (@respond (run_models team_names) spec_serializers ListTokens search_request
          world0)
  = Ok [[("id", Py.PyInt 1); ("name", Py.PyStr "ci"); ("created", Py.PyDate 100);
         ("expiry", Py.PyDate 465); ("revoked", Py.PyBool false);
         ("user", Py.PyInt 1)]]
  ∧ body (@respond (run_models team_names) spec_serializers ListTokens search_request
            (rekey (fun _ => "other") world0))
    = Ok [].
Proof. split; vm_compute; reflexivity. Qed.

Lemma list_scope_witness :
  ∃ queryset,
    TokenMixin.get_queryset ci_request world0 = Ok (queryset, world0)
    ∧ ∀ tk, tk ∈ queryset → ApiToken.user tk = 1.
Proof.
  destruct (list_scope ci_request alice world0) as (queryset & Hq & _ & _ & Hown).
  - reflexivity.
  - exists queryset. split; [exact Hq |]. apply Hown. reflexivity.
Defined.

Lemma expired_is_passed_over_yet_listed_witness :
  @GetAuthToken.reusable 1 "old" 200 old_token = false
  ∧ (∃ new w', @GetAuthToken.get (run_models team_names) old_request world0
               = Ok ([("token", Py.PyStr (ApiToken.key new));
                      ("name", Py.PyStr (ApiToken.name new));
                      ("expiry", Py.PyDate (ApiToken.expiry new))], w')
               ∧ ApiToken.id new = 3)
  ∧ ∃ queryset, TokenMixin.get_queryset old_request world0 = Ok (queryset, world0)
                ∧ old_token ∈ queryset.
Proof.
  destruct (@expired_is_passed_over_yet_listed (run_models team_names) world0 old_token)
    as (Hre & Hnew & Hlist).
  - apply merge_metadata_only.
  - apply world0_pk_bounded.
  - apply list_elem_of_further, list_elem_of_here.
  - cbn. lia.
  - split; [apply (Hre 1 "old") |]. split.
    + destruct (Hnew old_request alice) as (new & w' & Hget & _ & Hid & _).
      * reflexivity.
      * intros r Hin. cbn in Hin.
        apply elem_of_cons in Hin as [->|Hin];
          [intros Hr; vm_compute in Hr; discriminate |].
        apply elem_of_cons in Hin as [->|Hin]; [done |].
        by apply not_elem_of_nil in Hin.
      * by exists new, w'.
    + apply (Hlist old_request alice); [reflexivity | by left].
Defined.

Lemma revoke_sets_flag_only_witness :
  ∃ w', TokenDetailView.perform_destroy ci_token world0 = Ok (tt, w')
        ∧ tokens w' !! 0%nat = Some (ApiToken.with_revoked true ci_token)
        ∧ tokens w' !! 1%nat = Some old_token.
Proof.
  destruct (revoke_sets_flag_only ci_token world0) as (w' & Hd & _ & Hrows & _).
  - apply world0_pk_unique.
  - apply list_elem_of_here.
  - exists w'. split; [exact Hd |]. split.
    + apply (Hrows 0%nat ci_token). reflexivity.
    + apply (Hrows 1%nat old_token). reflexivity.
Defined.

Lemma self_edit_always_permitted_witness :
  User.is_staff alice = false
  ∧ MeUserDetail.update patch_request world0 = Ok (Authenticated alice, world0).
Proof.
  split; [reflexivity |].
  apply (self_edit_always_permitted patch_request alice world0). reflexivity.
Defined.

Lemma metadata_failure_fails_issue_witness :
  @GetAuthToken.get (failing_models team_names) ci_request world0 = Raise DatabaseError.
Proof.
  apply (@metadata_failure_fails_issue (failing_models team_names) ci_request alice
           world0 world0 ci_token).
  - reflexivity.
  - vm_compute. reflexivity.
  - reflexivity.
Defined.

Lemma all_users_is_truthiness_witness :
  TokenMixin.get_queryset all_users_request world0 = Ok (tokens world0, world0).
Proof.
  destruct (all_users_is_truthiness all_users_request root world0 eq_refl)
    as [Hsuper _].
  destruct (Hsuper eq_refl) as (_ & Hfalse & _).
  apply Hfalse. vm_compute. reflexivity.
Defined.

Lemma owner_search_keeps_witness :
  team ∈ @OwnerList.filter_queryset (run_models team_names) spaces_request world0 [team].
Proof.
  destruct (@owner_search_keeps (run_models team_names) spaces_request world0 [team] team)
    as (_ & Hgroup & _).
  apply Hgroup.
  - discriminate.
  - split; [apply list_elem_of_here |].
    assert (entries (Py.get_str (query_params spaces_request) "search" "")
            = ["a"; ""; "b"]) as -> by (vm_compute; reflexivity).
    assert (Py.strip (Py.lower (@owner_name (run_models team_names) team)) = "a b")
      as -> by (vm_compute; reflexivity).
    intros entry Hin.
    apply elem_of_cons in Hin as [->|Hin]; [by exists "", " b" |].
    apply elem_of_cons in Hin as [->|Hin]; [by exists "", "a b" |].
    apply elem_of_cons in Hin as [->|Hin]; [by exists "a ", "" |].
    by apply not_elem_of_nil in Hin.
Defined.

(** * Further properties of the views *)

(** ** [GetAuthToken.get]: what it answers and what it touches *)

Section IssueMore.
Context {models : Models}.

(** The state [get] ends in, in full. *)
Lemma get_run_world (request : Request) (u : User.t) (w w1 : World) (tk : ApiToken.t) :
  metadata_only →
  user request = Authenticated u →
  GetAuthToken.found_or_created request u w = Ok (tk, w1) →
  ∃ m,
    GetAuthToken.get request w
    = Ok (issued tk,
          match session_user w1 with
          | Some _ => set_tokens (save (ApiToken.with_metadata m tk)) w1
          | None => set_session_user (Some (User.pk u))
                      (set_tokens (save (ApiToken.with_metadata m tk)) w1)
          end).
Proof.
  intros Hlaw Hu Hf. unfold GetAuthToken.get. rewrite Hu.
  unfold GetAuthToken.found_or_created in Hf. unfold bind in *.
  destruct (GetAuthToken.lookup _ _ w) as [[o w0]|e]; [| done].
  rewrite Hf.
  destruct (Hlaw "user_agent" (Py.get_str (headers request) "user-agent" "") tk w1)
    as [m1 ->].
  destruct (set_metadata_again "remote_addr"
              (Py.get_str (META request) "REMOTE_ADDR" "") m1 tk w1 Hlaw) as [m2 ->].
  destruct (set_metadata_again "remote_host"
              (Py.get_str (META request) "REMOTE_HOST" "") m2 tk w1 Hlaw) as [m3 ->].
  destruct (set_metadata_again "remote_user"
              (Py.get_str (META request) "REMOTE_USER" "") m3 tk w1 Hlaw) as [m4 ->].
  destruct (set_metadata_again "server_name"
              (Py.get_str (META request) "SERVER_NAME" "") m4 tk w1 Hlaw) as [m5 ->].
  destruct (set_metadata_again "server_port"
              (Py.get_str (META request) "SERVER_PORT" "") m5 tk w1 Hlaw) as [m6 ->].
  exists m6. unfold gets, modify, ret. cbn [session_user set_tokens].
  by destruct (session_user w1).
Qed.

(** The two ways the first half of [get] can go. *)
Lemma found_or_created_cases (request : Request) (u : User.t) (w : World) :
  let name := sanitize_name (Py.get_str (query_params request) "name" "") in
  (∃ tk, GetAuthToken.found_or_created request u w = Ok (tk, w)
         ∧ tk ∈ tokens w
         ∧ GetAuthToken.reusable (User.pk u) name (today w) tk = true)
  ∨ (∃ tk, GetAuthToken.found_or_created request u w = Ok (tk, insert_token tk w)
           ∧ tk = {| ApiToken.id := next_id w; ApiToken.user := User.pk u;
                     ApiToken.name := name; ApiToken.key := default_token (rng w);
                     ApiToken.created := today w;
                     ApiToken.expiry := default_token_expiry (today w);
                     ApiToken.revoked := false; ApiToken.metadata := ∅ |}
           ∧ ∀ r, r ∈ tokens w →
                  GetAuthToken.reusable (User.pk u) name (today w) r = false).
Proof.
  intros name.
  unfold GetAuthToken.found_or_created, GetAuthToken.lookup, bind. fold name.
  destruct (head (List.filter (GetAuthToken.reusable (User.pk u) name (today w))
                    (tokens w))) as [tk0|] eqn:Eh.
  - left. exists tk0. split; [done |]. by apply head_filter_Some.
  - right. eexists. split; [reflexivity |]. split; [reflexivity |].
    by apply head_filter_None.
Qed.

(** X2: an issue request is answered with a token of the requester, under
    the sanitized name asked for, not revoked, and either still valid
    today or just created; the row of that token is in the table. *)
Theorem issue_answers_own_token (request : Request) (u : User.t) (w w' : World)
    (data : Py.dict) :
  metadata_only →
  user request = Authenticated u →
  GetAuthToken.get request w = Ok (data, w') →
  ∃ r, r ∈ tokens w'
       ∧ data = issued r
       ∧ ApiToken.user r = User.pk u
       ∧ ApiToken.name r = sanitize_name (Py.get_str (query_params request) "name" "")
       ∧ ApiToken.revoked r = false
       ∧ (today w ≤ ApiToken.expiry r
          ∨ ApiToken.expiry r = default_token_expiry (today w)).
Proof.
  intros Hlaw Hu Hget.
  destruct (found_or_created_cases request u w)
    as [(tk & Hf & Hin & Hre) | (tk & Hf & -> & _)];
    destruct (get_run_world request u w _ _ Hlaw Hu Hf) as [m Hget'];
    rewrite Hget' in Hget; injection Hget as <- <-.
  - exists (ApiToken.with_metadata m tk).
    split; [destruct (session_user w); apply save_elem |].
    unfold GetAuthToken.reusable in Hre.
    apply andb_prop in Hre as [[[Hu0%Z.eqb_eq Hn0%String.eqb_eq]%andb_prop
                                  Hr0%negb_true_iff]%andb_prop He0%Z.leb_le].
    repeat split; try done. by left.
  - eexists (ApiToken.with_metadata m _).
    split; [destruct (session_user w); apply save_elem |].
    repeat split; try done. by right.
Qed.

Lemma tokens_after_login (o : option Z) (pk : Z) (w : World) :
  tokens (match o with
          | Some _ => w
          | None => set_session_user (Some pk) w
          end) = tokens w.
Proof. by destruct o. Qed.

(** The rows of the table after [get]. *)
Lemma get_rows (request : Request) (u : User.t) (w w' : World)
    (data : Py.dict) :
  metadata_only →
  well_keyed w →
  user request = Authenticated u →
  GetAuthToken.get request w = Ok (data, w') →
  (length (tokens w) ≤ length (tokens w') ≤ S (length (tokens w)))%nat
  ∧ ∀ (i : nat) (r : ApiToken.t),
      tokens w !! i = Some r →
      ∃ r', tokens w' !! i = Some r'
            ∧ same_but_metadata r r'
            ∧ (data ≠ issued r' → r' = r).
Proof.
  intros Hlaw [Hnd Hb] Hu Hget.
  destruct (found_or_created_cases request u w)
    as [(tk & Hf & Hin & Hre) | (tk & Hf & Etk & _)];
    destruct (get_run_world request u w _ _ Hlaw Hu Hf) as [m Hget'];
    rewrite Hget' in Hget; injection Hget as <- <-;
    rewrite tokens_after_login; cbn [tokens set_tokens insert_token].
  - rewrite (save_present (ApiToken.with_metadata m tk))
      by (apply (elem_of_map ApiToken.id); exists tk; by split).
    split; [rewrite length_map; lia |].
    intros i r Hi. rewrite lookup_map, Hi. cbn [fmap option_fmap option_map].
    eexists. split; [reflexivity |]. cbn [ApiToken.id ApiToken.with_metadata].
    destruct (Z.eqb_spec (ApiToken.id r) (ApiToken.id tk)) as [E|E].
    + assert (r ∈ tokens w) as Hr by (by apply list_elem_of_lookup_2 in Hi).
      rewrite (pk_names_row _ r tk Hnd Hr Hin E). split; [done |]. by intros [].
    + split; [by destruct r | done].
  - assert (save (ApiToken.with_metadata m tk) (tokens w ++ [tk])
            = (tokens w ++ [ApiToken.with_metadata m tk])%list) as ->.
    { rewrite save_present
        by (rewrite map_app, elem_of_app; right; apply list_elem_of_here).
      rewrite map_app. cbn [map ApiToken.id ApiToken.with_metadata].
      rewrite Z.eqb_refl. f_equal.
      rewrite <- (map_id (tokens w)) at 2. apply map_ext_in.
      intros r Hr%list_elem_of_In. apply Hb in Hr. rewrite Etk. cbn [ApiToken.id].
      destruct (Z.eqb_spec (ApiToken.id r) (next_id w)); [lia | done]. }
    split; [rewrite length_app; cbn; lia |].
    intros i r Hi. exists r.
    split; [by apply lookup_app_l_Some |]. split; [by destruct r | done].
Qed.

(** X3: an issue request changes the token table in one row at most.  Every
    row that was there keeps its place and everything but, for the one row
    answered with, its metadata; at most one row is added, at the end. *)
Theorem issue_touches_one_row (request : Request) (u : User.t) (w w' : World)
    (data : Py.dict) :
  metadata_only →
  well_keyed w →
  user request = Authenticated u →
  GetAuthToken.get request w = Ok (data, w') →
  (length (tokens w) ≤ length (tokens w') ≤ S (length (tokens w)))%nat
  ∧ ∀ (i : nat) (r : ApiToken.t),
      tokens w !! i = Some r →
      ∃ r', tokens w' !! i = Some r'
            ∧ same_but_metadata r r'
            ∧ (data ≠ issued r' → r' = r).
Proof. apply get_rows. Qed.

(** X4: an answered issue request leaves the session logged in: as whoever
    it was logged in as before, else as the requester. *)
Theorem issue_logs_session_in (request : Request) (u : User.t) (w w' : World)
    (data : Py.dict) :
  metadata_only →
  user request = Authenticated u →
  GetAuthToken.get request w = Ok (data, w') →
  session_user w' = Some (default (User.pk u) (session_user w)).
Proof.
  intros Hlaw Hu Hget.
  destruct (found_or_created_cases request u w)
    as [(tk & Hf & _) | (tk & Hf & _)];
    destruct (get_run_world request u w _ _ Hlaw Hu Hf) as [m Hget'];
    rewrite Hget' in Hget; injection Hget as _ <-;
    cbn [session_user insert_token];
    destruct (session_user w) eqn:E;
    cbn [session_user set_tokens set_session_user insert_token default];
    rewrite ?E; done.
Qed.

(** X5: with metadata that can be recorded, an issue request is answered
    exactly when the requester is authenticated; an anonymous one raises
    [NotAuthenticated]. *)
Theorem issue_answered_iff_authenticated (request : Request) (w : World) :
  metadata_only →
  ((∃ data w', GetAuthToken.get request w = Ok (data, w'))
   ↔ is_authenticated (user request) = true)
  ∧ (is_authenticated (user request) = false →
     GetAuthToken.get request w = Raise NotAuthenticated).
Proof.
  intros Hlaw. destruct (user request) as [|u] eqn:Hu; cbn [is_authenticated].
  - assert (GetAuthToken.get request w = Raise NotAuthenticated) as Hget
      by (unfold GetAuthToken.get; by rewrite Hu).
    split; [| done]. rewrite Hget. split; [by intros (? & ? & ?) | done].
  - split; [| done]. split; [done |]. intros _.
    destruct (found_or_created_total request u w) as (tk & w1 & Hf).
    destruct (get_run_world request u w w1 tk Hlaw Hu Hf) as [m Hget]. eauto.
Qed.
End IssueMore.

(** ** Runs of token requests: what no request does *)

Lemma same_identity_refl (r : ApiToken.t) : same_identity r r.
Proof. by repeat split. Qed.

Lemma same_identity_trans (r1 r2 r3 : ApiToken.t) :
  same_identity r1 r2 → same_identity r2 r3 → same_identity r1 r3.
Proof.
  intros (? & ? & ? & ? & ? & ?) (? & ? & ? & ? & ? & ?).
  repeat split; congruence.
Qed.

Lemma same_but_metadata_identity (r r' : ApiToken.t) :
  same_but_metadata r r' →
  same_identity r r' ∧ ApiToken.revoked r' = ApiToken.revoked r.
Proof. intros ->. by repeat split. Qed.

Section RunsMore.
Context {models : Models} {serializers : Serializers}.

(** What one answered request leaves of the rows. *)
Lemma respond_rows (op : operation) (request : Request) (w w' : World)
    (records : list Py.dict) :
  metadata_only →
  well_keyed w →
  respond op request w = Ok (records, w') →
  (length (tokens w) ≤ length (tokens w') ≤ S (length (tokens w)))%nat
  ∧ ∀ (i : nat) (r : ApiToken.t),
      tokens w !! i = Some r →
      ∃ r', tokens w' !! i = Some r'
            ∧ same_identity r r'
            ∧ (ApiToken.revoked r = true → ApiToken.revoked r' = true).
Proof.
  intros Hlaw Hwk. pose proof Hwk as [Hnd Hb].
  destruct op; cbn [respond].
  - unfold bind at 1.
    destruct (GetAuthToken.get request w) as [[data w1]|e] eqn:Hget; [| done].
    intros [= _ <-].
    destruct (user request) as [|u] eqn:Hu.
    { unfold GetAuthToken.get in Hget. by rewrite Hu in Hget. }
    destruct (get_rows request u w w1 data Hlaw Hwk Hu Hget) as [Hlen Hrows].
    split; [done |]. intros i r Hi.
    destruct (Hrows i r Hi) as (r' & Hi' & [Hid Hrev]%same_but_metadata_identity & _).
    exists r'. split; [done |]. split; [done | congruence].
  - unfold TokenListView.list, bind.
    destruct (TokenMixin.get_queryset request w) as [[queryset w0]|e] eqn:Eq; [| done].
    apply get_queryset_ok in Eq as [-> _].
    destruct (filter_backends request queryset) as [rows|e]; [| done].
    intros [= _ <-].
    split; [lia |]. intros i r Hi. exists r. split; [done |].
    split; [apply same_identity_refl | done].
  - unfold bind at 1. unfold TokenListView.create, TokenListView.super_create, bind.
    destruct (validated_data request) as [[user_pk name]|e]; [| done].
    unfold objects_create, ret.
    destruct (Py.dict_get (ApiTokenSerializer _) "id") as [[| | id | |]|]; try done.
    unfold objects_get. destruct (List.filter _ _) as [|tk [|tk2 l]]; try done.
    intros [= _ <-]. cbn [tokens insert_token].
    split; [rewrite length_app; cbn; lia |].
    intros i r Hi. exists r. split; [by apply lookup_app_l_Some |].
    split; [apply same_identity_refl | done].
  - unfold bind at 1. unfold TokenDetailView.retrieve, bind.
    destruct (TokenMixin.get_object request w) as [[tk w0]|e] eqn:Eo; [| done].
    apply get_object_ok in Eo as [-> _]. intros [= _ <-].
    split; [lia |]. intros i r Hi. exists r. split; [done |].
    split; [apply same_identity_refl | done].
  - unfold bind at 1. unfold TokenDetailView.destroy, bind.
    destruct (TokenMixin.get_object request w) as [[tk w0]|e] eqn:Eo; [| done].
    apply get_object_ok in Eo as [-> Hin]. intros [= _ <-].
    cbn [tokens set_tokens].
    rewrite (save_present (ApiToken.with_revoked true tk))
      by (apply (elem_of_map ApiToken.id); exists tk; by split).
    split; [rewrite length_map; lia |].
    intros i r Hi. rewrite lookup_map, Hi. cbn [fmap option_fmap option_map].
    eexists. split; [reflexivity |]. cbn [ApiToken.id ApiToken.with_revoked].
    destruct (Z.eqb_spec (ApiToken.id r) (ApiToken.id tk)) as [E|E].
    + assert (r ∈ tokens w) as Hr by (by apply list_elem_of_lookup_2 in Hi).
      rewrite (pk_names_row _ r tk Hnd Hr Hin E). by repeat split.
    + split; [apply same_identity_refl | done].
Qed.

(** X6: along any run of answered token requests no row is deleted or
    moved, and no row changes its primary key, user, name, key, creation
    date or expiry, or goes from revoked back to not revoked. *)
Theorem runs_keep_rows (w w' : World) :
  metadata_only →
  well_keyed w →
  reaches w w' →
  (length (tokens w) ≤ length (tokens w'))%nat
  ∧ ∀ (i : nat) (r : ApiToken.t),
      tokens w !! i = Some r →
      ∃ r', tokens w' !! i = Some r'
            ∧ same_identity r r'
            ∧ (ApiToken.revoked r = true → ApiToken.revoked r' = true).
Proof.
  intros Hlaw Hwk Hreach. revert Hwk.
  induction Hreach as [w|w op request day records w1 w2 Hstep _ IH]; intros Hwk.
  - split; [done |]. intros i r Hi. exists r.
    split; [done |]. split; [apply same_identity_refl | done].
  - assert (well_keyed (set_today day w)) as Hwk0 by exact Hwk.
    destruct (respond_rows op request _ w1 records Hlaw Hwk0 Hstep) as [Hlen1 Hrows1].
    destruct (respond_keeps op request _ w1 records Hlaw Hwk0 Hstep) as (Hwk1 & _).
    destruct (IH Hwk1) as [Hlen2 Hrows2]. cbn [tokens set_today] in *.
    split; [lia |]. intros i r Hi.
    destruct (Hrows1 i r Hi) as (r1 & Hi1 & Hid1 & Hrev1).
    destruct (Hrows2 i r1 Hi1) as (r2 & Hi2 & Hid2 & Hrev2).
    exists r2. split; [done |].
    split; [by apply (same_identity_trans r r1 r2) | auto].
Qed.

(** X7: along any run of answered token requests the table stays sound:
    primary keys unique and below the next one, keys unique, and none of
    the keys the generator is still to give in the table. *)
Theorem runs_keep_table_sound (w w' : World) :
  metadata_only →
  generator_fresh →
  sound w →
  reaches w w' →
  sound w'.
Proof. intros Hlaw Hgen Hs Hreach. by apply (reaches_keeps w w' Hlaw Hgen Hreach). Qed.
End RunsMore.

(** ** Revoking, seeing and creating tokens *)

(** X8: revoking twice is revoking once, and revoking a token of the table
    that is revoked already changes nothing in the table. *)
Theorem revoke_twice (instance : ApiToken.t) (w : World) :
  (let* _ := TokenDetailView.perform_destroy instance in
   TokenDetailView.perform_destroy instance) w
  = TokenDetailView.perform_destroy instance w
  ∧ (pk_unique w → instance ∈ tokens w → ApiToken.revoked instance = true →
     ∃ w', TokenDetailView.perform_destroy instance w = Ok (tt, w')
           ∧ tokens w' = tokens w).
Proof.
  split.
  - unfold TokenDetailView.perform_destroy, bind, modify, set_tokens.
    cbn. by rewrite save_save.
  - intros Hnd Hin Hrev. eexists. split; [reflexivity |].
    cbn [tokens set_tokens].
    rewrite (save_present (ApiToken.with_revoked true instance))
      by (apply (elem_of_map ApiToken.id); exists instance; by split).
    rewrite <- (map_id (tokens w)) at 2. apply map_ext_in.
    intros r Hr%list_elem_of_In. cbn [ApiToken.id ApiToken.with_revoked].
    destruct (Z.eqb_spec (ApiToken.id r) (ApiToken.id instance)) as [E|E]; [| done].
    rewrite (pk_names_row _ r instance Hnd Hr Hin E).
    destruct instance. cbn in *. by rewrite Hrev.
Qed.

Lemma filter_comm {A} (p q : A -> bool) (l : list A) :
  List.filter p (List.filter q l) = List.filter q (List.filter p l).
Proof.
  induction l as [|x l IH]; [done |]. simpl.
  destruct (q x) eqn:Eq, (p x) eqn:Ep; simpl; rewrite ?Eq, ?Ep, IH; done.
Qed.

(** A primary key of the table selects its row and no other. *)
Lemma filter_pk (rows : list ApiToken.t) (tk : ApiToken.t) :
  NoDup (map ApiToken.id rows) → tk ∈ rows →
  List.filter (fun r => ApiToken.id r =? ApiToken.id tk) rows = [tk].
Proof.
  intros Hnd Hin. induction rows as [|x rows IH]; [by apply not_elem_of_nil in Hin |].
  simpl in Hnd. apply NoDup_cons in Hnd as [Hx Hnd]. simpl.
  apply elem_of_cons in Hin as [<-|Hin].
  - rewrite Z.eqb_refl. f_equal.
    destruct (List.filter _ rows) as [|y l] eqn:Ef; [done |].
    assert (y ∈ List.filter (fun r => ApiToken.id r =? ApiToken.id tk) rows)
      as [Hy E%Z.eqb_eq]%elem_of_filterb by (rewrite Ef; apply list_elem_of_here).
    exfalso. apply Hx, elem_of_map. by exists y.
  - destruct (Z.eqb_spec (ApiToken.id x) (ApiToken.id tk)) as [E|E]; [| by apply IH].
    exfalso. apply Hx, elem_of_map. by exists tk.
Qed.

(** The queryset of a request is the visible part of the table. *)
Lemma get_queryset_visible (request : Request) (u : User.t) (w : World) :
  user request = Authenticated u →
  ∃ p, TokenMixin.get_queryset request w = Ok (List.filter p (tokens w), w)
       ∧ ∀ tk, p tk = true ↔ visible request tk.
Proof.
  intros Hu. unfold TokenMixin.get_queryset, visible. rewrite Hu.
  cbn [actor_is_superuser].
  destruct (User.is_superuser u
            && Py.truthy (Py.get (query_params request) "all_users" (Py.PyBool false)))
    eqn:E.
  - exists (fun _ => true). split.
    + unfold gets. f_equal. f_equal. induction (tokens w) as [|x l IH]; [done |].
      simpl. by rewrite <- IH.
    + intros tk. split; [| done]. intros _. exists u. split; [done |].
      right. by apply andb_prop in E.
  - exists (fun tk => ApiToken.user tk =? User.pk u). split; [done |].
    intros tk. rewrite Z.eqb_eq. split.
    + intros Hown. exists u. split; [done | by left].
    + intros (u' & [= <-] & [Hown | [Hs Ht]]); [done |].
      rewrite Hs, Ht in E. done.
Qed.

(** [get_object] finds the row under the primary key of the URL when the
    requester may see it, and nothing otherwise. *)
Lemma get_object_visible (request : Request) (u : User.t) (w : World) (tk : ApiToken.t) :
  pk_unique w →
  user request = Authenticated u →
  tk ∈ tokens w →
  ApiToken.id tk = kwargs_pk request →
  (visible request tk → TokenMixin.get_object request w = Ok (tk, w))
  ∧ (¬ visible request tk → TokenMixin.get_object request w = Raise DoesNotExist).
Proof.
  intros Hnd Hu Hin Hid.
  destruct (get_queryset_visible request u w Hu) as (p & Hq & Hp).
  unfold TokenMixin.get_object, bind. rewrite Hq, filter_comm, <- Hid, filter_pk by done.
  simpl. split.
  - intros Hv. apply Hp in Hv. by rewrite Hv.
  - intros Hv. destruct (p tk) eqn:E; [| done]. by apply Hp in E.
Qed.

Section DetailMore.
Context {serializers : Serializers}.

(** X9: a token the requester may not see is not to be had under its
    primary key: retrieve and revoke both raise [DoesNotExist].  This holds
    for a superuser too, who has not asked for [all_users]. *)
Theorem detail_hides_foreign_tokens (request : Request) (u : User.t) (w : World)
    (tk : ApiToken.t) :
  pk_unique w →
  user request = Authenticated u →
  tk ∈ tokens w →
  ApiToken.id tk = kwargs_pk request →
  ¬ visible request tk →
  TokenDetailView.retrieve request w = Raise DoesNotExist
  ∧ TokenDetailView.destroy request w = Raise DoesNotExist.
Proof.
  intros Hnd Hu Hin Hid Hv.
  destruct (get_object_visible request u w tk Hnd Hu Hin Hid) as [_ Hno].
  unfold TokenDetailView.retrieve, TokenDetailView.destroy, bind.
  by rewrite (Hno Hv).
Qed.

End DetailMore.

Section CreateMore.
Context {models : Models} {serializers : Serializers}.

(** X11: a POST on the token list whose body is not valid raises what the
    validation raised.  With a valid body, for a user and name that have
    no unrevoked, unexpired token yet (where one exists, whether the table
    takes a second is for the persistence layer to say), and a serializer
    that shows the primary key, it adds a row at the end of the table,
    under the next primary key and the next key of the generator, and
    answers with the representation of the new row and its key under
    "token"; a representation without "id" raises [KeyError]. *)
Theorem create_adds_a_row (request : Request) (w : World) :
  (∀ e, validated_data request = Raise e →
        TokenListView.create request w = Raise e)
  ∧ (∀ user_pk name,
       validated_data request = Ok (user_pk, name) →
       (∀ r, r ∈ tokens w →
             GetAuthToken.reusable user_pk name (today w) r = false) →
       let new := {| ApiToken.id := next_id w; ApiToken.user := user_pk;
                     ApiToken.name := name; ApiToken.key := default_token (rng w);
                     ApiToken.created := today w;
                     ApiToken.expiry := default_token_expiry (today w);
                     ApiToken.revoked := false; ApiToken.metadata := ∅ |} in
       (Py.dict_get (ApiTokenSerializer new) "id" = None →
        TokenListView.create request w = Raise (KeyError "id"))
       ∧ (shows_id → pk_bounded w →
          TokenListView.create request w
          = Ok (Py.dict_set (ApiTokenSerializer new) "token" (Py.PyStr (ApiToken.key new)),
                insert_token new w))).
Proof.
  split.
  - intros e He. unfold TokenListView.create, TokenListView.super_create, bind.
    by rewrite He.
  - intros user_pk name Hv _ new.
    unfold TokenListView.create, TokenListView.super_create, bind.
    rewrite Hv. unfold objects_create, ret. fold new. split.
    + by intros ->.
    + intros Hid Hb. rewrite Hid. unfold objects_get.
      cbn [tokens insert_token]. rewrite List.filter_app.
      assert (List.filter (fun r => ApiToken.id r =? ApiToken.id new) (tokens w) = [])
        as ->.
      { destruct (List.filter _ (tokens w)) as [|y l] eqn:Ef; [done |].
        assert (y ∈ List.filter (fun r => ApiToken.id r =? ApiToken.id new) (tokens w))
          as [Hy E%Z.eqb_eq]%elem_of_filterb by (rewrite Ef; apply list_elem_of_here).
        apply Hb in Hy. cbn in E. lia. }
      cbn [List.filter app]. by rewrite Z.eqb_refl.
Qed.
End CreateMore.

(** ** [OwnerList.filter_queryset]: the search as a filter *)

Section OwnerSearchMore.
Context {models : Models}.

Lemma filter_all_true {A} (p : A -> bool) (l : list A) :
  (∀ x, p x = true) → List.filter p l = l.
Proof.
  intros Hp. induction l as [|x l IH]; [done |]. simpl. by rewrite Hp, IH.
Qed.

Lemma entries_loop_empty (name : string) : OwnerList.entries_loop name [""] = true.
Proof.
  cbn [OwnerList.entries_loop].
  assert (Py.contains "" name = true) as -> by (apply contains_substring; by exists "", name).
  done.
Qed.

(** The loop is a filter: an owner is judged on the trimmed search term,
    its own name and type, and the matching user ids, and on nothing
    else. *)
Lemma results_loop_filter (search_term : string) (is_active : option bool)
    (ids : list Z) (queryset results : list Owner.t) :
  OwnerList.results_loop search_term is_active ids queryset results
  = (results
     ++ List.filter
          (fun o =>
             OwnerList.entries_loop (Py.strip (Py.lower (owner_name o)))
               (Py.split " " (Py.strip search_term))
             && negb (bool_decide (is_Some is_active)
                      && String.eqb (Owner.owner_type_name o) "user"
                      && negb (existsb (Z.eqb (Owner.owner_id o)) ids)))
          queryset)%list.
Proof.
  revert results. induction queryset as [|r rest IH]; intros results.
  - simpl. by rewrite app_nil_r.
  - cbn [OwnerList.results_loop List.filter].
    assert ((if Py.truthy (Py.PyStr search_term)
             then OwnerList.entries_loop (Py.strip (Py.lower (owner_name r)))
                    (Py.split " " (Py.strip search_term))
             else true)
            = OwnerList.entries_loop (Py.strip (Py.lower (owner_name r)))
                (Py.split " " (Py.strip search_term))) as ->.
    { cbn [Py.truthy]. destruct (String.eqb_spec search_term "") as [->|]; [| done].
      cbn [negb]. rewrite strip_empty.
      change (Py.split " " "") with [""]. by rewrite entries_loop_empty. }
    destruct (OwnerList.entries_loop _ _); cbn [negb andb]; [| apply IH].
    destruct (bool_decide (is_Some is_active) && _ && _); cbn [negb].
    + apply IH.
    + rewrite IH. by rewrite <- app_assoc.
Qed.

(** X14: every owner is judged on its own: the search of two querysets one
    after the other is the two searches one after the other. *)
Theorem owner_search_app (request : Request) (w : World) (qs1 qs2 : list Owner.t) :
  OwnerList.filter_queryset request w (qs1 ++ qs2)
  = (OwnerList.filter_queryset request w qs1
     ++ OwnerList.filter_queryset request w qs2)%list.
Proof.
  unfold OwnerList.filter_queryset. rewrite !results_loop_filter, !app_nil_l.
  apply List.filter_app.
Qed.

(** X15: without [is_active], a search that is absent, empty or all white
    space hands the queryset back as it is. *)
Theorem owner_search_blank (request : Request) (w : World) (queryset : list Owner.t) :
  query_params request !! "is_active" = None →
  Py.strip (Py.lower (Py.get_str (query_params request) "search" "")) = "" →
  OwnerList.filter_queryset request w queryset = queryset.
Proof.
  intros Ha Hq. unfold OwnerList.filter_queryset.
  rewrite results_loop_filter, app_nil_l, Ha, Hq.
  apply filter_all_true. intros o.
  change (Py.split " " "") with [""]. rewrite entries_loop_empty.
  assert (bool_decide (is_Some (str2bool <$> (None : option string))) = false) as ->.
  { apply bool_decide_eq_false. by intros [? ?]. }
  reflexivity.
Qed.

(** X16: the search reads the query through its lowered and trimmed form
    only: two requests with the same [is_active] whose queries agree up to
    case and surrounding white space get the same owners. *)
Theorem owner_search_normal_form (request1 request2 : Request) (w : World)
    (queryset : list Owner.t) :
  query_params request1 !! "is_active" = query_params request2 !! "is_active" →
  Py.strip (Py.lower (Py.get_str (query_params request1) "search" ""))
  = Py.strip (Py.lower (Py.get_str (query_params request2) "search" "")) →
  OwnerList.filter_queryset request1 w queryset
  = OwnerList.filter_queryset request2 w queryset.
Proof.
  intros Ha Hq. unfold OwnerList.filter_queryset.
  by rewrite !results_loop_filter, Ha, Hq.
Qed.
End OwnerSearchMore.

(** ** [UserDetailSetPassword]: when a password is stored *)

Section SetPassword.
Variable validate_password : string -> User.t -> option string.
Variable make_password : string -> string.

(** X17: [perform_update] with no password, or an empty one, is no error and
    changes nothing, whatever the validator and [override_warning] say.
    With a password it stores its hash exactly when [override_warning] is
    set or the validator accepts, and [password_changed] is then called
    twice, by the view and by [save]; otherwise it raises the validator's
    text under "password", stores nothing and calls nothing. *)
Theorem set_password_outcome (data : UserDetailSetPassword.validated_data)
    (user : User.t) (c : UserDetailSetPassword.Credentials) :
  (UserDetailSetPassword.password data = None
   ∨ UserDetailSetPassword.password data = Some "" →
   UserDetailSetPassword.perform_update validate_password make_password data user c
   = UserDetailSetPassword.Updated c)
  ∧ (∀ pw, UserDetailSetPassword.password data = Some pw → pw ≠ "" →
       let stored :=
         {| UserDetailSetPassword.hashes :=
              <[User.pk user := make_password pw]> (UserDetailSetPassword.hashes c);
            UserDetailSetPassword.notified :=
              UserDetailSetPassword.notified c
              ++ [(User.pk user, pw); (User.pk user, pw)] |} in
       (UserDetailSetPassword.override_warning data = Some true
        ∨ validate_password pw user = None →
        UserDetailSetPassword.perform_update validate_password make_password data user c
        = UserDetailSetPassword.Updated stored)
       ∧ (∀ e, UserDetailSetPassword.override_warning data ≠ Some true →
               validate_password pw user = Some e →
               UserDetailSetPassword.perform_update validate_password make_password data user c
               = UserDetailSetPassword.ValidationError [("password", Py.PyStr e)])).
Proof.
  split.
  - unfold UserDetailSetPassword.perform_update. by intros [-> | ->].
  - intros pw Hpw Hne stored. unfold UserDetailSetPassword.perform_update.
    rewrite Hpw. cbn [Py.truthy].
    destruct (String.eqb_spec pw "") as [|_]; [done |]. cbn [negb].
    assert (UserDetailSetPassword.user_save user (make_password pw) (Some pw)
              (UserDetailSetPassword.password_changed pw user c) = stored) as Hstored.
    { unfold UserDetailSetPassword.user_save, UserDetailSetPassword.password_changed,
        stored. cbn. by rewrite <- app_assoc. }
    cbn [UserDetailSetPassword.set_password]. rewrite Hstored. split.
    + intros [Ho | Hv].
      * by rewrite Ho.
      * destruct (default false (UserDetailSetPassword.override_warning data));
          cbn [negb]; [done | by rewrite Hv].
    + intros e Ho Hv.
      destruct (UserDetailSetPassword.override_warning data) as [[|]|];
        cbn [default negb]; [done | by rewrite Hv | by rewrite Hv].
Qed.

(** X18: [perform_update] never touches the hash of another user, and
    [password_changed] is called only for the user of the request and the
    password whose hash has just been stored: twice, by the view and by
    [save]. *)
Theorem set_password_touches_one_user (data : UserDetailSetPassword.validated_data)
    (user : User.t) (c c' : UserDetailSetPassword.Credentials) :
  UserDetailSetPassword.perform_update validate_password make_password data user c
  = UserDetailSetPassword.Updated c' →
  (∀ other, other ≠ User.pk user →
            UserDetailSetPassword.hashes c' !! other
            = UserDetailSetPassword.hashes c !! other)
  ∧ (c' = c
     ∨ ∃ pw, UserDetailSetPassword.password data = Some pw
             ∧ UserDetailSetPassword.notified c'
               = (UserDetailSetPassword.notified c
                  ++ [(User.pk user, pw); (User.pk user, pw)])%list
             ∧ UserDetailSetPassword.hashes c' !! User.pk user
               = Some (make_password pw)).
Proof.
  unfold UserDetailSetPassword.perform_update.
  destruct (UserDetailSetPassword.password data) as [pw|]; [| by intros [= <-]; split; [| left]].
  destruct (Py.truthy (Py.PyStr pw)); [| by intros [= <-]; split; [| left]].
  destruct (if negb _ then _ else None); [done |].
  intros [= <-]. cbn. split.
  - intros other Hne. by rewrite lookup_insert_ne.
  - right. exists pw. by rewrite lookup_insert_eq, <- app_assoc.
Qed.
End SetPassword.

(** X19: [get_object] of the password view answers with the user under the
    primary key of the URL when the table has one, and raises
    [DoesNotExist] when it has none; it changes nothing. *)
Theorem set_password_get_object (request : Request) (w : World) :
  NoDup (map User.pk (users w)) →
  (∀ u, u ∈ users w → User.pk u = kwargs_pk request →
        UserDetailSetPassword.get_object request w = Ok (u, w))
  ∧ ((∀ u, u ∈ users w → User.pk u ≠ kwargs_pk request) →
     UserDetailSetPassword.get_object request w = Raise DoesNotExist)
  ∧ (∀ u w', UserDetailSetPassword.get_object request w = Ok (u, w') →
             w' = w ∧ u ∈ users w ∧ User.pk u = kwargs_pk request).
Proof.
  intros Hnd. unfold UserDetailSetPassword.get_object. split; [| split].
  - intros u Hin Hpk.
    assert (List.filter (fun u => User.pk u =? kwargs_pk request) (users w) = [u]) as ->;
      [| done].
    rewrite <- Hpk. clear Hpk.
    induction (users w) as [|x l IH]; [by apply not_elem_of_nil in Hin |].
    simpl in Hnd. apply NoDup_cons in Hnd as [Hx Hnd]. simpl.
    apply elem_of_cons in Hin as [<-|Hin].
    + rewrite Z.eqb_refl. f_equal.
      destruct (List.filter _ l) as [|y l'] eqn:Ef; [done |].
      assert (y ∈ List.filter (fun v => User.pk v =? User.pk u) l)
        as [Hy E%Z.eqb_eq]%elem_of_filterb by (rewrite Ef; apply list_elem_of_here).
      exfalso. apply Hx. rewrite list_elem_of_In, in_map_iff.
      exists y. split; [done | by apply list_elem_of_In].
    + destruct (Z.eqb_spec (User.pk x) (User.pk u)) as [E|E]; [| by apply IH].
      exfalso. apply Hx. rewrite list_elem_of_In, in_map_iff.
      exists u. split; [done | by apply list_elem_of_In].
  - intros Hno.
    destruct (List.filter _ (users w)) as [|y l] eqn:Ef; [done |].
    assert (y ∈ List.filter (fun u => User.pk u =? kwargs_pk request) (users w))
      as [Hy E%Z.eqb_eq]%elem_of_filterb by (rewrite Ef; apply list_elem_of_here).
    by apply Hno in Hy.
  - intros u w'.
    destruct (List.filter _ (users w)) as [|y [|y2 l]] eqn:Ef; try done.
    intros [= <- <-].
    assert (y ∈ List.filter (fun u => User.pk u =? kwargs_pk request) (users w))
      as [Hy E%Z.eqb_eq]%elem_of_filterb by (rewrite Ef; apply list_elem_of_here).
    done.
Qed.

(** ** [user_urls]: resolving and reversing *)

Section UrlsProofs.
Import Urls.

Lemma drop_prefix_app (p s : string) : drop_prefix p (p +:+ s) = Some s.
Proof.
  induction p as [|a p IH]; [done |].
  rewrite append_cons. cbn [drop_prefix]. by rewrite Ascii.eqb_refl.
Qed.

Lemma drop_prefix_Some (p s r : string) : drop_prefix p s = Some r → s = p +:+ r.
Proof.
  revert s. induction p as [|a p IH]; intros s; cbn [drop_prefix].
  - by intros [= ->].
  - destruct s as [|b s]; [done |].
    destruct (Ascii.eqb_spec a b) as [->|]; [| done].
    intros ->%IH. by rewrite append_cons.
Qed.

(** A prefix settled on the known beginning of a text is settled on the
    whole text. *)
Lemma drop_prefix_known (p known x : string) :
  (∀ r, drop_prefix p known = Some r → drop_prefix p (known +:+ x) = Some (r +:+ x))
  ∧ (drop_prefix p known = None → drop_prefix known p = None →
     drop_prefix p (known +:+ x) = None).
Proof.
  revert known. induction p as [|a p IH]; intros known.
  - split; [by intros r [= <-] | by destruct known].
  - destruct known as [|b known]; [split; done |].
    rewrite append_cons. cbn [drop_prefix].
    rewrite (Ascii.eqb_sym b a).
    destruct (Ascii.eqb a b); [apply IH | done].
Qed.

Lemma is_digit_char (c : ascii) :
  is_digit c = true →
  ∀ d, ∃ d', uint_of_char c (Some d) = Some d'.
Proof.
  destruct c as [[] [] [] [] [] [] [] []]; try discriminate; intros _ d; by eexists.
Qed.

Lemma all_digits_int (text : string) :
  all_digits text = true → ∃ n, int text = Some n.
Proof.
  intros Hd. unfold int.
  assert (∃ d, NilEmpty.uint_of_string text = Some d) as [d ->]; [| by eexists].
  induction text as [|c text IH]; [by eexists |].
  cbn [all_digits] in Hd. apply andb_prop in Hd as [Hc Ht].
  destruct (IH Ht) as [d Hd]. cbn [NilEmpty.uint_of_string]. rewrite Hd.
  apply (is_digit_char c Hc).
Qed.

Lemma all_digits_string_of_uint (d : uint) :
  all_digits (NilEmpty.string_of_uint d) = true.
Proof. induction d; done. Qed.

Lemma str_digits (n : N) : str n ≠ "" ∧ all_digits (str n) = true.
Proof.
  split; [| apply all_digits_string_of_uint].
  unfold str. destruct n as [|p]; [done |]. cbn [N.to_uint].
  pose proof (DecimalPos.Unsigned.to_uint_nonnil p) as Hne.
  by destruct (Pos.to_uint p).
Qed.

Lemma int_str (n : N) : int (str n) = Some n.
Proof.
  unfold int, str. rewrite NilEmpty.usu. cbn.
  by rewrite DecimalN.Unsigned.of_to.
Qed.

Lemma span_digits_app (text rest : string) :
  all_digits text = true →
  span_digits rest = ("", rest) →
  span_digits (text +:+ rest) = (text, rest).
Proof.
  intros Hd Hr. induction text as [|c text IH]; [by rewrite append_nil |].
  cbn [all_digits] in Hd. apply andb_prop in Hd as [Hc Ht].
  rewrite append_cons. cbn [span_digits]. by rewrite Hc, (IH Ht).
Qed.

Lemma span_digits_spec (url text rest : string) :
  span_digits url = (text, rest) →
  url = text +:+ rest ∧ all_digits text = true.
Proof.
  revert text rest. induction url as [|c url IH]; intros text rest; cbn [span_digits].
  - by intros [= <- <-].
  - destruct (is_digit c) eqn:Hc; [| by intros [= <- <-]].
    destruct (span_digits url) as [ds r]. intros [= <- <-].
    destruct (IH ds r eq_refl) as [-> Hd]. split; [done |].
    cbn [all_digits]. by rewrite Hc, Hd.
Qed.

(** ['<int:pk>/'] takes a non-empty run of digits and the ["/"] after it. *)
Lemma match_int_app (text rest : string) :
  text ≠ "" → all_digits text = true →
  ∃ n, int text = Some n
       ∧ match_route IntPk ((text +:+ "/") +:+ rest) = Some (rest, Some n).
Proof.
  intros Hne Hd. destruct (all_digits_int text Hd) as [n Hn]. exists n.
  split; [done |]. unfold match_route.
  rewrite append_assoc, (span_digits_app text ("/" +:+ rest) Hd) by done.
  destruct (String.eqb_spec text ""); [done |].
  by rewrite Hn.
Qed.

Lemma match_int_inv (url rest : string) (pk : option N) :
  match_route IntPk url = Some (rest, pk) →
  ∃ text, url = (text +:+ "/") +:+ rest
          ∧ text ≠ "" ∧ all_digits text = true
          ∧ pk = int text ∧ is_Some pk.
Proof.
  unfold match_route.
  destruct (span_digits url) as [text r] eqn:Es.
  apply span_digits_spec in Es as [-> Hd].
  destruct (String.eqb_spec text "") as [|Hne]; [done |].
  destruct (drop_prefix "/" r) as [rest'|] eqn:Er; [| done].
  apply drop_prefix_Some in Er as ->.
  destruct (int text) as [n|] eqn:En; [| done].
  intros [= <- <-]. exists text. by rewrite append_assoc.
Qed.

Lemma match_literal_inv (s url rest : string) (pk : option N) :
  match_route (Literal s) url = Some (rest, pk) → url = s +:+ rest ∧ pk = None.
Proof.
  unfold match_route. destruct (drop_prefix s url) as [r|] eqn:E; [| done].
  intros [= <- <-]. by apply drop_prefix_Some in E.
Qed.

(** Literal text that does not begin with a digit does not match a URL
    that begins with one. *)
Lemma match_literal_digits (a : ascii) (p text x : string) :
  is_digit a = false → text ≠ "" → all_digits text = true →
  match_route (Literal (String a p)) (text +:+ x) = None.
Proof.
  intros Ha Hne Hd. unfold match_route.
  destruct text as [|c text]; [done |].
  cbn [all_digits] in Hd. apply andb_prop in Hd as [Hc _].
  rewrite append_cons. cbn [drop_prefix].
  destruct (Ascii.eqb_spec a c) as [->|]; [congruence | done].
Qed.

Lemma match_literal_known (p known x : string) :
  (∀ r, drop_prefix p known = Some r →
        match_route (Literal p) (known +:+ x) = Some (r +:+ x, None))
  ∧ (drop_prefix p known = None → drop_prefix known p = None →
     match_route (Literal p) (known +:+ x) = None).
Proof.
  destruct (drop_prefix_known p known x) as [Hyes Hno]. unfold match_route. split.
  - intros r Hr. by rewrite (Hyes r Hr).
  - intros H1 H2. by rewrite (Hno H1 H2).
Qed.

Lemma match_literal_digits_slash (a : ascii) (p text rest : string) :
  is_digit a = false → text ≠ "" → all_digits text = true →
  match_route (Literal (String a p)) ((text +:+ "/") +:+ rest) = None.
Proof. intros. rewrite append_assoc. by apply match_literal_digits. Qed.

Lemma append_nil_r (s : string) : s +:+ "" = s.
Proof. induction s as [|c s IH]; [done |]. by rewrite append_cons, IH. Qed.

Lemma match_int_slash (text : string) :
  text ≠ "" → all_digits text = true →
  ∃ n, int text = Some n ∧ match_route IntPk (text +:+ "/") = Some ("", Some n).
Proof.
  intros Hne Hd. destruct (match_int_app text "" Hne Hd) as (n & Hn & Hm).
  exists n. split; [done |]. by rewrite append_nil_r in Hm.
Qed.

(** The routes of the table, one by one. *)
Ltac literal_miss :=
  match goal with
  | |- context [match_route (Literal ?p) (?known +:+ ?x)] =>
      rewrite (proj2 (match_literal_known p known x) eq_refl eq_refl)
  end.

Ltac literal_hit :=
  match goal with
  | |- context [match_route (Literal ?p) (?known +:+ ?x)] =>
      rewrite (proj1 (match_literal_known p known x) _ eq_refl)
  end.

(** Only the fifteen names of the table reverse. *)
Lemma reverse_text_names (name : string) (arg : option string) (url : string) :
  reverse_text name arg = Some url →
  In name
    [ "api-user-roles"; "api-token"; "api-token-detail"; "api-token-list";
      "api-user-me"; "api-user-profile"; "api-owner-detail"; "api-owner-list";
      "api-group-detail"; "api-group-list"; "api-ruleset-detail";
      "api-ruleset-list"; "api-user-set-password"; "api-user-detail";
      "api-user-list" ].
Proof.
  intros Hrev. unfold reverse_text, user_urls in Hrev.
  cbn [reverse_first reverse_pattern fill] in Hrev.
  repeat match type of Hrev with
  | context [String.eqb ?a name] =>
      destruct (String.eqb_spec a name) as [<-|_];
      [ cbn [In]; tauto | cbv beta iota in Hrev ]
  end.
  destruct arg; discriminate.
Qed.

Ltac under_literal text Hne Hd :=
  destruct (match_int_slash text Hne Hd) as (n & -> & Hm);
  eexists; unfold resolve, user_urls; cbn [resolve_first resolve_pattern];
  repeat literal_miss; literal_hit; rewrite append_nil, Hm; reflexivity.

Ltac under_int text rest Hne Hd :=
  destruct (match_int_app text rest Hne Hd) as (n & -> & Hm);
  eexists; unfold resolve, user_urls; cbn [resolve_first resolve_pattern];
  rewrite !match_literal_digits_slash by done; rewrite Hm; reflexivity.

Lemma reverse_text_resolve (name : string) (arg : option string) (url : string) :
  reverse_text name arg = Some url →
  (∀ text, arg = Some text → text ≠ "" ∧ all_digits text = true) →
  ∃ v, resolve url
       = Some {| func := v; url_name := name; kwargs_pk := arg ≫= int |}.
Proof.
  intros Hrev Harg. pose proof (reverse_text_names _ _ _ Hrev) as Hin.
  cbn [In] in Hin.
  destruct arg as [text|].
  - destruct (Harg text eq_refl) as [Hne Hd]. clear Harg.
    cbn [mbind option_bind].
    repeat (destruct Hin as [<-|Hin]); [..| done];
      cbv - [String.append] in Hrev; try discriminate.
    all: injection Hrev as <-.
    1-4: under_literal text Hne Hd.
    + under_int text "set-password/" Hne Hd.
    + under_int text "" Hne Hd.
  - clear Harg.
    repeat (destruct Hin as [<-|Hin]); [..| done];
      vm_compute in Hrev; try discriminate.
    all: injection Hrev as <-; eexists; vm_compute; reflexivity.
Qed.

(** X20: the URL [reverse] gives for a route resolves to that route, with the
    [pk] the URL was made from. *)
Theorem reverse_then_resolve (name : string) (pk : option N) (url : string) :
  reverse name pk = Some url →
  ∃ v, resolve url = Some {| func := v; url_name := name; kwargs_pk := pk |}.
Proof.
  intros Hrev. unfold reverse in Hrev.
  destruct (reverse_text_resolve name (str <$> pk) url Hrev) as [v Hv].
  - intros text Ht. destruct pk as [n|]; [| done].
    injection Ht as <-. apply str_digits.
  - exists v. rewrite Hv. destruct pk as [n|]; [| done].
    cbn [fmap option_fmap option_map mbind option_bind]. by rewrite int_str.
Qed.

Lemma resolve_first_In (l : list urlpattern) (url : string) (pk : option N)
    (m : ResolverMatch) :
  resolve_first l url pk = Some m →
  ∃ q, In q l ∧ resolve_pattern q url pk = Some m.
Proof.
  induction l as [|q l IH]; [done |]. cbn [resolve_first].
  destruct (resolve_pattern q url pk) as [m'|] eqn:E.
  - intros [= <-]. exists q. split; [by left | done].
  - intros (q' & Hq & H)%IH. exists q'. split; [by right | done].
Qed.

Lemma resolve_path_inv (r : route) (v : view) (name url : string)
    (pk : option N) (m : ResolverMatch) :
  resolve_pattern (path r v name) url pk = Some m →
  ∃ pk', match_route r url = Some ("", pk')
         ∧ m = {| func := v; url_name := name; kwargs_pk := merge pk pk' |}.
Proof.
  cbn [resolve_pattern].
  destruct (match_route r url) as [[rest pk']|]; [| done].
  destruct (String.eqb_spec rest "") as [->|]; [| done].
  intros [= <-]. by exists pk'.
Qed.

Lemma resolve_include_inv (r : route) (l : list urlpattern) (url : string)
    (pk : option N) (m : ResolverMatch) :
  resolve_pattern (path_include r l) url pk = Some m →
  ∃ rest pk' q, match_route r url = Some (rest, pk') ∧ In q l
                ∧ resolve_pattern q rest (merge pk pk') = Some m.
Proof.
  cbn [resolve_pattern].
  destruct (match_route r url) as [[rest pk']|]; [| done].
  intros H. exists rest, pk'.
  induction l as [|q l IH]; [done |].
  destruct (resolve_pattern q rest (merge pk pk')) as [m'|] eqn:E.
  - injection H as <-. exists q. split; [done |]. split; [by left | done].
  - destruct (IH H) as (q' & Hm & Hq & Hr).
    exists q'. split; [done |]. split; [by right | done].
Qed.

(** X21: a URL that resolves is the URL of the route it resolves to, made from
    digits that read as the [pk] it resolves with. *)
Theorem resolve_then_reverse (url : string) (m : ResolverMatch) :
  resolve url = Some m →
  ∃ arg, reverse_text (url_name m) arg = Some url
         ∧ kwargs_pk m = arg ≫= int
         ∧ (∀ text, arg = Some text → text ≠ "" ∧ all_digits text = true).
Proof.
  intros H. apply resolve_first_In in H as (q & Hq & H).
  unfold user_urls in Hq. cbn [In] in Hq.
  repeat (destruct Hq as [<-|Hq]); [..| done].
  all: try (apply resolve_path_inv in H as (pk' & Hm & ->);
            apply match_literal_inv in Hm as [-> ->];
            exists None; by repeat split).
  all: apply resolve_include_inv in H as (rest & pk' & q & Hm & Hq & H).
  1-4: apply match_literal_inv in Hm as [-> ->];
       destruct Hq as [<-|[<-|[]]];
       apply resolve_path_inv in H as (pk'' & Hm & ->);
       [ apply match_int_inv in Hm as (text & -> & Hne & Hd & -> & [n Hn]);
         exists (Some text); rewrite append_nil_r;
         split; [cbv - [String.append]; reflexivity |];
         split; [cbn [mbind option_bind]; by rewrite Hn |];
         by intros ? [= <-]
       | apply match_literal_inv in Hm as [-> ->];
         exists None; by repeat split ].
  apply match_int_inv in Hm as (text & -> & Hne & Hd & -> & [n Hn]).
  destruct Hq as [<-|[<-|[]]];
    apply resolve_path_inv in H as (pk'' & Hm & ->);
    apply match_literal_inv in Hm as [-> ->];
    exists (Some text);
    (split; [cbv - [String.append]; reflexivity |]);
    (split; [cbn [mbind option_bind]; by rewrite Hn |]);
    by intros ? [= <-].
Qed.
End UrlsProofs.

(** ** The further properties at work on the sample data *)

Lemma world0_well_keyed : well_keyed world0.
Proof. split; [apply world0_pk_unique | apply world0_pk_bounded]. Defined.

Lemma spec_serializers_shows_id : @shows_id spec_serializers.
Proof. intros tk. reflexivity. Defined.

Lemma issue_twice_same_key_witness :
  ∃ w1 w2,
    @GetAuthToken.get (run_models team_names) ci_request world0
    = Ok (issued ci_token, w1)
    ∧ @GetAuthToken.get (run_models team_names) ci_request (set_today 300 w1)
      = Ok (issued ci_token, w2).
Proof.
  destruct (@GetAuthToken.get (run_models team_names) ci_request world0)
    as [[data w1]|e] eqn:Hget; [| vm_compute in Hget; discriminate].
  assert (data = issued ci_token) as ->
    by (vm_compute in Hget; by injection Hget as <- _).
  destruct (@issue_twice_same_key (run_models team_names) ci_request alice world0 w1
              (issued ci_token) 300) as (w2 & Hget2 & _).
  - apply merge_metadata_only.
  - apply world0_pk_unique.
  - apply world0_pk_bounded.
  - reflexivity.
  - exact Hget.
  - cbn. lia.
  - intros d Hd. vm_compute in Hd. injection Hd as <-. lia.
  - by exists w1, w2.
Defined.

Lemma issue_answers_own_token_witness :
  ∃ r w', @GetAuthToken.get (run_models team_names) ci_request world0
          = Ok (issued r, w')
          ∧ r ∈ tokens w' ∧ ApiToken.user r = 1 ∧ ApiToken.name r = "ci".
Proof.
  destruct (@GetAuthToken.get (run_models team_names) ci_request world0)
    as [[data w1]|e] eqn:Hget; [| vm_compute in Hget; discriminate].
  destruct (@issue_answers_own_token (run_models team_names) ci_request alice world0 w1
              data) as (r & Hin & -> & Hu & Hn & _).
  - apply merge_metadata_only.
  - reflexivity.
  - exact Hget.
  - exists r, w1. split; [done |]. split; [done |]. split; [exact Hu |].
    rewrite Hn. vm_compute. reflexivity.
Defined.

Lemma issue_touches_one_row_witness :
  ∃ data w' r',
    @GetAuthToken.get (run_models team_names) ci_request world0 = Ok (data, w')
    ∧ tokens w' !! 1%nat = Some r'
    ∧ same_but_metadata old_token r'.
Proof.
  destruct (@GetAuthToken.get (run_models team_names) ci_request world0)
    as [[data w1]|e] eqn:Hget; [| vm_compute in Hget; discriminate].
  destruct (@issue_touches_one_row (run_models team_names) ci_request alice world0 w1
              data) as [_ Hrows].
  - apply merge_metadata_only.
  - apply world0_well_keyed.
  - reflexivity.
  - exact Hget.
  - destruct (Hrows 1%nat old_token eq_refl) as (r' & Hi & Hsame & _).
    by exists data, w1, r'.
Defined.

Lemma issue_logs_session_in_witness :
  ∃ data w',
    @GetAuthToken.get (run_models team_names) ci_request world0 = Ok (data, w')
    ∧ session_user world0 = None
    ∧ session_user w' = Some 1.
Proof.
  destruct (@GetAuthToken.get (run_models team_names) ci_request world0)
    as [[data w1]|e] eqn:Hget; [| vm_compute in Hget; discriminate].
  exists data, w1. split; [done |]. split; [done |].
  apply (@issue_logs_session_in (run_models team_names) ci_request alice world0 w1 data).
  - apply merge_metadata_only.
  - reflexivity.
  - exact Hget.
Defined.

Lemma issue_answered_iff_authenticated_witness :
  @GetAuthToken.get (run_models team_names) anonymous_request world0
  = Raise NotAuthenticated.
Proof.
  apply (proj2 (@issue_answered_iff_authenticated (run_models team_names)
                  anonymous_request world0 (merge_metadata_only team_names))).
  reflexivity.
Defined.

Lemma runs_keep_rows_witness :
  ∃ w1 r',
    @respond (run_models team_names) spec_serializers RevokeToken ci_request
      (set_today 210 world0) = Ok ([], w1)
    ∧ tokens w1 !! 0%nat = Some r'
    ∧ ApiToken.revoked r' = true
    ∧ same_identity ci_token r'.
Proof.
  destruct (@respond (run_models team_names) spec_serializers RevokeToken ci_request
              (set_today 210 world0)) as [[records w1]|e] eqn:Hstep;
    [| vm_compute in Hstep; discriminate].
  assert (records = []) as -> by (vm_compute in Hstep; by injection Hstep as <- _).
  assert (ApiToken.revoked <$> tokens w1 !! 0%nat = Some true) as Hrev
    by (vm_compute in Hstep; by injection Hstep as <-).
  assert (@reaches (run_models team_names) spec_serializers world0 w1) as Hreach
    by (eapply reaches_request; [exact Hstep | apply reaches_here]).
  destruct (@runs_keep_rows (run_models team_names) spec_serializers world0 w1)
    as [_ Hrows].
  - apply merge_metadata_only.
  - apply world0_well_keyed.
  - exact Hreach.
  - destruct (Hrows 0%nat ci_token eq_refl) as (r' & Hi & Hid & _).
    exists w1, r'. rewrite Hi in Hrev. by injection Hrev as Hrev.
Defined.

Lemma runs_keep_table_sound_witness :
  ∃ records w1,
    @respond (run_models team_names) spec_serializers CreateToken post_request
      (set_today 210 world0) = Ok (records, w1)
    ∧ length (tokens w1) = 3%nat
    ∧ @sound (run_models team_names) w1.
Proof.
  destruct (@respond (run_models team_names) spec_serializers CreateToken post_request
              (set_today 210 world0)) as [[records w1]|e] eqn:Hstep;
    [| vm_compute in Hstep; discriminate].
  assert (length (tokens w1) = 3%nat) as Hlen
    by (vm_compute in Hstep; by injection Hstep as _ <-).
  exists records, w1. split; [done |]. split; [exact Hlen |].
  apply (@runs_keep_table_sound (run_models team_names) spec_serializers world0 w1).
  - apply merge_metadata_only.
  - apply run_models_generator_fresh.
  - apply world0_sound.
  - eapply reaches_request; [exact Hstep | apply reaches_here].
Defined.

Lemma revoke_twice_witness :
  ∃ w1 w2,
    TokenDetailView.perform_destroy ci_token world0 = Ok (tt, w1)
    ∧ TokenDetailView.perform_destroy (ApiToken.with_revoked true ci_token) w1
      = Ok (tt, w2)
    ∧ tokens w2 = tokens w1.
Proof.
  eexists. 
  destruct (proj2 (revoke_twice (ApiToken.with_revoked true ci_token)
                     (set_tokens (save (ApiToken.with_revoked true ci_token)) world0)))
    as (w2 & Hd & Hsame).
  - apply (bool_decide_unpack _). vm_compute. exact I.
  - apply list_elem_of_here.
  - reflexivity.
  - exists w2. split; [reflexivity |]. split; [exact Hd | exact Hsame].
Defined.

Lemma detail_hides_foreign_tokens_witness :
  User.is_superuser root = true
  ∧ @TokenDetailView.retrieve spec_serializers root_request world0 = Raise DoesNotExist
  ∧ TokenDetailView.destroy root_request world0 = Raise DoesNotExist.
Proof.
  split; [reflexivity |].
  apply (@detail_hides_foreign_tokens spec_serializers root_request root world0 ci_token).
  - apply world0_pk_unique.
  - reflexivity.
  - apply list_elem_of_here.
  - reflexivity.
  - intros (u & Hu & [Hown | [_ Hall]]).
    + injection Hu as <-. discriminate.
    + vm_compute in Hall. discriminate.
Defined.


(** A list for [?revoked=false] leaves the revoked token out. *)
Example list_revoked_filter :
  ∃ w', TokenDetailView.destroy ci_request world0 = Ok ([], w')
        ∧ body (@TokenListView.list spec_serializers unrevoked_request w')
          = Ok [[("id", Py.PyInt 2); ("name", Py.PyStr "old");
                 ("created", Py.PyDate 1); ("expiry", Py.PyDate 50);
                 ("revoked", Py.PyBool false); ("user", Py.PyInt 1)]].
Proof. eexists. split; [reflexivity |]. vm_compute. reflexivity. Qed.

Lemma create_adds_a_row_witness :
  ∃ resp w',
    @TokenListView.create (run_models team_names) spec_serializers post_request world0
    = Ok (resp, w')
    ∧ Py.dict_get resp "token" = Some (Py.PyStr "k")
    ∧ length (tokens w') = 3%nat.
Proof.
  destruct (@create_adds_a_row (run_models team_names) spec_serializers
              post_request world0) as [_ Hok].
  destruct (Hok 1 "deploy" eq_refl) as [_ Hadd].
  { intros r Hin. cbn in Hin.
    repeat (apply elem_of_cons in Hin as [->|Hin]; [reflexivity |]).
    by apply not_elem_of_nil in Hin. }
  eexists _, _. split.
  - apply Hadd; [apply spec_serializers_shows_id | apply world0_pk_bounded].
  - split; reflexivity.
Defined.

Lemma owner_search_blank_witness :
  @OwnerList.filter_queryset (run_models team_names) blank_request world0 [team] = [team].
Proof.
  apply (@owner_search_blank (run_models team_names) blank_request world0 [team]).
  - reflexivity.
  - vm_compute. reflexivity.
Defined.

Lemma owner_search_normal_form_witness :
  @OwnerList.filter_queryset (run_models team_names) padded_request world0 [team]
  = @OwnerList.filter_queryset (run_models team_names) spaces_request world0 [team].
Proof.
  apply (@owner_search_normal_form (run_models team_names) padded_request spaces_request
           world0 [team]).
  - reflexivity.
  - vm_compute. reflexivity.
Defined.

Lemma set_password_outcome_witness :
  UserDetailSetPassword.perform_update min_length_validator tagged_hash
    short_password alice no_credentials
  = UserDetailSetPassword.ValidationError
      [("password", Py.PyStr "This password is too short.")]
  ∧ ∃ c', UserDetailSetPassword.perform_update min_length_validator tagged_hash
            forced_password alice no_credentials
          = UserDetailSetPassword.Updated c'
          ∧ UserDetailSetPassword.hashes c' !! 1 = Some "hash$abc"
          ∧ UserDetailSetPassword.notified c' = [(1, "abc"); (1, "abc")].
Proof.
  split.
  - destruct (proj2 (set_password_outcome min_length_validator tagged_hash
                       short_password alice no_credentials) "abc" eq_refl)
      as [_ Hrej]; [discriminate |].
    apply Hrej; [discriminate | reflexivity].
  - destruct (proj2 (set_password_outcome min_length_validator tagged_hash
                       forced_password alice no_credentials) "abc" eq_refl)
      as [Hok _]; [discriminate |].
    eexists. split; [apply Hok; by left |]. split; reflexivity.
Defined.

Lemma set_password_touches_one_user_witness :
  ∃ c', UserDetailSetPassword.perform_update min_length_validator tagged_hash
          forced_password alice no_credentials
        = UserDetailSetPassword.Updated c'
        ∧ UserDetailSetPassword.hashes c' !! User.pk root = None
        ∧ UserDetailSetPassword.notified c' = [(1, "abc"); (1, "abc")].
Proof.
  destruct (UserDetailSetPassword.perform_update min_length_validator tagged_hash
              forced_password alice no_credentials) as [c'|detail] eqn:E;
    [| vm_compute in E; discriminate].
  destruct (set_password_touches_one_user min_length_validator tagged_hash
              forced_password alice no_credentials c' E) as [Hother Hcalls].
  exists c'. split; [done |]. split.
  - rewrite (Hother (User.pk root)); [done | discriminate].
  - destruct Hcalls as [-> | (pw & Hpw & Hn & _)]; [vm_compute in E; discriminate |].
    injection Hpw as <-. exact Hn.
Defined.

Lemma set_password_get_object_witness :
  UserDetailSetPassword.get_object ci_request world0 = Ok (alice, world0)
  ∧ UserDetailSetPassword.get_object
      {| user := Authenticated root; method := "PUT"; query_params := ∅;
         headers := ∅; META := ∅; data := ∅; kwargs_pk := 9 |} world0
    = Raise DoesNotExist.
Proof.
  split.
  - apply (set_password_get_object ci_request world0).
    + apply (bool_decide_unpack _). vm_compute. exact I.
    + apply list_elem_of_here.
    + reflexivity.
  - apply (set_password_get_object
             {| user := Authenticated root; method := "PUT"; query_params := ∅;
                headers := ∅; META := ∅; data := ∅; kwargs_pk := 9 |} world0).
    + apply (bool_decide_unpack _). vm_compute. exact I.
    + intros u Hin. cbn in Hin.
      repeat (apply elem_of_cons in Hin as [->|Hin]; [discriminate |]).
      by apply not_elem_of_nil in Hin.
Defined.

Lemma reverse_then_resolve_witness :
  Urls.reverse "api-token-detail" (Some 12%N) = Some "tokens/12/"
  ∧ ∃ v, Urls.resolve "tokens/12/"
         = Some {| Urls.func := v; Urls.url_name := "api-token-detail";
                   Urls.kwargs_pk := Some 12%N |}.
Proof.
  split; [vm_compute; reflexivity |].
  apply (reverse_then_resolve "api-token-detail" (Some 12%N) "tokens/12/").
  vm_compute. reflexivity.
Defined.

Lemma resolve_then_reverse_witness :
  ∃ arg, Urls.reverse_text "api-user-set-password" arg = Some "007/set-password/"
         ∧ Some 7%N = arg ≫= Urls.int.
Proof.
  destruct (resolve_then_reverse "007/set-password/"
              {| Urls.func := Urls.UserDetailSetPassword;
                 Urls.url_name := "api-user-set-password";
                 Urls.kwargs_pk := Some 7%N |}) as (arg & Hrev & Hpk & _).
  - vm_compute. reflexivity.
  - by exists arg.
Defined.
